(** * Cross-validated Gaussian-mixture scoring of trajectories (utils/gmm_cv.py)

    A shallow embedding of [utils/gmm_cv.py]: the five functions of the file
    ([nb_clust_with_bic_], [create_cumsum_data], [train_test_split],
    [build_cross_clust_mixt_cv], [create_roc_dict]) over a model of the
    fragment of Python, numpy and pandas they use, with scikit-learn taken as
    an interface ([Sklearn]).

    Conventions.
    - A Python exception is a value [Raise e] of [result]; code that also
      draws from numpy's global random generator (the subsampling, and the
      initialisation of a mixture fit) runs in [M], which threads the
      generator's state.
    - A float is [option Q]: [None] is NaN (pandas' missing marker) and a
      finite value is idealised as an exact rational, so rounding and
      overflow are not part of the model.  The only infinity the source
      writes, [np.inf] in [nb_clust_with_bic_], is the constructor [BInf].
    - A [DataFrame] is column-major: row labels (integers) and named columns
      of cells.  pandas is modelled as of its 1.x releases, for which the
      source was written ([groupby(...).apply] of a transformation returns
      the rows in their original order under their original labels).
    - [print] and [time.asctime] have no effect on results and are left out.

    Layout: the embedding of the source, the vocabulary of the statements,
    a small instance of the interface with example tables, and then the
    lemmas and the theorems, function by function.  A last part proves
    further properties of the five functions: what makes them fail, edge
    cases, and invariants of what they return. *)

From Stdlib Require Import ZArith QArith String Ascii List Lia DecimalString Permutation.
From Stdlib Require DecimalZ Sorted.
From stdpp Require Import base option list gmap.

(* ================================================================= *)
(** ** Python: exceptions and results *)

Inductive exn : Type := KeyError | IndexError | ValueError | AttributeError.

Inductive result (A : Type) : Type :=
| Ok (a : A)
| Raise (e : exn).
Arguments Ok {A} a.
Arguments Raise {A} e.

#[global] Instance result_ret : MRet result := @Ok.
#[global] Instance result_bind : MBind result := fun A B k m =>
  match m with
  | Ok a => k a
  | Raise e => Raise e
  end.

(** [[f(x) for x in l]], stopping at the first exception. *)
Fixpoint rmap {A B : Type} (f : A → result B) (l : list A) : result (list B) :=
  match l with
  | [] => Ok []
  | x :: l' => y ← f x; ys ← rmap f l'; Ok (y :: ys)
  end.

(** [str(n)] for an integer. *)
Definition str (n : Z) : string := NilZero.string_of_int (Z.to_int n).

(** [range(lo, hi)]. *)
Definition range (lo hi : Z) : list Z := seqZ lo (hi - lo).

(* ================================================================= *)
(** ** numpy: floats and two-dimensional arrays *)

Definition float : Type := option Q.

(** A 2-D float array, as the list of its rows. *)
Definition ndarray : Type := list (list float).

Definition logical_not (mask : list bool) : list bool := map negb mask.

(** Boolean-mask indexing [a[mask]]: the entries where the mask is true. *)
Fixpoint mask_select {A : Type} (mask : list bool) (xs : list A) : list A :=
  match mask, xs with
  | b :: mask', x :: xs' =>
      if b then x :: mask_select mask' xs' else mask_select mask' xs'
  | _, _ => []
  end.

(** The row positions a mask selects. *)
Definition mask_positions (mask : list bool) : list nat :=
  mask_select mask (seq 0 (length mask)).

(* ================================================================= *)
(** ** pandas: the DataFrame fragment *)

(** A cell: an integer, a float, or missing (NaN). *)
Inductive cell : Type :=
| CInt (z : Z)
| CFloat (q : Q)
| CNaN.

Definition cell_float (c : cell) : float :=
  match c with
  | CInt z => Some (inject_Z z)
  | CFloat q => Some q
  | CNaN => None
  end.

Definition float_cell (x : float) : cell :=
  match x with
  | Some q => CFloat q
  | None => CNaN
  end.

Definition isna (c : cell) : bool :=
  match c with
  | CNaN => true
  | _ => false
  end.

Record DataFrame : Type := mkFrame {
  index : list Z;
  columns : list (string * list cell)
}.

Fixpoint assoc {A : Type} (k : string) (l : list (string * A)) : option A :=
  match l with
  | [] => None
  | (k', v) :: l' => if String.eqb k k' then Some v else assoc k l'
  end.

(** Replace the value of an existing key in place, or append a new pair. *)
Fixpoint assoc_set {A : Type} (k : string) (v : A) (l : list (string * A))
  : list (string * A) :=
  match l with
  | [] => [(k, v)]
  | (k', v') :: l' =>
      if String.eqb k k' then (k, v) :: l' else (k', v') :: assoc_set k v l'
  end.

(** Every column is as long as the index. *)
Definition wf_frame (df : DataFrame) : bool :=
  forallb (fun nc => Nat.eqb (length (snd nc)) (length (index df))) (columns df).

(** [df[name]]. *)
Definition getitem (df : DataFrame) (name : string) : result (list cell) :=
  match assoc name (columns df) with
  | Some c => Ok c
  | None => Raise KeyError
  end.

(** [df.name]. *)
Definition getattr (df : DataFrame) (name : string) : result (list cell) :=
  match assoc name (columns df) with
  | Some c => Ok c
  | None => Raise AttributeError
  end.

(** A cell compared with an integer, numerically (1 == 1.0; NaN equals nothing). *)
Definition cell_eq_int (c : cell) (z : Z) : bool :=
  match c with
  | CInt x => Z.eqb x z
  | CFloat q => Qeq_bool q (inject_Z z)
  | CNaN => false
  end.

(** [col.isin(ids)]. *)
Definition isin (col : list cell) (ids : list Z) : list bool :=
  map (fun c => existsb (cell_eq_int c) ids) col.

(** [df[mask]] for a boolean mask. *)
Definition df_mask (df : DataFrame) (mask : list bool) : DataFrame :=
  {| index := mask_select mask (index df);
     columns := map (fun nc => (fst nc, mask_select mask (snd nc))) (columns df) |}.

(** The rows of the float array made of the given columns. *)
Definition rows_of (n : nat) (cols : list (list cell)) : ndarray :=
  map (fun p => map (fun c => cell_float (nth p c CNaN)) cols) (seq 0 n).

(** [df[names].values]. *)
Definition values (df : DataFrame) (names : list string) : result ndarray :=
  cols ← rmap (getitem df) names;
  Ok (rows_of (length (index df)) cols).

(** [pd.DataFrame(index=idx)]. *)
Definition new_frame (idx : list Z) : DataFrame :=
  {| index := idx; columns := [] |}.

(** [df[name] = c] for a scalar [c]: the scalar is broadcast over the rows. *)
Definition setitem_scalar (df : DataFrame) (name : string) (c : cell) : DataFrame :=
  {| index := index df;
     columns := assoc_set name (replicate (length (index df)) c) (columns df) |}.

(* ================================================================= *)
(** ** train_test_split *)

Definition train_test_split (data_original : DataFrame) (cv_index_i : list Z) (i : Z)
  : result (ndarray * ndarray * DataFrame) :=
  id_traj ← getattr data_original "id_traj";
  let data_test_bool := isin id_traj cv_index_i in
  let data_train := df_mask data_original (logical_not data_test_bool) in
  traj_coord_train ← values data_train ["lons"; "lats"; "id_traj"]%string;
  let data_test := df_mask data_original data_test_bool in
  traj_coord_test ← values data_test ["lons"; "lats"]%string;
  let index_test := index data_test in
  let data_ := new_frame index_test in
  let data_ := setitem_scalar data_ "cv" (CInt i) in
  Ok (traj_coord_train, traj_coord_test, data_).

(* ================================================================= *)
(** ** scikit-learn and numpy.random, as an interface *)

(** What the source uses of [sklearn.mixture.GaussianMixture],
    [sklearn.metrics] and [numpy.random].  [gmm_fit nc X] is
    [GaussianMixture(n_components=nc, covariance_type="full").fit(X)]: it may
    raise, and it draws its initialisation from the global generator.
    [gmm_score_samples] is the per-sample log-likelihood, one value per row
    of its argument. *)
Class Sklearn : Type := {
  rng : Type;
  GaussianMixture : Type;
  gmm_fit : Z → ndarray → rng → result (GaussianMixture * rng);
  gmm_bic : GaussianMixture → ndarray → Q;
  gmm_score_samples : GaussianMixture → ndarray → result (list Q);
  gmm_score_samples_shape :
    ∀ gmm X l, gmm_score_samples gmm X = Ok l → length l = length X;
  random_choice : Z → Z → rng → list nat * rng;
  roc_curve : list bool → list float → Z → result (list Q * list Q * list Q);
  auc : list Q → list Q → result Q
}.

(** Code that may raise and that threads the random generator. *)
Definition M `{Sklearn} (A : Type) : Type := rng → result (A * rng).

#[global] Instance M_ret `{Sklearn} : MRet M := fun A a s => Ok (a, s).
#[global] Instance M_bind `{Sklearn} : MBind M := fun A B k m s =>
  match m s with
  | Ok (a, s') => k a s'
  | Raise e => Raise e
  end.

Definition lift `{Sklearn} {A : Type} (r : result A) : M A := fun s =>
  match r with
  | Ok a => Ok (a, s)
  | Raise e => Raise e
  end.

Definition fit `{Sklearn} (nc : Z) (X : ndarray) : M GaussianMixture := gmm_fit nc X.

Definition choice `{Sklearn} (n size : Z) : M (list nat) := fun s =>
  Ok (random_choice n size s).

Definition Qsum (l : list Q) : Q := fold_left Qplus l 0%Q.

(** [a.mean()]: NaN on an empty array. *)
Definition mean (l : list Q) : float :=
  match l with
  | [] => None
  | _ => Some (Qsum l / inject_Z (Z.of_nat (length l)))%Q
  end.

(** [GaussianMixture.score(X)] is [self.score_samples(X).mean()]: one float,
    the average log-likelihood of the rows of [X]. *)
Definition gmm_score `{Sklearn} (gmm : GaussianMixture) (X : ndarray) : result float :=
  l ← gmm_score_samples gmm X;
  Ok (mean l).

(* ================================================================= *)
(** ** nb_clust_with_bic_ *)

(** The value under [nc_bic[1]]: [np.inf] at first, then a BIC. *)
Inductive bicv : Type :=
| BFin (q : Q)
| BInf.

Definition Qltb (x y : Q) : bool := (Qnum x * QDen y <? Qnum y * QDen x)%Z.

(** [a < b] on these values. *)
Definition bic_lt (a b : bicv) : bool :=
  match a, b with
  | BFin x, BFin y => Qltb x y
  | BFin _, BInf => true
  | BInf, _ => false
  end.

(** The value under [nc_bic[2]]: the empty list [[]] at first, then a model. *)
Inductive fitted `{Sklearn} : Type :=
| NoModel
| Fitted (gmm : GaussianMixture).

Definition nc_bic_t `{Sklearn} : Type := Z * bicv * fitted.

(** [min([a, b], key=lambda x: x[1])]: [b] only when its key is strictly
    smaller. *)
Definition min_by_bic `{Sklearn} (a b : nc_bic_t) : nc_bic_t :=
  if bic_lt (snd (fst b)) (snd (fst a)) then b else a.

(** The body of the [for nc in range(min_nc, max_ncf)] loop, over the
    candidates left. *)
Fixpoint bic_loop `{Sklearn} (coord_tc : ndarray) (ncs : list Z) (nc_bic : nc_bic_t)
  : M nc_bic_t :=
  match ncs with
  | [] => mret nc_bic
  | nc :: ncs' =>
      gmm ← fit nc coord_tc;
      let bic := gmm_bic gmm coord_tc in
      bic_loop coord_tc ncs' (min_by_bic nc_bic (nc, BFin bic, Fitted gmm))
  end.

Definition nb_clust_with_bic_ `{Sklearn} (coord_tc : ndarray) (min_nc max_nc : Z)
  : M (Z * bicv * fitted) :=
  let max_ncf := Z.min max_nc (Z.of_nat (length coord_tc)) in
  let nc_bic := ((-1)%Z, BInf, NoModel) in
  bic_loop coord_tc (range min_nc max_ncf) nc_bic.

(** The candidates of a run, each fitted once in ascending order, with the
    BIC of that fit: what the loop of [nb_clust_with_bic_] sees. *)
Fixpoint fit_candidates `{Sklearn} (coord_tc : ndarray) (ncs : list Z)
  : M (list (Z * Q * GaussianMixture)) :=
  match ncs with
  | [] => mret []
  | nc :: ncs' =>
      gmm ← fit nc coord_tc;
      rest ← fit_candidates coord_tc ncs';
      mret ((nc, gmm_bic gmm coord_tc, gmm) :: rest)
  end.

(* ================================================================= *)
(** ** numpy indexing used by build_cross_clust_mixt_cv *)

(** [np.where(labels == n_class)[0]]: the positions holding [n_class]. *)
Definition np_where_eq (labels : list Z) (n_class : Z) : list Z :=
  map Z.of_nat (mask_positions (map (fun l => Z.eqb l n_class) labels)).

Definition float_eq_int (x : float) (z : Z) : bool :=
  match x with
  | Some q => Qeq_bool q (inject_Z z)
  | None => false
  end.

(** [np.isin(xs, vals)]. *)
Definition np_isin (xs : list float) (vals : list Z) : list bool :=
  map (fun x => existsb (float_eq_int x) vals) xs.

Definition row_last (row : list float) : float := List.last row None.

(** [a[:, -1]]. *)
Definition last_column (a : ndarray) : list float := map row_last a.

(** [a[:, :-1]]. *)
Definition but_last_column (a : ndarray) : ndarray := map (fun row => removelast row) a.

(** [a[idxs, :]]: the rows at the given positions. *)
Definition take_rows (idxs : list nat) (a : ndarray) : result ndarray :=
  rmap (fun i => match a !! i with
                 | Some row => Ok row
                 | None => Raise IndexError
                 end) idxs.

(** [labels[k]] for an array [labels]: a negative [k] counts from the end;
    an index that is not an integer, or out of bounds, raises. *)
Definition np_getitem (labels : list Z) (k : cell) : result Z :=
  match k with
  | CInt z =>
      let n := Z.of_nat (length labels) in
      if (0 <=? z)%Z && (z <? n)%Z then Ok (nth (Z.to_nat z) labels 0%Z)
      else if (- n <=? z)%Z && (z <? 0)%Z then Ok (nth (Z.to_nat (n + z)) labels 0%Z)
      else Raise IndexError
  | _ => Raise IndexError
  end.

(* ================================================================= *)
(** ** pandas: concat, reindex, join *)

(** The first position of a label in an index. *)
Fixpoint find_pos (idx : list Z) (l : Z) : option nat :=
  match idx with
  | [] => None
  | x :: idx' => if Z.eqb x l then Some 0%nat else S <$> find_pos idx' l
  end.

(** All positions of a label in an index. *)
Definition positions_of (idx : list Z) (l : Z) : list nat :=
  List.filter (fun p => Z.eqb (nth p idx 0%Z) l) (seq 0 (length idx)).

Definition take_opt (col : list cell) (ps : list (option nat)) : list cell :=
  map (fun o => match o with
                | Some p => nth p col CNaN
                | None => CNaN
                end) ps.

(** For each label of [target], where [reindex] finds it in [idx]: an index
    equal to the target is kept as it is; otherwise labels are looked up,
    which pandas refuses when [idx] has a label twice. *)
Definition reindexer (idx target : list Z) : result (list (option nat)) :=
  if bool_decide (idx = target) then Ok (map Some (seq 0 (length idx)))
  else if bool_decide (NoDup idx) then Ok (map (find_pos idx) target)
  else Raise ValueError.

(** [df.reindex(target)]: a label that is not found gives a row of NaN. *)
Definition reindex (df : DataFrame) (target : list Z) : result DataFrame :=
  ps ← reindexer (index df) target;
  Ok {| index := target;
        columns := map (fun nc => (fst nc, take_opt (snd nc) ps)) (columns df) |}.

Definition names (df : DataFrame) : list string := map fst (columns df).

Definition has_name (l : list string) (n : string) : bool := existsb (String.eqb n) l.

(** The column names of the frames, each once, in order of first appearance. *)
Definition union_names (dfs : list DataFrame) : list string :=
  fold_left (fun acc df =>
               acc ++ List.filter (fun n => negb (has_name acc n)) (names df))
            dfs [].

Definition column_or_nan (n : string) (df : DataFrame) : list cell :=
  match assoc n (columns df) with
  | Some c => c
  | None => replicate (length (index df)) CNaN
  end.

(** [pd.concat(dfs)]: rows stacked; a frame without a column has NaN there. *)
Definition concat (dfs : list DataFrame) : result DataFrame :=
  match dfs with
  | [] => Raise ValueError
  | _ =>
      Ok {| index := flat_map index dfs;
            columns := map (fun n => (n, flat_map (column_or_nan n) dfs))
                           (union_names dfs) |}
  end.

(** The row pairs of a left join on the index: each left row with every
    right row of the same label, or with none. *)
Definition join_pairs (lidx ridx : list Z) : list (nat * option nat) :=
  flat_map (fun pl =>
              match positions_of ridx (nth pl lidx 0%Z) with
              | [] => [(pl, None)]
              | ps => map (fun pr => (pl, Some pr)) ps
              end)
           (seq 0 (length lidx)).

(** [left.join(right)]: a left join on the index; a column name on both
    sides raises, as no suffix is given. *)
Definition join (left right : DataFrame) : result DataFrame :=
  if existsb (has_name (names left)) (names right) then Raise ValueError
  else
    let pairs := join_pairs (index left) (index right) in
    Ok {| index := map (fun pp => nth (fst pp) (index left) 0%Z) pairs;
          columns :=
            map (fun nc => (fst nc, map (fun pp => nth (fst pp) (snd nc) CNaN) pairs))
                (columns left)
            ++ map (fun nc => (fst nc, take_opt (snd nc) (map snd pairs)))
                   (columns right) |}.

(* ================================================================= *)
(** ** build_cross_clust_mixt_cv *)

(** [gmm.score(X)] on what [nb_clust_with_bic_] returned: the list [[]] has
    no method [score]. *)
Definition score `{Sklearn} (gmm : fitted) (X : ndarray) : result float :=
  match gmm with
  | NoModel => Raise AttributeError
  | Fitted g => gmm_score g X
  end.

(** Lines 115-116: the training coordinates of the trajectories of a class. *)
Definition class_coords (labels : list Z) (n_class : Z) (traj_coord_train : ndarray)
  : ndarray :=
  let id_traj_class_n := np_where_eq labels n_class in
  but_last_column
    (mask_select (np_isin (last_column traj_coord_train) id_traj_class_n)
                 traj_coord_train).

(** The [for n_class in range(nb_traj_class)] loop, over the classes left. *)
Fixpoint class_loop `{Sklearn} (labels : list Z) (traj_coord_train traj_coord_test : ndarray)
    (classes : list Z) (gmm_per_traj_clust : gmap Z fitted) (data_ : DataFrame)
  : M (gmap Z fitted * DataFrame) :=
  match classes with
  | [] => mret (gmm_per_traj_clust, data_)
  | n_class :: classes' =>
      let coord_tc := class_coords labels n_class traj_coord_train in
      let n_ind := Z.of_nat (length coord_tc) in
      coord_tc ← (if (10000 <? n_ind)%Z
                  then idxs ← choice n_ind 10000; lift (take_rows idxs coord_tc)
                  else mret coord_tc);
      '(nc, bic, gmm) ← nb_clust_with_bic_ coord_tc 2 20;
      let gmm_per_traj_clust := <[n_class := gmm]> gmm_per_traj_clust in
      scores ← lift (score gmm traj_coord_test);
      let data_ := setitem_scalar data_ ("score_" ++ str n_class) (float_cell scores) in
      class_loop labels traj_coord_train traj_coord_test classes' gmm_per_traj_clust data_
  end.

(** The [for i, cv_index_i in enumerate(cv_list)] loop, over the folds left. *)
Fixpoint fold_loop `{Sklearn} (data_original : DataFrame) (nb_traj_class : Z)
    (labels : list Z) (i : Z) (cv_list : list (list Z))
    (gmm_cv : list (gmap Z fitted)) (data_list : list DataFrame)
  : M (list (gmap Z fitted) * list DataFrame) :=
  match cv_list with
  | [] => mret (gmm_cv, data_list)
  | cv_index_i :: cv_list' =>
      '(traj_coord_train, traj_coord_test, data_) ←
        lift (train_test_split data_original cv_index_i i);
      '(gmm_per_traj_clust, data_) ←
        class_loop labels traj_coord_train traj_coord_test (range 0 nb_traj_class) ∅ data_;
      fold_loop data_original nb_traj_class labels (i + 1)%Z cv_list'
                (gmm_cv ++ [gmm_per_traj_clust]) (data_list ++ [data_])
  end.

Definition build_cross_clust_mixt_cv `{Sklearn} (data_original : DataFrame)
    (cv_list : list (list Z)) (nb_traj_class : Z) (labels : list Z)
  : M (list (gmap Z fitted) * DataFrame) :=
  '(gmm_cv, data_list) ← fold_loop data_original nb_traj_class labels 0%Z cv_list [] [];
  data ← lift (stacked ← concat data_list;
               aligned ← reindex stacked (index data_original);
               join data_original aligned);
  mret (gmm_cv, data).

(* ================================================================= *)
(** ** pandas: groupby *)

(** Two group keys compared numerically; NaN is no key. *)
Definition key_eqb (a b : cell) : bool :=
  match cell_float a, cell_float b with
  | Some x, Some y => Qeq_bool x y
  | _, _ => false
  end.

Definition key_leb (a b : cell) : bool :=
  match cell_float a, cell_float b with
  | Some x, Some y => Qle_bool x y
  | _, _ => true
  end.

(** The keys of a column, each once, NaN dropped. *)
Fixpoint distinct_keys (keys : list cell) : list cell :=
  match keys with
  | [] => []
  | c :: keys' =>
      if isna c then distinct_keys keys'
      else c :: List.filter (fun d => negb (key_eqb c d)) (distinct_keys keys')
  end.

Fixpoint insert_key (k : cell) (l : list cell) : list cell :=
  match l with
  | [] => [k]
  | x :: l' => if key_leb k x then k :: l else x :: insert_key k l'
  end.

Definition sort_keys (l : list cell) : list cell := fold_right insert_key [] l.

(** The group keys of [groupby]: distinct, in ascending order. *)
Definition group_keys (keys : list cell) : list cell := sort_keys (distinct_keys keys).

(** The rows of the group of key [g], in row order. *)
Definition group_positions (keys : list cell) (g : cell) : list nat :=
  List.filter (fun p => key_eqb g (nth p keys CNaN)) (seq 0 (length keys)).

(** The rows that belong to some group: those whose key is not NaN. *)
Definition kept_positions (keys : list cell) : list nat :=
  List.filter (fun p => negb (isna (nth p keys CNaN))) (seq 0 (length keys)).

(** [a.take(ps)]: the entries at the given positions. *)
Definition np_take {A : Type} (d : A) (ps : list nat) (l : list A) : list A :=
  map (fun p => nth p l d) ps.

(** Addition of two cells; integers stay integers. *)
Definition cell_add (a b : cell) : cell :=
  match a, b with
  | CInt x, CInt y => CInt (x + y)
  | _, _ =>
      match cell_float a, cell_float b with
      | Some x, Some y => CFloat (x + y)
      | _, _ => CNaN
      end
  end.

(** [col.cumsum()] from a running total: a missing cell stays missing and
    adds nothing to the total. *)
Fixpoint cumsum_from (acc : option cell) (col : list cell) : list cell :=
  match col with
  | [] => []
  | c :: col' =>
      if isna c then CNaN :: cumsum_from acc col'
      else
        let s := match acc with
                 | None => c
                 | Some a => cell_add a c
                 end in
        s :: cumsum_from (Some s) col'
  end.

Definition cumsum (col : list cell) : list cell := cumsum_from None col.

(** [data.groupby(by)[cols].apply(lambda t: t.cumsum())]: each group is
    summed on its own, the pieces are stacked group after group, and the
    stack is reindexed to the rows of [data] that have a key. *)
Definition groupby_apply_cumsum (data : DataFrame) (by_ : string) (cols : list string)
  : result DataFrame :=
  keys ← getitem data by_;
  selected ← rmap (fun n => c ← getitem data n; Ok (n, c)) cols;
  let groups := map (group_positions keys) (group_keys keys) in
  let stacked :=
    {| index := flat_map (fun ps => np_take 0%Z ps (index data)) groups;
       columns :=
         map (fun nc => (fst nc, flat_map (fun ps => cumsum (np_take CNaN ps (snd nc))) groups))
             selected |} in
  reindex stacked (np_take 0%Z (kept_positions keys) (index data)).

(** The frame a [groupby(...).last()] returns: one row per group key. *)
Record GroupedFrame : Type := mkGrouped {
  group_index : list cell;
  group_columns : list (string * list cell)
}.

(** The last cell that is not missing, NaN when there is none. *)
Definition last_valid (l : list cell) : cell :=
  fold_left (fun acc c => if isna c then acc else c) l CNaN.

(** [df.groupby(by).last()]. *)
Definition groupby_last (df : DataFrame) (by_ : string) : result GroupedFrame :=
  keys ← getitem df by_;
  let gks := group_keys keys in
  Ok {| group_index := gks;
        group_columns :=
          map (fun nc => (fst nc,
                          map (fun g => last_valid (np_take CNaN (group_positions keys g) (snd nc)))
                              gks))
              (List.filter (fun nc => negb (String.eqb (fst nc) by_)) (columns df)) |}.

Definition ggetitem (g : GroupedFrame) (name : string) : result (list cell) :=
  match assoc name (group_columns g) with
  | Some c => Ok c
  | None => Raise KeyError
  end.

(** [df[name] = series]: the series is aligned on the row labels of [df]. *)
Definition setitem_series (df : DataFrame) (name : string)
    (sidx : list Z) (svals : list cell) : result DataFrame :=
  ps ← reindexer sidx (index df);
  Ok {| index := index df;
        columns := assoc_set name (take_opt svals ps) (columns df) |}.

(* ================================================================= *)
(** ** create_cumsum_data *)

Definition create_cumsum_data (data : DataFrame) : result DataFrame :=
  let scores_columns := List.filter (String.prefix "score_") (names data) in
  data_cumsum ← groupby_apply_cumsum data "id_traj" scores_columns;
  Ok data_cumsum.

(* ================================================================= *)
(** ** create_roc_dict *)

(** The [for tc in range(nb_tc)] loop, over the labels left. *)
Fixpoint roc_loop `{Sklearn} (data_gbit : GroupedFrame) (tcs : list Z)
    (roc_dic : gmap Z (list Q * list Q * Q))
  : result (gmap Z (list Q * list Q * Q)) :=
  match tcs with
  | [] => Ok roc_dic
  | tc :: tcs' =>
      traj_clust ← ggetitem data_gbit "traj_clust";
      let y := map (fun c => cell_eq_int c tc) traj_clust in
      score_tc ← ggetitem data_gbit ("score_" ++ str tc);
      let scores := map cell_float score_tc in
      '(fpr, tpr, thresholds) ← roc_curve y scores 1;
      auc_v ← auc fpr tpr;
      roc_loop data_gbit tcs' (<[tc := (fpr, tpr, auc_v)]> roc_dic)
  end.

Definition create_roc_dict `{Sklearn} (data_original data_score : DataFrame)
    (labels : list Z) (nb_tc : Z)
  : result (gmap Z (list Q * list Q * Q)) :=
  data_cumsum ← create_cumsum_data data_score;
  id_traj ← getattr data_original "id_traj";
  data_cumsum ← setitem_series data_cumsum "id_traj" (index data_original) id_traj;
  data_gbit ← groupby_last data_cumsum "id_traj";
  traj_clust ← rmap (np_getitem labels) (group_index data_gbit);
  let data_gbit :=
    {| group_index := group_index data_gbit;
       group_columns := assoc_set "traj_clust" (map CInt traj_clust)
                                  (group_columns data_gbit) |} in
  roc_loop data_gbit (range 0 nb_tc) ∅.

(* ================================================================= *)
(** ** Vocabulary of the statements

    Definitions that the theorems below are stated with; none of them is
    part of the source. *)

(** A fitted candidate as the list [[nc, bic, gmm]] that the loop of
    [nb_clust_with_bic_] compares. *)
Definition entry `{Sklearn} (c : Z * Q * GaussianMixture) : nc_bic_t :=
  (fst (fst c), BFin (snd (fst c)), Fitted (snd c)).

(** [x[0]] and [x[1]] of such a list: the count and the key of [min]. *)
Definition count `{Sklearn} (e : nc_bic_t) : Z := fst (fst e).
Definition key `{Sklearn} (e : nc_bic_t) : bicv := snd (fst e).

(** Each count is below all the later ones. *)
Fixpoint ascending `{Sklearn} (l : list nc_bic_t) : Prop :=
  match l with
  | [] => True
  | e :: l' => (∀ e', In e' l' → (count e < count e')%Z) ∧ ascending l'
  end.

(** Row [p] of the float array made of the columns [cols]. *)
Definition row_at (cols : list (list cell)) (p : nat) : list float :=
  map (fun c => cell_float (nth p c CNaN)) cols.

(** The cells that are not missing. *)
Definition valid (l : list cell) : list cell := List.filter (fun c => negb (isna c)) l.

(** The sum of a list of cells, from the left; NaN for no cell at all. *)
Definition sum_cells (l : list cell) : cell :=
  match l with
  | [] => CNaN
  | c :: l' => fold_left cell_add l' c
  end.

(** The running total after the cells [l], started from [acc]. *)
Definition total_from (acc : option cell) (l : list cell) : cell :=
  match acc with
  | None => sum_cells (valid l)
  | Some a => fold_left cell_add (valid l) a
  end.

(** The rows of the trajectory of row [p], from the first one to [p]. *)
Definition same_traj_upto (keys : list cell) (p : nat) : list nat :=
  List.filter (fun p' => key_eqb (nth p keys CNaN) (nth p' keys CNaN)) (seq 0 (S p)).

(** The running sum of a score column at row [p]: the sum, in row order, of
    the scores of the trajectory of [p] up to [p]; a missing score stays
    missing and counts for nothing in the sums after it. *)
Definition running_sum (keys col : list cell) (p : nat) : cell :=
  if isna (nth p col CNaN) then CNaN
  else sum_cells (valid (np_take CNaN (same_traj_upto keys p) col)).

(** The sum of all the scores of the trajectory of key [g]. *)
Definition trajectory_total (keys col : list cell) (g : cell) : cell :=
  sum_cells (valid (np_take CNaN (group_positions keys g) col)).

(** The columns of the terminal table of [create_roc_dict]: for each
    trajectory, the last valid value of each cumulative column. *)
Definition terminal_columns (data_cumsum : DataFrame) (ids : list cell)
  : list (string * list cell) :=
  map (fun nc => (fst nc,
                  map (fun g => last_valid (np_take CNaN (group_positions ids g) (snd nc)))
                      (group_keys ids)))
      (List.filter (fun nc => negb (String.eqb (fst nc) "id_traj"))
                   (assoc_set "id_traj" ids (columns data_cumsum))).

(** ["score_" + str(c)], the name of the score column of class [c]. *)
Definition score_name (c : Z) : string := ("score_" ++ str c)%string.

(** The names of a frame after [df[n] = ...]. *)
Definition add_name (ns : list string) (n : string) : list string :=
  if has_name ns n then ns else ns ++ [n].

(** No cell of the frame is missing. *)
Definition no_nan (df : DataFrame) : Prop :=
  ∀ n c, In (n, c) (columns df) → ∀ x, In x c → isna x = false.

(** The frame after the assignments [df["score_c"] = x] for the pairs
    [(c, x)] of a list, in order. *)
Definition apply_scores (df : DataFrame) (cxs : list (Z * cell)) : DataFrame :=
  fold_left (fun G cx => setitem_scalar G (score_name (fst cx)) (snd cx)) cxs df.

(** A cell that the class loop writes: the one float that [gmm.score]
    returns for the whole test array, the mean of its per-sample
    log-likelihoods. *)
Definition class_score `{Sklearn} (test : ndarray) (x : cell) : Prop :=
  ∃ gmm l, gmm_score_samples gmm test = Ok l ∧ x = float_cell (mean l).

(** The frame of one fold: the test frame of [train_test_split], then one
    broadcast score per class. *)
Definition fold_frame `{Sklearn} (data_original : DataFrame) (classes : list Z)
    (i : Z) (cv_index_i : list Z) (F : DataFrame) : Prop :=
  ∃ train test F0 cells,
    train_test_split data_original cv_index_i i = Ok (train, test, F0)
    ∧ length cells = length classes
    ∧ Forall (class_score test) cells
    ∧ F = apply_scores F0 (combine classes cells).

(** The frames of the folds, numbered from [i]. *)
Fixpoint fold_frames `{Sklearn} (data_original : DataFrame) (classes : list Z)
    (i : Z) (cv_list : list (list Z)) (frames : list DataFrame) : Prop :=
  match cv_list, frames with
  | [], [] => True
  | cv_index_i :: cv_list', F :: frames' =>
      fold_frame data_original classes i cv_index_i F
      ∧ fold_frames data_original classes (i + 1)%Z cv_list' frames'
  | _, _ => False
  end.

(** The names of every fold frame: "cv", then the score columns. *)
Definition fold_names (classes : list Z) : list string :=
  fold_left add_name (map score_name classes) ["cv"%string].

(** The trajectory id of a cell is in a held-out list. *)
Definition held_out (c : cell) (cv_index_i : list Z) : bool :=
  existsb (cell_eq_int c) cv_index_i.

(** No trajectory id is in two of the held-out lists. *)
Fixpoint folds_disjoint (cv_list : list (list Z)) : bool :=
  match cv_list with
  | [] => true
  | cv :: cv_list' =>
      forallb (fun cv' => forallb (fun z => negb (existsb (Z.eqb z) cv')) cv) cv_list'
      && folds_disjoint cv_list'
  end.

(** Every trajectory id of the table is in one of the held-out lists. *)
Definition folds_cover (ids : list cell) (cv_list : list (list Z)) : bool :=
  forallb (fun c => existsb (held_out c) cv_list) ids.

(* ================================================================= *)
(** ** A small instance of the interface, and example tables *)

(** A stand-in for the library, enough to run the functions above: a fitted
    model is its number of components, a fit fails when there are fewer
    samples than components, and the log-likelihood of a sample is its first
    coordinate. *)
Definition toy_fit (nc : Z) (X : ndarray) (s : nat) : result (Z * nat) :=
  if (nc <=? 0)%Z || (Z.of_nat (length X) <? nc)%Z then Raise ValueError
  else Ok (nc, S s).

Definition toy_bic (gmm : Z) (X : ndarray) : Q :=
  inject_Z ((gmm / 2 - 1) * (gmm / 2 - 1)).

Definition toy_loglik (row : list float) : Q :=
  match row with
  | Some q :: _ => q
  | _ => 0%Q
  end.

Definition toy_score_samples (gmm : Z) (X : ndarray) : result (list Q) :=
  match X with
  | [] => Raise ValueError
  | _ => Ok (map toy_loglik X)
  end.

Definition toy_choice (n size : Z) (s : nat) : list nat * nat :=
  (seq 0 (Z.to_nat size), S s).

Definition toy_roc_curve (y : list bool) (scores : list float) (pos_label : Z)
  : result (list Q * list Q * list Q) :=
  Ok (map (fun b : bool => if b then 1%Q else 0%Q) y,
      map (fun x : float => default 0%Q x) scores,
      []).

Definition toy_auc (fpr tpr : list Q) : result Q := Ok (Qsum fpr + Qsum tpr)%Q.

(** The stand-in returns one log-likelihood per sample. *)
Lemma toy_score_samples_shape (gmm : Z) (X : ndarray) (l : list Q) :
  toy_score_samples gmm X = Ok l → length l = length X.
Proof.
  destruct X as [|r X]; simpl; [discriminate|].
  intros [= <-]. simpl. now rewrite length_map.
Qed.

Definition toy : Sklearn :=
  {| rng := nat;
     GaussianMixture := Z;
     gmm_fit := toy_fit;
     gmm_bic := toy_bic;
     gmm_score_samples := toy_score_samples;
     gmm_score_samples_shape := toy_score_samples_shape;
     random_choice := toy_choice;
     roc_curve := toy_roc_curve;
     auc := toy_auc |}.

Definition pt (x y : Z) : list float := [Some (inject_Z x); Some (inject_Z y)].

(** Twelve points of four trajectories (ids 0 to 3, three points each), with
    row labels 100 to 111. *)
Definition ex_points : DataFrame :=
  {| index := seqZ 100 12;
     columns :=
       [("lons"%string, map CFloat [1; 2; 3; 4; 5; 6; 7; 8; 9; 10; 11; 12]%Q);
        ("lats"%string, map CFloat [0; 0; 1; 1; 0; 0; 1; 1; 0; 0; 1; 1]%Q);
        ("id_traj"%string, map CInt [0; 1; 2; 3; 0; 1; 2; 3; 0; 1; 2; 3]%Z)] |}.

(** Trajectories 0 and 1 are of class 0, trajectories 2 and 3 of class 1. *)
Definition ex_labels : list Z := [0; 0; 1; 1]%Z.

(** Two folds, holding out trajectories {0, 2} and {1, 3}. *)
Definition ex_cv_list : list (list Z) := [[0; 2]; [1; 3]]%Z.

(** A table of two interleaved trajectories, with one missing score. *)
Definition ex_scores : DataFrame :=
  {| index := seqZ 10 6;
     columns :=
       [("id_traj"%string, map CInt [0; 1; 0; 1; 0; 1]%Z);
        ("score_0"%string, [CFloat 1; CFloat 10; CFloat 2; CNaN; CFloat 3; CFloat 30]);
        ("other"%string, map CInt [7; 7; 7; 7; 7; 7]%Z)] |}.

(** Its cumulative sums: the missing score stays missing and is skipped. *)
Definition ex_scores_cumsum : DataFrame :=
  {| index := seqZ 10 6;
     columns := [("score_0"%string,
                  [CFloat 1; CFloat 10; CFloat 3; CNaN; CFloat 6; CFloat 40])] |}.

(** Scores for the twelve points of [ex_points], two columns. *)
Definition ex_score_table : DataFrame :=
  {| index := seqZ 100 12;
     columns :=
       [("id_traj"%string, map CInt [0; 1; 2; 3; 0; 1; 2; 3; 0; 1; 2; 3]%Z);
        ("score_0"%string, map CFloat [1; 1; 0; 0; 2; 2; 0; 0; 3; 3; 0; 0]%Q);
        ("score_1"%string, map CFloat [0; 0; 1; 2; 0; 0; 1; 2; 0; 0; 1; 2]%Q)] |}.

(** The cumulative sums of [ex_score_table]. *)
Definition ex_score_cumsum : DataFrame :=
  Eval vm_compute in
    match create_cumsum_data ex_score_table with
    | Ok d => d
    | Raise _ => new_frame []
    end.

(** Four points of two trajectories, one of them with the id -1. *)
Definition ex_neg_points : DataFrame :=
  {| index := seqZ 0 4;
     columns :=
       [("lons"%string, map CFloat [1; 2; 3; 4]%Q);
        ("lats"%string, map CFloat [0; 0; 1; 1]%Q);
        ("id_traj"%string, map CInt [-1; -1; 0; 0]%Z)] |}.

Definition ex_neg_scores : DataFrame :=
  {| index := seqZ 0 4;
     columns :=
       [("id_traj"%string, map CInt [-1; -1; 0; 0]%Z);
        ("score_0"%string, map CFloat [1; 2; 3; 4]%Q);
        ("score_1"%string, map CFloat [5; 6; 7; 8]%Q)] |}.

(** The table [ex_scores] with other scores for trajectory 1. *)
Definition ex_scores_other : DataFrame :=
  {| index := seqZ 10 6;
     columns :=
       [("id_traj"%string, map CInt [0; 1; 0; 1; 0; 1]%Z);
        ("score_0"%string, [CFloat 1; CFloat 99; CFloat 2; CFloat 5; CFloat 3; CFloat 7])] |}.

(** A table whose trajectory ids are floats, as pandas stores a column of
    whole numbers that had a missing value. *)
Definition ex_float_ids : DataFrame :=
  {| index := seqZ 0 4;
     columns :=
       [("id_traj"%string, map CFloat [0; 0; 1; 1]%Q);
        ("score_0"%string, map CFloat [1; 2; 3; 4]%Q)] |}.

(* ================================================================= *)
(** * Verification *)

(** ** The two monads *)

Lemma rbind_Ok {A B : Type} (m : result A) (k : A → result B) (b : B) :
  (x ← m; k x) = Ok b → ∃ a, m = Ok a ∧ k a = Ok b.
Proof. destruct m as [a|e]; simpl; [eauto | discriminate]. Qed.

Lemma mbind_Ok `{Sklearn} {A B : Type} (m : M A) (k : A → M B) s b s' :
  ((x ← m; k x) : M B) s = Ok (b, s') → ∃ a s1, m s = Ok (a, s1) ∧ k a s1 = Ok (b, s').
Proof.
  unfold mbind, M_bind. destruct (m s) as [[a s1]|e]; [eauto | discriminate].
Qed.

Lemma lift_Ok `{Sklearn} {A : Type} (r : result A) s a s' :
  lift r s = Ok (a, s') → r = Ok a ∧ s' = s.
Proof. unfold lift. destruct r; [intros [= -> ->]; auto | discriminate]. Qed.

Lemma mret_Ok `{Sklearn} {A : Type} (a b : A) s s' :
  (mret a : M A) s = Ok (b, s') → b = a ∧ s' = s.
Proof. intros [= -> ->]; auto. Qed.

(** Take apart a successful run, bind by bind. *)
Ltac inv_run :=
  repeat match goal with
    | H : (_ ← _; _) _ = Ok (_, _) |- _ =>
        let a := fresh "a" in let s := fresh "s" in
        let H1 := fresh "Hrun" in
        apply mbind_Ok in H; destruct H as (a & s & H1 & H)
    | H : (_ ← _; _) = Ok _ |- _ =>
        let a := fresh "a" in let H1 := fresh "Hres" in
        apply rbind_Ok in H; destruct H as (a & H1 & H)
    | H : lift _ _ = Ok (_, _) |- _ => apply lift_Ok in H; destruct H as [H ->]
    | H : mret _ _ = Ok (_, _) |- _ => apply mret_Ok in H; destruct H as [-> ->]
    | H : Ok _ = Ok _ |- _ => injection H as H; subst
    end.

(* ================================================================= *)
(** ** nb_clust_with_bic_: the order on BIC values *)

Lemma Qltb_lt (x y : Q) : Qltb x y = true ↔ (x < y)%Q.
Proof. unfold Qltb, Qlt. apply Z.ltb_lt. Qed.

Lemma bic_lt_irrefl (a : bicv) : bic_lt a a = false.
Proof.
  destruct a as [q|]; simpl; [|reflexivity].
  apply not_true_is_false. rewrite Qltb_lt. apply Qlt_irrefl.
Qed.

Lemma bic_lt_trans (a b c : bicv) :
  bic_lt a b = true → bic_lt b c = true → bic_lt a c = true.
Proof.
  destruct a as [x|], b as [y|], c as [z|]; simpl; try congruence.
  rewrite !Qltb_lt. apply Qlt_trans.
Qed.

(** The order is total: what is below [c] is below [b], or [b] is below [c]. *)
Lemma bic_lt_cotrans (a b c : bicv) :
  bic_lt a c = true → bic_lt a b = true ∨ bic_lt b c = true.
Proof.
  destruct a as [x|], b as [y|], c as [z|]; simpl; auto; try congruence.
  rewrite !Qltb_lt. intros Hxz.
  destruct (Qlt_le_dec x y) as [Hxy|Hyx]; [auto|].
  right. eapply Qle_lt_trans; eassumption.
Qed.

Lemma bic_lt_asym (a b : bicv) : bic_lt a b = true → bic_lt b a = false.
Proof.
  intros Hab. apply not_true_is_false. intros Hba.
  pose proof (bic_lt_trans _ _ _ Hab Hba) as Haa.
  rewrite bic_lt_irrefl in Haa. discriminate.
Qed.

(* ================================================================= *)
(** ** nb_clust_with_bic_: the loop keeps the first minimum *)

Section BicLoop.
Context `{Sklearn}.

(** The loop is a left fold of [min_by_bic] over the fitted candidates. *)
Lemma bic_loop_fold coord_tc ncs :
  ∀ acc s r s',
    bic_loop coord_tc ncs acc s = Ok (r, s') →
    ∃ tr, fit_candidates coord_tc ncs s = Ok (tr, s')
          ∧ map (fun c => fst (fst c)) tr = ncs
          ∧ r = fold_left min_by_bic (map entry tr) acc.
Proof.
  induction ncs as [|nc ncs IH]; simpl; intros acc s r s' Hrun.
  - inv_run. exists []. auto.
  - inv_run. apply IH in Hrun as (tr & Htr & Hncs & ->).
    exists ((nc, gmm_bic a coord_tc, a) :: tr).
    unfold mbind, M_bind at 1. rewrite Hrun0.
    unfold mbind, M_bind at 1. rewrite Htr.
    simpl. rewrite Hncs. auto.
Qed.

(** When every fit succeeds, so does the loop. *)
Lemma bic_loop_total coord_tc ncs :
  ∀ acc s tr s',
    fit_candidates coord_tc ncs s = Ok (tr, s') →
    bic_loop coord_tc ncs acc s = Ok (fold_left min_by_bic (map entry tr) acc, s').
Proof.
  induction ncs as [|nc ncs IH]; simpl; intros acc s tr s' Hrun.
  - inv_run. reflexivity.
  - inv_run. unfold mbind, M_bind at 1. rewrite Hrun0.
    erewrite IH by eassumption. reflexivity.
Qed.

(** A left fold of [min_by_bic]: either the start survives, because nothing
    in the list is below it, or the result is the first entry of the list
    with the least key. *)
Lemma fold_min_by_bic l :
  ∀ acc, ascending l →
    (fold_left min_by_bic l acc = acc
     ∧ ∀ e, In e l → bic_lt (key e) (key acc) = false)
    ∨ (In (fold_left min_by_bic l acc) l
       ∧ bic_lt (key (fold_left min_by_bic l acc)) (key acc) = true
       ∧ ∀ e, In e l →
           bic_lt (key e) (key (fold_left min_by_bic l acc)) = false
           ∧ (bic_lt (key (fold_left min_by_bic l acc)) (key e) = false →
              (count (fold_left min_by_bic l acc) <= count e)%Z)).
Proof.
  induction l as [|e l IH]; simpl; intros acc Hasc.
  - left. split; [reflexivity | intros ? []].
  - destruct Hasc as [Hlater Hasc].
    assert (Hstep : min_by_bic acc e
                    = if bic_lt (key e) (key acc) then e else acc) by reflexivity.
    rewrite Hstep. clear Hstep.
    destruct (bic_lt (key e) (key acc)) eqn:Hlt.
    + right. destruct (IH e Hasc) as [[-> Hnone] | (Hin & Hre & Hmin)].
      * split; [auto|]. split; [assumption|].
        intros e' [<- | Hin'].
        -- split; [apply bic_lt_irrefl | intros _; lia].
        -- split; [auto|]. intros _. specialize (Hlater _ Hin'). lia.
      * split; [auto|]. split; [eapply bic_lt_trans; eassumption|].
        intros e' [<- | Hin']; [|auto].
        split; [apply bic_lt_asym; assumption|]. congruence.
    + destruct (IH acc Hasc) as [[-> Hnone] | (Hin & Hre & Hmin)].
      * left. split; [reflexivity|]. intros e' [<- | Hin']; auto.
      * right. split; [auto|]. split; [assumption|].
        intros e' [<- | Hin']; [|auto].
        destruct (bic_lt_cotrans _ (key e) _ Hre) as [Hlt' | Hlt'];
          [|congruence].
        split; [apply bic_lt_asym; assumption|]. congruence.
Qed.

Lemma ascending_seqZ (tr : list (Z * Q * GaussianMixture)) :
  ∀ lo n, map (fun c => fst (fst c)) tr = seqZ lo n → ascending (map entry tr).
Proof.
  induction tr as [|c tr IH]; simpl; intros lo n Hmap; [exact I|].
  destruct (Z_le_gt_dec n 0) as [Hn|Hn].
  { rewrite seqZ_nil in Hmap by lia. discriminate. }
  rewrite seqZ_cons in Hmap by lia. injection Hmap as Hc Htr.
  split; [|eapply IH; eassumption].
  intros e' Hin. apply in_map_iff in Hin as (c' & <- & Hin).
  assert (Hc' : fst (fst c') ∈ seqZ (Z.succ lo) (Z.pred n)).
  { rewrite <- Htr. apply list_elem_of_In.
    apply (in_map (fun c => fst (fst c))). assumption. }
  apply elem_of_seqZ in Hc'. unfold count, entry. simpl. lia.
Qed.

End BicLoop.

(* ================================================================= *)
(** ** nb_clust_with_bic_: the claims *)

Lemma range_nil (lo hi : Z) : (hi <= lo)%Z → range lo hi = [].
Proof. intros Hle. unfold range. apply seqZ_nil. lia. Qed.

(** A run of [nb_clust_with_bic_] that returns: what it fitted, and that its
    result is the fold of [min_by_bic] from the sentinel. *)
Lemma nb_clust_with_bic_run `{Sklearn} coord_tc min_nc max_nc s r s' :
  nb_clust_with_bic_ coord_tc min_nc max_nc s = Ok (r, s') →
  ∃ tr,
    fit_candidates coord_tc
      (range min_nc (Z.min max_nc (Z.of_nat (length coord_tc)))) s = Ok (tr, s')
    ∧ map (fun c => fst (fst c)) tr
      = range min_nc (Z.min max_nc (Z.of_nat (length coord_tc)))
    ∧ r = fold_left min_by_bic (map entry tr) ((-1)%Z, BInf, NoModel).
Proof. unfold nb_clust_with_bic_. apply bic_loop_fold. Qed.

(** With a candidate to fit, the result is one of the candidates, the first
    of those with the least BIC. *)
Lemma nb_clust_with_bic_pick `{Sklearn} (tr : list (Z * Q * GaussianMixture)) lo n :
  (0 < n)%Z →
  map (fun c => fst (fst c)) tr = seqZ lo n →
  let r := fold_left min_by_bic (map entry tr) ((-1)%Z, BInf, NoModel) in
  In r (map entry tr)
  ∧ ∀ e, In e (map entry tr) →
      bic_lt (key e) (key r) = false
      ∧ (bic_lt (key r) (key e) = false → (count r <= count e)%Z).
Proof.
  intros Hn Hmap r.
  destruct (fold_min_by_bic (map entry tr) ((-1)%Z, BInf, NoModel)
              (ascending_seqZ tr lo n Hmap)) as [[_ Hnone] | (Hin & _ & Hmin)].
  - exfalso. destruct tr as [|c tr].
    + rewrite seqZ_cons in Hmap by lia. discriminate.
    + specialize (Hnone (entry c) (or_introl eq_refl)). discriminate.
  - split; assumption.
Qed.

(** C3 (amended): when the coordinate set has fewer points than [min_nc],
    [nb_clust_with_bic_] does not fail: it fits nothing, leaves the random
    generator as it was, and returns the sentinel triple [(-1, np.inf, [])]
    it started from. *)
Theorem nb_clust_with_bic_too_few_points `{Sklearn}
    (coord_tc : ndarray) (min_nc max_nc : Z) (s : rng) :
  (Z.of_nat (length coord_tc) < min_nc)%Z →
  nb_clust_with_bic_ coord_tc min_nc max_nc s = Ok ((-1)%Z, BInf, NoModel, s).
Proof.
  intros Hfew. unfold nb_clust_with_bic_.
  rewrite range_nil by lia. reflexivity.
Qed.

Lemma nb_clust_with_bic_too_few_points_witness :
  (Z.of_nat (length [pt 4 5]) < 2)%Z
  ∧ @nb_clust_with_bic_ toy [pt 4 5] 2 20 0%nat = Ok ((-1)%Z, BInf, NoModel, 0%nat).
Proof.
  split; [simpl; lia|].
  apply (nb_clust_with_bic_too_few_points (H := toy)). simpl. lia.
Defined.

(** C3, as stated, fails: on an empty coordinate set, with the bounds 2 and
    20, the function returns a result, the sentinel, and raises nothing. *)
Lemma nb_clust_with_bic_returns_sentinel :
  (Z.of_nat (length ([] : ndarray)) < 2)%Z
  ∧ @nb_clust_with_bic_ toy [] 2 20 0%nat = Ok ((-1)%Z, BInf, NoModel, 0%nat).
Proof. split; [simpl; lia | reflexivity]. Qed.

(** In [build_cross_clust_mixt_cv] the sentinel does not go unnoticed: with
    fewer than two training points for a class, the model returned is the
    list [[]], and [gmm.score] on it raises AttributeError. *)
Lemma class_loop_too_few_points `{Sklearn} (labels : list Z) (train test : ndarray)
    (n_class : Z) (classes : list Z) (gmms : gmap Z fitted) (F : DataFrame) (s : rng) :
  length (class_coords labels n_class train) < 2 →
  class_loop labels train test (n_class :: classes) gmms F s = Raise AttributeError.
Proof.
  intros Hfew. cbn [class_loop].
  destruct (10000 <? Z.of_nat (length (class_coords labels n_class train)))%Z eqn:Hbig;
    [apply Z.ltb_lt in Hbig; lia|].
  unfold mbind at 1, M_bind at 1. unfold mret at 1, M_ret at 1.
  unfold mbind at 1, M_bind at 1. unfold nb_clust_with_bic_.
  rewrite range_nil by lia. reflexivity.
Qed.

(** C2 (amended): a count that [nb_clust_with_bic_] returns lies in
    [[min_nc, min(max_nc, n_points))] whenever that range is not empty; when
    the range is empty the count returned is -1. *)
Theorem nb_clust_with_bic_count_in_range `{Sklearn}
    (coord_tc : ndarray) (min_nc max_nc : Z) (s s' : rng)
    (nc : Z) (bic : bicv) (gmm : fitted) :
  nb_clust_with_bic_ coord_tc min_nc max_nc s = Ok (nc, bic, gmm, s') →
  let max_ncf := Z.min max_nc (Z.of_nat (length coord_tc)) in
  ((min_nc < max_ncf)%Z → (min_nc <= nc < max_ncf)%Z)
  ∧ ((max_ncf <= min_nc)%Z → nc = (-1)%Z).
Proof.
  intros Hrun max_ncf. split.
  - intros Hlt. apply nb_clust_with_bic_run in Hrun as (tr & _ & Hmap & Hr).
    fold max_ncf in Hmap. unfold range in Hmap.
    destruct (nb_clust_with_bic_pick tr min_nc (max_ncf - min_nc)
                ltac:(lia) Hmap) as [Hin _].
    rewrite <- Hr in Hin. apply in_map_iff in Hin as (c & Hc & Hin).
    assert (Hnc : fst (fst c) ∈ seqZ min_nc (max_ncf - min_nc)).
    { rewrite <- Hmap. apply list_elem_of_In.
      apply (in_map (fun c => fst (fst c))). assumption. }
    apply elem_of_seqZ in Hnc. unfold entry in Hc. injection Hc as Hc _ _.
    rewrite Hc in Hnc. lia.
  - intros Hle. unfold nb_clust_with_bic_ in Hrun. fold max_ncf in Hrun.
    rewrite range_nil in Hrun by assumption.
    simpl in Hrun. injection Hrun as <- _ _ _. reflexivity.
Qed.

Lemma nb_clust_with_bic_count_in_range_witness :
  @nb_clust_with_bic_ toy [pt 1 1; pt 2 1; pt 3 2; pt 4 2; pt 5 3; pt 6 3] 2 20 0%nat
  = Ok (2%Z, BFin 0, Fitted (H := toy) 2%Z, 4%nat)
  ∧ (((2 < Z.min 20 6)%Z → (2 <= 2 < Z.min 20 6)%Z)
     ∧ ((Z.min 20 6 <= 2)%Z → 2%Z = (-1)%Z)).
Proof.
  split; [reflexivity|].
  apply (nb_clust_with_bic_count_in_range (H := toy)
           [pt 1 1; pt 2 1; pt 3 2; pt 4 2; pt 5 3; pt 6 3] 2 20 0%nat 4%nat
           2%Z (BFin 0) (Fitted (H := toy) 2%Z)).
  reflexivity.
Defined.

(** C2, as stated, fails: with one point and the bounds 2 and 20 the range
    [[2, min(20, 1))] is empty, and the count returned is -1. *)
Lemma nb_clust_with_bic_count_outside_range :
  @nb_clust_with_bic_ toy [pt 1 1] 2 20 0%nat = Ok ((-1)%Z, BInf, NoModel, 0%nat)
  ∧ ¬ (2 <= -1 < Z.min 20 (Z.of_nat (length [pt 1 1])))%Z.
Proof. split; [reflexivity | simpl; lia]. Qed.

(** C7: among the candidate counts of a run, fitted in ascending order, the
    count that [nb_clust_with_bic_] returns has the least BIC, and no
    candidate with that same BIC is lower: it is the first-encountered
    minimum.  The model and the BIC returned are those of that candidate. *)
Theorem nb_clust_with_bic_first_minimum `{Sklearn}
    (coord_tc : ndarray) (min_nc max_nc : Z) (s s' : rng)
    (nc : Z) (bic : bicv) (gmm : fitted) :
  nb_clust_with_bic_ coord_tc min_nc max_nc s = Ok (nc, bic, gmm, s') →
  (min_nc < Z.min max_nc (Z.of_nat (length coord_tc)))%Z →
  ∃ tr q g,
    fit_candidates coord_tc
      (range min_nc (Z.min max_nc (Z.of_nat (length coord_tc)))) s = Ok (tr, s')
    ∧ bic = BFin q ∧ gmm = Fitted g
    ∧ In (nc, q, g) tr
    ∧ ∀ nc' q' g', In (nc', q', g') tr →
        (q <= q')%Q ∧ ((q' == q)%Q → (nc <= nc')%Z).
Proof.
  intros Hrun Hlt. apply nb_clust_with_bic_run in Hrun as (tr & Hfit & Hmap & Hr).
  unfold range in Hmap.
  destruct (nb_clust_with_bic_pick tr min_nc
              (Z.min max_nc (Z.of_nat (length coord_tc)) - min_nc)
              ltac:(lia) Hmap) as [Hin Hmin].
  rewrite <- Hr in Hin, Hmin. clear Hr.
  apply in_map_iff in Hin as ([[k q] g] & Hc & Hin).
  unfold entry in Hc. simpl in Hc. injection Hc as -> <- <-.
  exists tr, q, g.
  split; [assumption|]. split; [reflexivity|]. split; [reflexivity|].
  split; [assumption|].
  intros nc' q' g' Hin'.
  destruct (Hmin (entry (nc', q', g')) (in_map entry _ _ Hin')) as [Hnlt Hfirst].
  unfold key, count, entry in Hnlt, Hfirst. simpl in Hnlt, Hfirst. split.
  - apply Qnot_lt_le. rewrite <- Qltb_lt. congruence.
  - intros Heq. apply Hfirst.
    apply not_true_is_false. rewrite Qltb_lt, Heq. apply Qlt_irrefl.
Qed.

Lemma nb_clust_with_bic_first_minimum_witness :
  ∃ tr q g,
    @fit_candidates toy [pt 1 1; pt 2 1; pt 3 2; pt 4 2; pt 5 3; pt 6 3]
      (range 2 (Z.min 20 6)) 0%nat = Ok (tr, 4%nat)
    ∧ BFin 0 = BFin q ∧ Fitted (H := toy) 2%Z = Fitted g
    ∧ In (2%Z, q, g) tr
    ∧ ∀ nc' q' g', In (nc', q', g') tr →
        (q <= q')%Q ∧ ((q' == q)%Q → (2 <= nc')%Z).
Proof.
  apply (nb_clust_with_bic_first_minimum (H := toy)
           [pt 1 1; pt 2 1; pt 3 2; pt 4 2; pt 5 3; pt 6 3] 2 20 0%nat 4%nat
           2%Z (BFin 0) (Fitted (H := toy) 2%Z)).
  - reflexivity.
  - simpl. lia.
Defined.

(** The run of the witness above: counts 2 and 3 tie on the least BIC, and
    the lower one is returned. *)
Example nb_clust_with_bic_tie :
  @fit_candidates toy [pt 1 1; pt 2 1; pt 3 2; pt 4 2; pt 5 3; pt 6 3]
    (range 2 (Z.min 20 6)) 0%nat
  = Ok ([(2%Z, 0%Q, 2%Z); (3%Z, 0%Q, 3%Z); (4%Z, 1%Q, 4%Z); (5%Z, 1%Q, 5%Z)], 4%nat)
  ∧ @nb_clust_with_bic_ toy [pt 1 1; pt 2 1; pt 3 2; pt 4 2; pt 5 3; pt 6 3] 2 20 0%nat
    = Ok (2%Z, BFin 0, Fitted (H := toy) 2%Z, 4%nat).
Proof. split; reflexivity. Qed.

(* ================================================================= *)
(** ** Boolean masks and positions *)

Lemma mask_select_map {A B : Type} (f : A → B) (mask : list bool) :
  ∀ xs, mask_select mask (map f xs) = map f (mask_select mask xs).
Proof.
  induction mask as [|b mask IH]; intros [|x xs]; simpl; try reflexivity.
  destruct b; simpl; now rewrite IH.
Qed.

Lemma mask_select_length_le {A : Type} (mask : list bool) :
  ∀ xs : list A, length (mask_select mask xs) ≤ length xs.
Proof.
  induction mask as [|b mask IH]; intros [|x xs]; simpl; try lia.
  specialize (IH xs). destruct b; simpl; lia.
Qed.

(** The rows a mask keeps and the rows its negation keeps add up. *)
Lemma mask_select_length_split {A : Type} (mask : list bool) :
  ∀ xs : list A, length mask = length xs →
    length (mask_select mask xs) + length (mask_select (logical_not mask) xs)
    = length xs.
Proof.
  unfold logical_not.
  induction mask as [|b mask IH]; intros [|x xs]; simpl; try lia.
  intros [= Hlen]. specialize (IH xs Hlen).
  destruct b; simpl; lia.
Qed.

(** The length of a selection depends on the mask alone. *)
Lemma mask_select_length_same {A B : Type} (mask : list bool) :
  ∀ (xs : list A) (ys : list B), length xs = length ys →
    length (mask_select mask xs) = length (mask_select mask ys).
Proof.
  induction mask as [|b mask IH]; intros [|x xs] [|y ys]; simpl;
    try reflexivity; try discriminate.
  intros [= Hlen]. specialize (IH xs ys Hlen). destruct b; simpl; lia.
Qed.

Lemma map_nth_seq {A : Type} (d : A) (xs : list A) :
  map (fun p => nth p xs d) (seq 0 (length xs)) = xs.
Proof.
  induction xs as [|x xs IH]; simpl; [reflexivity|].
  f_equal. rewrite <- seq_shift, map_map. exact IH.
Qed.

(** Selecting by a mask is taking the entries at the positions it selects. *)
Lemma mask_select_take {A : Type} (d : A) (mask : list bool) (xs : list A) :
  length mask = length xs →
  mask_select mask xs = np_take d (mask_positions mask) xs.
Proof.
  intros Hlen. unfold np_take, mask_positions.
  rewrite <- mask_select_map, Hlen, map_nth_seq. reflexivity.
Qed.

(** A position is selected exactly when the mask is true there. *)
Lemma mask_select_seq_In (mask : list bool) :
  ∀ lo p, In p (mask_select mask (seq lo (length mask)))
          ↔ lo ≤ p < lo + length mask ∧ nth (p - lo) mask false = true.
Proof.
  induction mask as [|b mask IH]; simpl; intros lo p.
  - split; [intros [] | lia].
  - destruct b; simpl; rewrite ?IH.
    + split.
      * intros [<- | [Hp Hnth]].
        -- rewrite Nat.sub_diag. split; [lia | reflexivity].
        -- split; [lia|]. replace (p - lo) with (S (p - S lo)) by lia. exact Hnth.
      * intros [Hp Hnth]. destruct (decide (lo = p)) as [->|Hne]; [auto|].
        right. split; [lia|].
        replace (p - lo) with (S (p - S lo)) in Hnth by lia. exact Hnth.
    + split.
      * intros [Hp Hnth]. split; [lia|].
        replace (p - lo) with (S (p - S lo)) by lia. exact Hnth.
      * intros [Hp Hnth]. destruct (decide (lo = p)) as [->|Hne].
        -- rewrite Nat.sub_diag in Hnth. discriminate.
        -- split; [lia|].
           replace (p - lo) with (S (p - S lo)) in Hnth by lia. exact Hnth.
Qed.

Lemma mask_positions_In (mask : list bool) (p : nat) :
  In p (mask_positions mask) ↔ p < length mask ∧ nth p mask false = true.
Proof.
  unfold mask_positions. rewrite mask_select_seq_In, Nat.sub_0_r.
  split; intros [? ?]; split; auto; lia.
Qed.

Lemma logical_not_nth (mask : list bool) (p : nat) :
  p < length mask → nth p (logical_not mask) false = negb (nth p mask false).
Proof.
  intros Hp. unfold logical_not.
  rewrite (nth_indep _ false (negb false)) by (rewrite length_map; exact Hp).
  apply map_nth.
Qed.

Lemma logical_not_length (mask : list bool) : length (logical_not mask) = length mask.
Proof. apply length_map. Qed.

(** The positions a mask selects and those its negation selects make up
    all the positions. *)
Lemma mask_select_split_perm {A : Type} (mask : list bool) :
  ∀ xs : list A, length mask = length xs →
    Permutation (mask_select (logical_not mask) xs ++ mask_select mask xs) xs.
Proof.
  unfold logical_not.
  induction mask as [|b mask IH]; intros [|x xs]; simpl; try discriminate;
    try (intros; apply perm_nil).
  intros [= Hlen]. specialize (IH xs Hlen).
  destruct b; simpl.
  - apply Permutation_sym, Permutation_cons_app, Permutation_sym, IH.
  - apply perm_skip, IH.
Qed.

Lemma mask_positions_split_perm (mask : list bool) :
  Permutation (mask_positions (logical_not mask) ++ mask_positions mask)
              (seq 0 (length mask)).
Proof.
  unfold mask_positions. rewrite logical_not_length.
  apply mask_select_split_perm. now rewrite length_seq.
Qed.

Lemma mask_positions_length {A : Type} (mask : list bool) (xs : list A) :
  length mask = length xs →
  length (mask_positions mask) = length (mask_select mask xs).
Proof.
  intros Hlen. unfold mask_positions.
  apply mask_select_length_same. now rewrite length_seq.
Qed.

(* ================================================================= *)
(** ** Frames under a mask *)

Lemma assoc_map_snd {A B : Type} (f : A → B) (n : string) (l : list (string * A)) :
  assoc n (map (fun nc => (fst nc, f (snd nc))) l) = f <$> assoc n l.
Proof.
  induction l as [|[k v] l IH]; simpl; [reflexivity|].
  destruct (String.eqb n k); [reflexivity | exact IH].
Qed.

Lemma assoc_In {A : Type} (n : string) (l : list (string * A)) (v : A) :
  assoc n l = Some v → In (n, v) l.
Proof.
  induction l as [|[k w] l IH]; simpl; [discriminate|].
  destruct (String.eqb n k) eqn:Hk.
  - apply String.eqb_eq in Hk as ->. intros [= ->]. auto.
  - auto.
Qed.

Lemma wf_frame_In (df : DataFrame) (n : string) (c : list cell) :
  wf_frame df = true → In (n, c) (columns df) → length c = length (index df).
Proof.
  unfold wf_frame. rewrite forallb_forall. intros Hwf Hin.
  apply Nat.eqb_eq. exact (Hwf _ Hin).
Qed.

Lemma wf_getitem_length (df : DataFrame) (n : string) (c : list cell) :
  wf_frame df = true → getitem df n = Ok c → length c = length (index df).
Proof.
  intros Hwf. unfold getitem. destruct (assoc n (columns df)) eqn:Ha; [|discriminate].
  intros [= <-]. eapply wf_frame_In; eauto using assoc_In.
Qed.

Lemma wf_getattr_length (df : DataFrame) (n : string) (c : list cell) :
  wf_frame df = true → getattr df n = Ok c → length c = length (index df).
Proof.
  intros Hwf. unfold getattr. destruct (assoc n (columns df)) eqn:Ha; [|discriminate].
  intros [= <-]. eapply wf_frame_In; eauto using assoc_In.
Qed.

Lemma wf_rmap_getitem_length (df : DataFrame) (ns : list string) :
  wf_frame df = true →
  ∀ cols, rmap (getitem df) ns = Ok cols →
          ∀ c, In c cols → length c = length (index df).
Proof.
  intros Hwf. induction ns as [|n ns IH]; simpl; intros cols Hcols c Hin.
  - injection Hcols as <-. destruct Hin.
  - apply rbind_Ok in Hcols as (c0 & Hc0 & Hcols).
    apply rbind_Ok in Hcols as (cs & Hcs & Hcols). injection Hcols as <-.
    destruct Hin as [<- | Hin]; [eapply wf_getitem_length | eapply IH]; eauto.
Qed.

Lemma getitem_df_mask (df : DataFrame) (mask : list bool) (n : string) :
  getitem (df_mask df mask) n = (c ← getitem df n; Ok (mask_select mask c)).
Proof.
  unfold getitem, df_mask. simpl. rewrite assoc_map_snd.
  destruct (assoc n (columns df)); reflexivity.
Qed.

Lemma rmap_getitem_df_mask (df : DataFrame) (mask : list bool) (ns : list string) :
  rmap (getitem (df_mask df mask)) ns
  = (cols ← rmap (getitem df) ns; Ok (map (mask_select mask) cols)).
Proof.
  induction ns as [|n ns IH]; simpl; [reflexivity|].
  rewrite getitem_df_mask, IH.
  destruct (getitem df n); simpl; [|reflexivity].
  destruct (rmap (getitem df) ns); reflexivity.
Qed.

Lemma np_take_nth {A : Type} (d d' : A) (ps : list nat) (xs : list A) (p : nat) :
  p < length ps → nth p (np_take d ps xs) d' = nth (nth p ps 0) xs d.
Proof.
  intros Hp. unfold np_take.
  rewrite (nth_indep _ d' (nth 0 xs d)) by (rewrite length_map; exact Hp).
  apply (map_nth (fun q => nth q xs d)).
Qed.

Lemma np_take_rows_of (n : nat) (cols : list (list cell)) (ps : list nat) :
  (∀ p, In p ps → p < n) →
  np_take [] ps (rows_of n cols) = map (row_at cols) ps.
Proof.
  intros Hps. unfold np_take, rows_of. apply map_ext_in. intros p Hp.
  fold (row_at cols).
  rewrite (nth_indep _ [] (row_at cols 0)) by (rewrite length_map, length_seq; auto).
  rewrite (map_nth (row_at cols)), seq_nth by auto. reflexivity.
Qed.

(** The rows of a masked frame are the rows of the frame at the positions
    the mask selects. *)
Lemma rows_of_mask (mask : list bool) (cols : list (list cell)) :
  (∀ c, In c cols → length c = length mask) →
  rows_of (length (mask_positions mask)) (map (mask_select mask) cols)
  = np_take [] (mask_positions mask) (rows_of (length mask) cols).
Proof.
  intros Hcols.
  rewrite np_take_rows_of by (intros p Hp; apply mask_positions_In in Hp; tauto).
  rewrite <- (map_nth_seq 0 (mask_positions mask)) at 2.
  unfold rows_of. rewrite map_map. apply map_ext_in. intros p Hp.
  apply in_seq in Hp. unfold row_at. rewrite map_map.
  apply map_ext_in. intros c Hc.
  rewrite (mask_select_take CNaN) by (symmetry; auto).
  rewrite np_take_nth by lia. reflexivity.
Qed.

Lemma values_df_mask (df : DataFrame) (mask : list bool) (ns : list string) :
  wf_frame df = true → length mask = length (index df) →
  values (df_mask df mask) ns
  = (rows ← values df ns; Ok (np_take [] (mask_positions mask) rows)).
Proof.
  intros Hwf Hlen. unfold values. rewrite rmap_getitem_df_mask.
  destruct (rmap (getitem df) ns) as [cols|e] eqn:Hcols; simpl; [|reflexivity].
  f_equal. rewrite <- Hlen.
  replace (length (mask_select mask (index df))) with (length (mask_positions mask))
    by (apply mask_positions_length; exact Hlen).
  apply rows_of_mask. intros c Hc. rewrite Hlen.
  eapply wf_rmap_getitem_length; eauto.
Qed.

Lemma isin_length (col : list cell) (ids : list Z) : length (isin col ids) = length col.
Proof. apply length_map. Qed.

Lemma isin_nth (col : list cell) (ids : list Z) (p : nat) :
  p < length col →
  nth p (isin col ids) false = existsb (cell_eq_int (nth p col CNaN)) ids.
Proof.
  intros Hp. unfold isin.
  rewrite (nth_indep _ false (existsb (cell_eq_int CNaN) ids))
    by (rewrite length_map; exact Hp).
  apply (map_nth (fun c => existsb (cell_eq_int c) ids)).
Qed.

Lemma np_take_length {A : Type} (d : A) (ps : list nat) (xs : list A) :
  length (np_take d ps xs) = length ps.
Proof. apply length_map. Qed.

(* ================================================================= *)
(** ** train_test_split: the claims *)

Lemma isin_int (z : Z) (ids : list Z) :
  existsb (cell_eq_int (CInt z)) ids = true ↔ In z ids.
Proof.
  rewrite existsb_exists. simpl. split.
  - intros (x & Hin & Heq). apply Z.eqb_eq in Heq as ->. exact Hin.
  - intros Hin. exists z. split; [exact Hin | apply Z.eqb_refl].
Qed.

(** What a successful call computed, line by line. *)
Lemma train_test_split_Ok data_original cv_index_i i train test data_ :
  train_test_split data_original cv_index_i i = Ok (train, test, data_) →
  ∃ id_traj,
    getattr data_original "id_traj" = Ok id_traj
    ∧ values (df_mask data_original (logical_not (isin id_traj cv_index_i)))
             ["lons"; "lats"; "id_traj"]%string = Ok train
    ∧ values (df_mask data_original (isin id_traj cv_index_i))
             ["lons"; "lats"]%string = Ok test
    ∧ data_ = setitem_scalar
                (new_frame (mask_select (isin id_traj cv_index_i) (index data_original)))
                "cv" (CInt i).
Proof.
  unfold train_test_split. intros Hrun.
  apply rbind_Ok in Hrun as (id_traj & Hid & Hrun).
  apply rbind_Ok in Hrun as (tr & Htr & Hrun).
  apply rbind_Ok in Hrun as (te & Hte & Hrun).
  injection Hrun as <- <- <-. exists id_traj. auto.
Qed.

(** The function returns whenever the table has the three columns it reads. *)
Lemma train_test_split_total data_original cv_index_i i a b c :
  getitem data_original "lons" = Ok a →
  getitem data_original "lats" = Ok b →
  getitem data_original "id_traj" = Ok c →
  ∃ out, train_test_split data_original cv_index_i i = Ok out.
Proof.
  intros Ha Hb Hc.
  assert (Hid : getattr data_original "id_traj" = Ok c).
  { unfold getattr. unfold getitem in Hc.
    destruct (assoc "id_traj" (columns data_original)); [exact Hc | discriminate]. }
  unfold train_test_split. rewrite Hid. cbn [mbind result_bind].
  unfold values. rewrite !rmap_getitem_df_mask. cbn [rmap].
  rewrite Ha, Hb, Hc. cbn [mbind result_bind]. eauto.
Qed.

(** C5: [train_test_split] sends a row to the test set exactly when its
    [id_traj] is in the held-out list and to the train set otherwise: the
    test array is made of the rows of the table at the held-out positions,
    the train array of the rows at the other positions; no position is on
    both sides, together they are all the positions, and the sizes add up
    to the size of the table.  When the row labels are unique, no label is
    on both sides either. *)
Theorem train_test_split_partition
    (data_original : DataFrame) (cv_index_i : list Z) (i : Z)
    (train test : ndarray) (data_ : DataFrame) :
  wf_frame data_original = true →
  train_test_split data_original cv_index_i i = Ok (train, test, data_) →
  ∃ id_traj all3 all2,
    getattr data_original "id_traj" = Ok id_traj
    ∧ values data_original ["lons"; "lats"; "id_traj"]%string = Ok all3
    ∧ values data_original ["lons"; "lats"]%string = Ok all2
    ∧ let test_rows := mask_positions (isin id_traj cv_index_i) in
      let train_rows := mask_positions (logical_not (isin id_traj cv_index_i)) in
      test = np_take [] test_rows all2
      ∧ train = np_take [] train_rows all3
      ∧ (∀ p, p < length (index data_original) →
           (In p test_rows
            ↔ existsb (cell_eq_int (nth p id_traj CNaN)) cv_index_i = true)
           ∧ (In p train_rows
              ↔ existsb (cell_eq_int (nth p id_traj CNaN)) cv_index_i = false))
      ∧ (∀ p, ¬ (In p train_rows ∧ In p test_rows))
      ∧ Permutation (train_rows ++ test_rows) (seq 0 (length (index data_original)))
      ∧ length train + length test = length (index data_original)
      ∧ (NoDup (index data_original) →
         ∀ l, ¬ (In l (np_take 0%Z train_rows (index data_original))
                 ∧ In l (index data_))).
Proof.
  intros Hwf Hrun.
  apply train_test_split_Ok in Hrun as (id_traj & Hid & Htrain & Htest & ->).
  pose proof (wf_getattr_length _ _ _ Hwf Hid) as Hlen.
  assert (Hmask : length (isin id_traj cv_index_i) = length (index data_original))
    by (now rewrite isin_length).
  rewrite values_df_mask in Htrain, Htest
    by (rewrite ?logical_not_length; assumption).
  apply rbind_Ok in Htrain as (all3 & Hall3 & [= <-]).
  apply rbind_Ok in Htest as (all2 & Hall2 & [= <-]).
  exists id_traj, all3, all2. repeat split; try assumption.
  - intros Hin. apply mask_positions_In in Hin as [Hp Hnth].
    rewrite isin_nth in Hnth by lia. exact Hnth.
  - intros Hin. apply mask_positions_In. split; [lia|].
    rewrite isin_nth by lia. exact Hin.
  - intros Hin. apply mask_positions_In in Hin as [Hp Hnth].
    rewrite logical_not_length in Hp.
    rewrite logical_not_nth, isin_nth in Hnth by lia.
    now apply negb_true_iff in Hnth.
  - intros Hin. apply mask_positions_In. rewrite logical_not_length.
    split; [lia|]. rewrite logical_not_nth, isin_nth by lia.
    now apply negb_true_iff.
  - intros p [Htr Hte].
    apply mask_positions_In in Htr as [Hp Htr], Hte as [_ Hte].
    rewrite logical_not_length in Hp. rewrite logical_not_nth in Htr by lia.
    rewrite Hte in Htr. discriminate.
  - rewrite <- Hmask. apply mask_positions_split_perm.
  - rewrite !np_take_length, <- Hmask, Nat.add_comm.
    rewrite (mask_positions_length (isin id_traj cv_index_i)
               (isin id_traj cv_index_i)) by reflexivity.
    rewrite (mask_positions_length (logical_not (isin id_traj cv_index_i))
               (isin id_traj cv_index_i)) by apply logical_not_length.
    apply mask_select_length_split. reflexivity.
  - intros Hnodup l [Htr Hte]. simpl in Hte.
    rewrite (mask_select_take 0%Z) in Hte by assumption.
    unfold np_take in Htr, Hte.
    apply in_map_iff in Htr as (p & Hp & Htr), Hte as (q & Hq & Hte).
    apply mask_positions_In in Htr as [Hplt Htr], Hte as [Hqlt Hte].
    rewrite logical_not_length in Hplt.
    assert (p = q) as ->.
    { apply (proj1 (NoDup_nth (index data_original) 0%Z)
               (proj1 (NoDup_ListNoDup _) Hnodup)); lia. }
    rewrite logical_not_nth in Htr by lia. rewrite Hte in Htr. discriminate.
Qed.

Lemma train_test_split_partition_witness :
  ∃ train test data_,
    train_test_split ex_points [0; 2]%Z 0 = Ok (train, test, data_)
    ∧ length train + length test = length (index ex_points).
Proof.
  do 3 eexists. split; [vm_compute; reflexivity|].
  destruct (train_test_split_partition ex_points [0; 2]%Z 0 _ _ _
              eq_refl eq_refl)
    as (id_traj & all3 & all2 & _ & _ & _ & _ & _ & _ & _ & _ & Hsize & _).
  exact Hsize.
Defined.

(** The test frame of a call that returns. *)
Lemma train_test_split_frame
    (data_original : DataFrame) (cv_index_i : list Z) (i : Z)
    (train test : ndarray) (data_ : DataFrame) :
  wf_frame data_original = true →
  train_test_split data_original cv_index_i i = Ok (train, test, data_) →
  ∃ id_traj,
    getattr data_original "id_traj" = Ok id_traj
    ∧ index data_ = mask_select (isin id_traj cv_index_i) (index data_original)
    ∧ columns data_ = [("cv"%string, replicate (length (index data_)) (CInt i))]
    ∧ length (index data_) = length test.
Proof.
  intros Hwf Hrun.
  apply train_test_split_Ok in Hrun as (id_traj & Hid & _ & Htest & ->).
  pose proof (wf_getattr_length _ _ _ Hwf Hid) as Hlen.
  assert (Hmask : length (isin id_traj cv_index_i) = length (index data_original))
    by (now rewrite isin_length).
  exists id_traj. simpl. repeat split; try assumption.
  rewrite values_df_mask in Htest by assumption.
  apply rbind_Ok in Htest as (all2 & _ & [= <-]).
  rewrite np_take_length. symmetry. apply mask_positions_length. assumption.
Qed.

(** C6: the test frame that [train_test_split] returns has for row labels
    the labels of the held-out rows of the table, in the order of the table,
    and a single column, "cv", which holds the fold number [i] on every
    row. *)
Theorem train_test_split_test_frame
    (data_original : DataFrame) (cv_index_i : list Z) (i : Z)
    (train test : ndarray) (data_ : DataFrame) :
  wf_frame data_original = true →
  train_test_split data_original cv_index_i i = Ok (train, test, data_) →
  ∃ id_traj,
    getattr data_original "id_traj" = Ok id_traj
    ∧ index data_
      = np_take 0%Z (mask_positions (isin id_traj cv_index_i)) (index data_original)
    ∧ columns data_ = [("cv"%string, replicate (length (index data_)) (CInt i))]
    ∧ length (index data_) = length test.
Proof.
  intros Hwf Hrun.
  destruct (train_test_split_frame _ _ _ _ _ _ Hwf Hrun)
    as (id_traj & Hid & Hidx & Hcols & Hlen).
  exists id_traj. repeat split; try assumption.
  rewrite Hidx. apply mask_select_take.
  rewrite isin_length. eapply wf_getattr_length; eassumption.
Qed.

Lemma train_test_split_test_frame_witness :
  ∃ id_traj,
    getattr ex_points "id_traj" = Ok id_traj
    ∧ [100; 102; 104; 106; 108; 110]%Z
      = np_take 0%Z (mask_positions (isin id_traj [0; 2]%Z)) (index ex_points)
    ∧ [("cv"%string, replicate 6 (CInt 0))]
      = [("cv"%string, replicate (length [100; 102; 104; 106; 108; 110]%Z) (CInt 0))]
    ∧ length [100; 102; 104; 106; 108; 110]%Z
      = length [[Some 1%Q; Some 0%Q]; [ Some 3%Q; Some 1%Q]; [Some 5%Q; Some 0%Q];
                [Some 7%Q; Some 1%Q]; [Some 9%Q; Some 0%Q]; [Some 11%Q; Some 1%Q]].
Proof.
  apply (train_test_split_test_frame ex_points [0; 2]%Z 0
           [[Some 2%Q; Some 0%Q; Some 1%Q]; [Some 4%Q; Some 1%Q; Some 3%Q];
            [Some 6%Q; Some 0%Q; Some 1%Q]; [Some 8%Q; Some 1%Q; Some 3%Q];
            [Some 10%Q; Some 0%Q; Some 1%Q]; [Some 12%Q; Some 1%Q; Some 3%Q]]
           [[Some 1%Q; Some 0%Q]; [ Some 3%Q; Some 1%Q]; [Some 5%Q; Some 0%Q];
            [Some 7%Q; Some 1%Q]; [Some 9%Q; Some 0%Q]; [Some 11%Q; Some 1%Q]]
           {| index := [100; 102; 104; 106; 108; 110]%Z;
              columns := [("cv"%string, replicate 6 (CInt 0))] |}).
  - reflexivity.
  - reflexivity.
Defined.

(* ================================================================= *)
(** ** Group keys *)

Lemma key_eqb_true (a b : cell) :
  key_eqb a b = true
  ↔ ∃ x y, cell_float a = Some x ∧ cell_float b = Some y ∧ (x == y)%Q.
Proof.
  unfold key_eqb. destruct (cell_float a) as [x|], (cell_float b) as [y|].
  - rewrite Qeq_bool_iff. split; [eauto|]. intros (x' & y' & [= <-] & [= <-] & Heq).
    exact Heq.
  - split; [discriminate | intros (? & ? & _ & [=] & _)].
  - split; [discriminate | intros (? & ? & [=] & _)].
  - split; [discriminate | intros (? & ? & [=] & _)].
Qed.

Lemma key_eqb_refl (c : cell) : isna c = false → key_eqb c c = true.
Proof.
  intros Hc. apply key_eqb_true. destruct c as [z|q|]; simpl; try discriminate.
  - exists (inject_Z z), (inject_Z z). split; [|split]; reflexivity.
  - exists q, q. split; [|split]; reflexivity.
Qed.

Lemma key_eqb_sym (a b : cell) : key_eqb a b = true → key_eqb b a = true.
Proof.
  rewrite !key_eqb_true. intros (x & y & Ha & Hb & Heq).
  exists y, x. repeat split; try assumption. now symmetry.
Qed.

Lemma key_eqb_trans (a b c : cell) :
  key_eqb a b = true → key_eqb b c = true → key_eqb a c = true.
Proof.
  rewrite !key_eqb_true. intros (x & y & Ha & Hb & Hxy) (y' & z & Hb' & Hc & Hyz).
  rewrite Hb in Hb'. injection Hb' as <-.
  exists x, z. repeat split; try assumption. now rewrite Hxy.
Qed.

Lemma key_eqb_valid (a b : cell) : key_eqb a b = true → isna a = false ∧ isna b = false.
Proof.
  rewrite key_eqb_true. intros (x & y & Ha & Hb & _).
  destruct a, b; simpl in *; try discriminate; auto.
Qed.

(** Equal keys have the same group. *)
Lemma key_eqb_congr (g a b : cell) :
  key_eqb g a = true → key_eqb g b = key_eqb a b.
Proof.
  intros Hga. destruct (key_eqb a b) eqn:Hab.
  - eapply key_eqb_trans; eassumption.
  - apply not_true_is_false. intros Hgb. apply key_eqb_sym in Hga.
    rewrite (key_eqb_trans _ _ _ Hga Hgb) in Hab. discriminate.
Qed.

Lemma distinct_keys_In (keys : list cell) (g : cell) :
  In g (distinct_keys keys) → In g keys ∧ isna g = false.
Proof.
  induction keys as [|c keys IH]; simpl; [intros []|].
  destruct (isna c) eqn:Hc.
  - intros Hin. destruct (IH Hin). auto.
  - intros [<- | Hin]; [auto|].
    apply filter_In in Hin as [Hin _]. destruct (IH Hin). auto.
Qed.

(** Every key that is not NaN has its group. *)
Lemma distinct_keys_cover (keys : list cell) (c : cell) :
  In c keys → isna c = false →
  ∃ g, In g (distinct_keys keys) ∧ key_eqb g c = true.
Proof.
  intros Hin Hc. induction keys as [|k keys IH]; simpl; [destruct Hin|].
  destruct (isna k) eqn:Hk.
  - destruct Hin as [-> | Hin]; [congruence | auto].
  - destruct Hin as [-> | Hin].
    + exists c. split; [left; reflexivity | now apply key_eqb_refl].
    + destruct (IH Hin) as (g & Hg & Hgc).
      destruct (key_eqb k g) eqn:Hkg.
      * exists k. split; [left; reflexivity | eapply key_eqb_trans; eassumption].
      * exists g. split; [|assumption]. right. apply filter_In.
        split; [assumption | now rewrite Hkg].
Qed.

Lemma insert_key_perm (k : cell) (l : list cell) : Permutation (insert_key k l) (k :: l).
Proof.
  induction l as [|x l IH]; simpl; [reflexivity|].
  destruct (key_leb k x); [reflexivity|].
  rewrite IH. apply perm_swap.
Qed.

Lemma sort_keys_perm (l : list cell) : Permutation (sort_keys l) l.
Proof.
  induction l as [|x l IH]; simpl; [reflexivity|].
  rewrite insert_key_perm. now apply perm_skip.
Qed.

Lemma group_keys_In (keys : list cell) (g : cell) :
  In g (group_keys keys) → In g keys ∧ isna g = false.
Proof.
  intros Hin. apply distinct_keys_In.
  eapply Permutation_in; [apply sort_keys_perm | exact Hin].
Qed.

Lemma group_keys_cover (keys : list cell) (c : cell) :
  In c keys → isna c = false →
  ∃ g, In g (group_keys keys) ∧ key_eqb g c = true.
Proof.
  intros Hin Hc. destruct (distinct_keys_cover keys c Hin Hc) as (g & Hg & Hgc).
  exists g. split; [|assumption].
  eapply Permutation_in; [symmetry; apply sort_keys_perm | exact Hg].
Qed.

(** The group of a key is the group of any row that has this key. *)
Lemma group_positions_congr (keys : list cell) (g c : cell) :
  key_eqb g c = true → group_positions keys g = group_positions keys c.
Proof.
  intros Hgc. unfold group_positions. apply filter_ext.
  intros p. now apply key_eqb_congr.
Qed.

Lemma group_positions_In (keys : list cell) (g : cell) (p : nat) :
  In p (group_positions keys g)
  ↔ p < length keys ∧ key_eqb g (nth p keys CNaN) = true.
Proof.
  unfold group_positions. rewrite filter_In, in_seq. split; intros [? ?]; split; auto; lia.
Qed.

Lemma kept_positions_In (keys : list cell) (p : nat) :
  In p (kept_positions keys) ↔ p < length keys ∧ isna (nth p keys CNaN) = false.
Proof.
  unfold kept_positions. rewrite filter_In, in_seq, negb_true_iff.
  split; intros [? ?]; split; auto; lia.
Qed.

(* ================================================================= *)
(** ** Running sums *)

Lemma cumsum_from_length (col : list cell) :
  ∀ acc, length (cumsum_from acc col) = length col.
Proof.
  induction col as [|c col IH]; simpl; intros acc; [reflexivity|].
  destruct (isna c); simpl; now rewrite IH.
Qed.

Lemma cumsum_length (col : list cell) : length (cumsum col) = length col.
Proof. apply cumsum_from_length. Qed.

(** Entry [r] of a cumulative sum: missing where the cell is missing, else
    the sum of the cells up to [r] that are not missing. *)
Lemma cumsum_from_nth (col : list cell) :
  ∀ acc r, r < length col →
    nth r (cumsum_from acc col) CNaN
    = if isna (nth r col CNaN) then CNaN
      else total_from acc (firstn (S r) col).
Proof.
  induction col as [|c col IH]; simpl; intros acc r Hr; [lia|].
  destruct r as [|r].
  - destruct (isna c) eqn:Hc; simpl; [reflexivity|].
    unfold total_from, valid. simpl. rewrite Hc. simpl. reflexivity.
  - destruct (isna c) eqn:Hc; simpl; rewrite IH by lia;
      destruct (isna (nth r col CNaN)); try reflexivity.
    + unfold total_from, valid. cbn [firstn List.filter]. rewrite Hc. reflexivity.
    + unfold total_from, valid. cbn [firstn List.filter]. rewrite Hc. simpl.
      destruct acc; reflexivity.
Qed.

Lemma cumsum_nth (col : list cell) (r : nat) :
  r < length col →
  nth r (cumsum col) CNaN
  = if isna (nth r col CNaN) then CNaN else sum_cells (valid (firstn (S r) col)).
Proof. intros Hr. unfold cumsum. now rewrite cumsum_from_nth. Qed.

(** A filter of consecutive positions, cut after its entry [p]: the filter
    of the positions up to [p]. *)
Lemma firstn_filter_seq (f : nat → bool) (n : nat) :
  ∀ lo r p,
    r < length (List.filter f (seq lo n)) →
    nth r (List.filter f (seq lo n)) 0 = p →
    lo ≤ p
    ∧ firstn (S r) (List.filter f (seq lo n)) = List.filter f (seq lo (S p - lo)).
Proof.
  induction n as [|n IH]; simpl; intros lo r p Hr Hp; [lia|].
  destruct (f lo) eqn:Hf.
  - destruct r as [|r]; simpl in *.
    + subst p. split; [lia|]. rewrite firstn_0.
      replace (S lo - lo) with 1 by lia. simpl. now rewrite Hf.
    + destruct (IH (S lo) r p ltac:(lia) Hp) as [Hle ->]. split; [lia|].
      replace (S p - lo) with (S (S p - S lo)) by lia. simpl. now rewrite Hf.
  - destruct (IH (S lo) r p Hr Hp) as [Hle ->]. split; [lia|].
    replace (S p - lo) with (S (S p - S lo)) by lia. simpl. now rewrite Hf.
Qed.

(* ================================================================= *)
(** ** Stacks of groups and reindexing *)

(** Two stacks cut in the same pieces: an entry of one and the entry of the
    other at the same place come from the same piece, at the same rank. *)
Lemma flat_map_nth2 {G A B : Type} (f : G → list A) (h : G → list B)
    (d1 : A) (d2 : B) (gs : list G) :
  (∀ g, In g gs → length (f g) = length (h g)) →
  ∀ q, q < length (flat_map f gs) →
    ∃ g r, In g gs ∧ r < length (f g)
           ∧ nth q (flat_map f gs) d1 = nth r (f g) d1
           ∧ nth q (flat_map h gs) d2 = nth r (h g) d2.
Proof.
  induction gs as [|g gs IH]; simpl; intros Hlen q Hq; [lia|].
  rewrite length_app in Hq.
  destruct (Nat.lt_ge_cases q (length (f g))) as [Hlt|Hge].
  - exists g, q. rewrite !app_nth1 by (rewrite <- ?Hlen; auto). auto.
  - destruct (IH (fun g' Hg' => Hlen g' (or_intror Hg')) (q - length (f g))
                ltac:(lia)) as (g' & r & Hg' & Hr & Hf & Hh).
    exists g', r. rewrite !app_nth2 by (rewrite <- ?Hlen; auto).
    rewrite <- (Hlen g) by auto. auto.
Qed.

Lemma find_pos_In (idx : list Z) (l : Z) :
  In l idx → ∃ q, find_pos idx l = Some q ∧ q < length idx ∧ nth q idx 0%Z = l.
Proof.
  induction idx as [|x idx IH]; simpl; [intros []|].
  intros Hin. destruct (Z.eqb x l) eqn:Hx.
  - apply Z.eqb_eq in Hx. exists 0. repeat split; [lia | assumption].
  - destruct Hin as [-> | Hin]; [rewrite Z.eqb_refl in Hx; discriminate|].
    destruct (IH Hin) as (q & -> & Hq & Hnth).
    exists (S q). repeat split; [lia | assumption].
Qed.

Lemma find_pos_not_In (idx : list Z) (l : Z) : ¬ In l idx → find_pos idx l = None.
Proof.
  induction idx as [|x idx IH]; simpl; [reflexivity|].
  intros Hnin. destruct (Z.eqb x l) eqn:Hx.
  - apply Z.eqb_eq in Hx. tauto.
  - rewrite IH by tauto. reflexivity.
Qed.

(** Where [reindex] finds a label that is in the index. *)
Lemma reindexer_found (idx target : list Z) (ps : list (option nat)) :
  reindexer idx target = Ok ps →
  length ps = length target
  ∧ ∀ j, j < length target → In (nth j target 0%Z) idx →
      ∃ q, nth j ps None = Some q ∧ q < length idx ∧ nth q idx 0%Z = nth j target 0%Z.
Proof.
  unfold reindexer. case_bool_decide as Heq.
  - intros [= <-]. subst target. rewrite length_map, length_seq. split; [reflexivity|].
    intros j Hj _. exists j.
    rewrite (nth_indep _ None (Some 0)) by (rewrite length_map, length_seq; exact Hj).
    rewrite (map_nth Some), seq_nth by exact Hj. auto.
  - case_bool_decide as Hnd; [|discriminate].
    intros [= <-]. rewrite length_map. split; [reflexivity|].
    intros j Hj Hin.
    rewrite (nth_indep _ None (find_pos idx 0%Z)) by (rewrite length_map; exact Hj).
    rewrite (map_nth (find_pos idx)). apply find_pos_In. exact Hin.
Qed.

Lemma take_opt_nth (col : list cell) (ps : list (option nat)) (j : nat) :
  nth j (take_opt col ps) CNaN
  = match nth j ps None with
    | Some q => nth q col CNaN
    | None => CNaN
    end.
Proof.
  exact (map_nth (fun o : option nat =>
                    match o with
                    | Some p => nth p col CNaN
                    | None => CNaN
                    end) ps None j).
Qed.

Lemma take_opt_length (col : list cell) (ps : list (option nat)) :
  length (take_opt col ps) = length ps.
Proof. apply length_map. Qed.

(** The selected columns are those of the table, under their names. *)
Lemma rmap_selected (data : DataFrame) (cols : list string) :
  ∀ selected,
    rmap (fun n => c ← getitem data n; Ok (n, c)) cols = Ok selected →
    map fst selected = cols
    ∧ ∀ name, In name cols →
        ∃ c, getitem data name = Ok c ∧ assoc name selected = Some c.
Proof.
  induction cols as [|n cols IH]; simpl; intros selected Hsel.
  - injection Hsel as <-. split; [reflexivity | intros ? []].
  - apply rbind_Ok in Hsel as ([n' c] & Hnc & Hsel).
    apply rbind_Ok in Hnc as (c' & Hc & [= <- <-]).
    apply rbind_Ok in Hsel as (rest & Hrest & [= <-]).
    destruct (IH rest Hrest) as [Hnames Hassoc]. simpl. split; [now rewrite Hnames|].
    intros name Hin. destruct (String.eqb name n) eqn:Hn.
    + apply String.eqb_eq in Hn as ->. eauto.
    + destruct Hin as [-> | Hin]; [rewrite String.eqb_refl in Hn; discriminate|].
      auto.
Qed.

(* ================================================================= *)
(** ** create_cumsum_data: the running sum of a trajectory *)

Lemma firstn_np_take {A : Type} (d : A) (n : nat) (ps : list nat) (l : list A) :
  firstn n (np_take d ps l) = np_take d (firstn n ps) l.
Proof. unfold np_take. apply firstn_map. Qed.

(** Rank [r] of the cumulative sum of a group is the running sum at the
    row of that rank. *)
Lemma group_cumsum_nth (keys col : list cell) (g : cell) (r p : nat) :
  r < length (group_positions keys g) →
  nth r (group_positions keys g) 0 = p →
  nth r (cumsum (np_take CNaN (group_positions keys g) col)) CNaN
  = running_sum keys col p.
Proof.
  intros Hr Hp.
  assert (Hin : In p (group_positions keys g)) by (subst p; now apply nth_In).
  apply group_positions_In in Hin as [Hplt Hgp].
  rewrite cumsum_nth by (now rewrite np_take_length).
  rewrite np_take_nth, Hp by exact Hr. unfold running_sum.
  destruct (isna (nth p col CNaN)); [reflexivity|].
  rewrite firstn_np_take.
  destruct (firstn_filter_seq _ _ 0 r p Hr Hp) as [_ Hcut].
  rewrite Nat.sub_0_r in Hcut. unfold group_positions at 1. rewrite Hcut.
  unfold same_traj_upto. do 3 f_equal. apply filter_ext. intros p'.
  now apply key_eqb_congr.
Qed.

Lemma stacked_cumsum_nth (keys col : list cell) (idx : list Z)
    (ps : list (option nat)) (j : nat) :
  length keys = length idx → NoDup idx →
  reindexer
    (flat_map (fun g => np_take 0%Z g idx)
              (map (group_positions keys) (group_keys keys)))
    (np_take 0%Z (kept_positions keys) idx) = Ok ps →
  j < length (kept_positions keys) →
  nth j (take_opt
           (flat_map (fun g => cumsum (np_take CNaN g col))
                     (map (group_positions keys) (group_keys keys))) ps) CNaN
  = running_sum keys col (nth j (kept_positions keys) 0).
Proof.
  intros Hlen Hnd Hps Hj.
  set (p := nth j (kept_positions keys) 0).
  assert (Hp : In p (kept_positions keys)) by (now apply nth_In).
  apply kept_positions_In in Hp as [Hplt Hpna].
  destruct (group_keys_cover keys (nth p keys CNaN)) as (g & Hg & Hgp);
    [now apply nth_In | assumption |].
  apply reindexer_found in Hps as [Hpslen Hfound].
  rewrite np_take_length in Hpslen, Hfound.
  destruct (Hfound j Hj) as (q & Hq & Hqlt & Hqlab).
  { rewrite np_take_nth by exact Hj. fold p.
    apply in_flat_map. exists (group_positions keys g). split.
    - now apply in_map.
    - unfold np_take. apply (in_map (fun p0 => nth p0 idx 0%Z)).
      apply group_positions_In. auto. }
  rewrite take_opt_nth, Hq.
  destruct (flat_map_nth2 (fun g => np_take 0%Z g idx)
              (fun g => cumsum (np_take CNaN g col)) 0%Z CNaN
              (map (group_positions keys) (group_keys keys)))
    with (q := q) as (gp & r & Hgp' & Hr & Hlab & Hval).
  { intros gp _. now rewrite cumsum_length, !np_take_length. }
  { exact Hqlt. }
  rewrite Hval. apply in_map_iff in Hgp' as (g' & <- & Hg').
  rewrite np_take_length in Hr.
  apply group_cumsum_nth; [exact Hr|].
  rewrite np_take_nth in Hlab by exact Hr.
  rewrite Hlab in Hqlab. rewrite np_take_nth in Hqlab by exact Hj. fold p in Hqlab.
  assert (Hin' : In (nth r (group_positions keys g') 0) (group_positions keys g'))
    by (now apply nth_In).
  apply group_positions_In in Hin' as [Hlt' _].
  apply (proj1 (NoDup_nth idx 0%Z) (proj1 (NoDup_ListNoDup _) Hnd)); lia.
Qed.

Lemma groupby_apply_cumsum_Ok (data out : DataFrame) (by_ : string) (cols : list string) :
  wf_frame data = true → NoDup (index data) →
  groupby_apply_cumsum data by_ cols = Ok out →
  ∃ keys,
    getitem data by_ = Ok keys
    ∧ index out = np_take 0%Z (kept_positions keys) (index data)
    ∧ names out = cols
    ∧ ∀ name, In name cols →
        ∃ col, getitem data name = Ok col
               ∧ getitem out name
                 = Ok (map (running_sum keys col) (kept_positions keys)).
Proof.
  intros Hwf Hnd Hrun. unfold groupby_apply_cumsum in Hrun.
  apply rbind_Ok in Hrun as (keys & Hkeys & Hrun).
  apply rbind_Ok in Hrun as (selected & Hsel & Hrun).
  unfold reindex in Hrun. cbn [index columns] in Hrun.
  apply rbind_Ok in Hrun as (ps & Hps & [= <-]).
  apply rmap_selected in Hsel as [Hnames Hassoc].
  pose proof (wf_getitem_length _ _ _ Hwf Hkeys) as Hlen.
  exists keys. split; [assumption|]. split; [reflexivity|]. split.
  - unfold names. cbn [columns]. rewrite !map_map. simpl. exact Hnames.
  - intros name Hin. destruct (Hassoc name Hin) as (col & Hcol & Hsel).
    exists col. split; [assumption|].
    unfold getitem. cbn [columns].
    rewrite (assoc_map_snd (fun c => take_opt c ps)).
    rewrite (assoc_map_snd
               (fun c => flat_map (fun g => cumsum (np_take CNaN g c))
                           (map (group_positions keys) (group_keys keys)))).
    rewrite Hsel. simpl. f_equal.
    pose proof (reindexer_found _ _ _ Hps) as [Hpslen _].
    rewrite np_take_length in Hpslen.
    apply (nth_ext _ _ CNaN CNaN).
    + now rewrite take_opt_length, length_map.
    + intros j Hj. rewrite take_opt_length, Hpslen in Hj.
      rewrite (stacked_cumsum_nth keys col (index data) ps j Hlen Hnd Hps Hj).
      rewrite (nth_indep _ CNaN (running_sum keys col 0))
        by (rewrite length_map; exact Hj).
      symmetry. apply (map_nth (running_sum keys col)).
Qed.

Lemma filter_none {A : Type} (f : A → bool) (l : list A) :
  (∀ x, In x l → f x = false) → List.filter f l = [].
Proof.
  induction l as [|x l IH]; simpl; intros Hf; [reflexivity|].
  rewrite (Hf x) by auto. apply IH. auto.
Qed.

(** At the last row of a trajectory the running sum is the sum of all the
    scores of the trajectory. *)
Lemma running_sum_last (keys col : list cell) (p : nat) :
  p < length keys →
  (∀ p', p < p' < length keys →
         key_eqb (nth p keys CNaN) (nth p' keys CNaN) = false) →
  isna (nth p col CNaN) = false →
  running_sum keys col p = trajectory_total keys col (nth p keys CNaN).
Proof.
  intros Hp Hlast Hvalid. unfold running_sum, trajectory_total. rewrite Hvalid.
  do 3 f_equal. unfold same_traj_upto, group_positions.
  replace (length keys) with (S p + (length keys - S p)) by lia.
  rewrite seq_app, List.filter_app.
  rewrite (filter_none _ (seq (0 + S p) _)), app_nil_r; [reflexivity|].
  intros p' Hp'. apply in_seq in Hp'. apply Hlast. lia.
Qed.

(** What [create_cumsum_data] returns, column by column. *)
Lemma create_cumsum_data_Ok (data out : DataFrame) :
  wf_frame data = true → NoDup (index data) →
  create_cumsum_data data = Ok out →
  ∃ keys,
    getitem data "id_traj" = Ok keys
    ∧ index out = np_take 0%Z (kept_positions keys) (index data)
    ∧ names out = List.filter (String.prefix "score_") (names data)
    ∧ ∀ name, In name (names out) →
        ∃ col, getitem data name = Ok col
               ∧ getitem out name
                 = Ok (map (running_sum keys col) (kept_positions keys)).
Proof.
  intros Hwf Hnd Hrun. unfold create_cumsum_data in Hrun.
  apply rbind_Ok in Hrun as (out' & Hrun & [= ->]).
  destruct (groupby_apply_cumsum_Ok _ _ _ _ Hwf Hnd Hrun)
    as (keys & Hkeys & Hidx & Hnames & Hcols).
  exists keys. repeat split; try assumption.
  intros name Hin. apply Hcols. now rewrite <- Hnames.
Qed.

(** C8: for a table whose row labels are unique, [create_cumsum_data]
    returns the rows that have a trajectory id, in the order of the table,
    with exactly the columns whose name starts with "score_", and each value
    replaced by the running sum of its column within its [id_traj] group in
    row order; at the last row of a trajectory this running sum is the sum
    of all the scores of the trajectory. *)
Theorem create_cumsum_data_running_sum (data out : DataFrame) :
  wf_frame data = true → NoDup (index data) →
  create_cumsum_data data = Ok out →
  ∃ keys,
    getitem data "id_traj" = Ok keys
    ∧ index out = np_take 0%Z (kept_positions keys) (index data)
    ∧ names out = List.filter (String.prefix "score_") (names data)
    ∧ (∀ name, In name (names out) →
         ∃ col, getitem data name = Ok col
                ∧ getitem out name
                  = Ok (map (running_sum keys col) (kept_positions keys)))
    ∧ (∀ col p,
         p < length keys →
         (∀ p', p < p' < length keys →
                key_eqb (nth p keys CNaN) (nth p' keys CNaN) = false) →
         isna (nth p col CNaN) = false →
         running_sum keys col p = trajectory_total keys col (nth p keys CNaN)).
Proof.
  intros Hwf Hnd Hrun.
  destruct (create_cumsum_data_Ok _ _ Hwf Hnd Hrun)
    as (keys & Hkeys & Hidx & Hnames & Hcols).
  exists keys. repeat split; try assumption.
  intros col p. apply running_sum_last.
Qed.

Lemma NoDup_seqZ_10_6 : NoDup (seqZ 10 6).
Proof. apply NoDup_seqZ. Qed.

Lemma create_cumsum_data_running_sum_witness :
  create_cumsum_data ex_scores = Ok ex_scores_cumsum
  ∧ ∃ keys,
      getitem ex_scores "id_traj" = Ok keys
      ∧ index ex_scores_cumsum = np_take 0%Z (kept_positions keys) (index ex_scores)
      ∧ names ex_scores_cumsum
        = List.filter (String.prefix "score_") (names ex_scores)
      ∧ (∀ name, In name (names ex_scores_cumsum) →
           ∃ col, getitem ex_scores name = Ok col
                  ∧ getitem ex_scores_cumsum name
                    = Ok (map (running_sum keys col) (kept_positions keys)))
      ∧ (∀ col p,
           p < length keys →
           (∀ p', p < p' < length keys →
                  key_eqb (nth p keys CNaN) (nth p' keys CNaN) = false) →
           isna (nth p col CNaN) = false →
           running_sum keys col p = trajectory_total keys col (nth p keys CNaN)).
Proof.
  split; [vm_compute; reflexivity|].
  apply (create_cumsum_data_running_sum ex_scores ex_scores_cumsum).
  - reflexivity.
  - exact NoDup_seqZ_10_6.
  - vm_compute. reflexivity.
Defined.

(** The scores [s1, s2, s3] of one trajectory become
    [s1, s1 + s2, s1 + s2 + s3]. *)
Example create_cumsum_data_three_scores (s1 s2 s3 : Q) :
  create_cumsum_data
    {| index := [0; 1; 2]%Z;
       columns := [("id_traj"%string, [CInt 5; CInt 5; CInt 5]);
                   ("score_0"%string, [CFloat s1; CFloat s2; CFloat s3])] |}
  = Ok {| index := [0; 1; 2]%Z;
          columns := [("score_0"%string,
                       [CFloat s1; CFloat (s1 + s2); CFloat (s1 + s2 + s3)])] |}.
Proof. reflexivity. Qed.

(* ================================================================= *)
(** ** Columns by name *)

Lemma assoc_set_eq {A : Type} (k : string) (v : A) (l : list (string * A)) :
  assoc k (assoc_set k v l) = Some v.
Proof.
  induction l as [|[k' v'] l IH]; simpl.
  - now rewrite String.eqb_refl.
  - destruct (String.eqb k k') eqn:Hk; simpl.
    + now rewrite String.eqb_refl.
    + now rewrite Hk.
Qed.

Lemma assoc_set_ne {A : Type} (k n : string) (v : A) (l : list (string * A)) :
  String.eqb n k = false → assoc n (assoc_set k v l) = assoc n l.
Proof.
  intros Hne. induction l as [|[k' v'] l IH]; simpl.
  - now rewrite Hne.
  - destruct (String.eqb k k') eqn:Hk; simpl.
    + apply String.eqb_eq in Hk as <-. now rewrite Hne.
    + destruct (String.eqb n k'); [reflexivity | exact IH].
Qed.

Lemma assoc_filter_ne {A : Type} (k n : string) (l : list (string * A)) :
  String.eqb n k = false →
  assoc n (List.filter (fun nc => negb (String.eqb (fst nc) k)) l) = assoc n l.
Proof.
  intros Hne. induction l as [|[k' v'] l IH]; simpl; [reflexivity|].
  destruct (String.eqb k' k) eqn:Hk; simpl.
  - apply String.eqb_eq in Hk as ->. now rewrite Hne.
  - destruct (String.eqb n k'); [reflexivity | exact IH].
Qed.

Lemma assoc_names {A : Type} (n : string) (l : list (string * A)) (v : A) :
  assoc n l = Some v → In n (map fst l).
Proof. intros Ha. apply (in_map fst _ (n, v)). now apply assoc_In. Qed.

Lemma names_getitem (df : DataFrame) (n : string) :
  In n (names df) → ∃ c, getitem df n = Ok c.
Proof.
  unfold names, getitem. induction (columns df) as [|[k v] l IH]; simpl; [intros []|].
  intros Hin. destruct (String.eqb n k) eqn:Hk; [eauto|].
  destruct Hin as [<- | Hin]; [rewrite String.eqb_refl in Hk; discriminate | auto].
Qed.

(* ================================================================= *)
(** ** The last valid cumulative value of a trajectory *)

Lemma cell_add_valid (a b : cell) :
  isna a = false → isna b = false → isna (cell_add a b) = false.
Proof. destruct a, b; simpl; intros; congruence. Qed.

Lemma fold_cell_add_valid (l : list cell) :
  ∀ a, isna a = false → (∀ c, In c l → isna c = false) →
       isna (fold_left cell_add l a) = false.
Proof.
  induction l as [|c l IH]; simpl; intros a Ha Hl; [assumption|].
  apply IH; [apply cell_add_valid|]; auto.
Qed.

Lemma valid_In (l : list cell) (c : cell) : In c (valid l) → isna c = false.
Proof. unfold valid. rewrite filter_In, negb_true_iff. tauto. Qed.

(** The last cumulative value that is not missing is the sum of the cells
    that are not missing. *)
Lemma last_valid_cumsum_from (col : list cell) :
  ∀ acc init,
    match acc with
    | Some a => isna a = false
    | None => True
    end →
    fold_left (fun a c => if isna c then a else c) (cumsum_from acc col) init
    = match valid col with
      | [] => init
      | _ => total_from acc col
      end.
Proof.
  induction col as [|c col IH]; simpl; intros acc init Hacc; [reflexivity|].
  unfold valid. simpl. fold (valid col).
  destruct (isna c) eqn:Hc; simpl.
  - rewrite IH by assumption. unfold total_from, valid. simpl. rewrite Hc. reflexivity.
  - assert (Hs : isna match acc with
                      | Some a => cell_add a c
                      | None => c
                      end = false).
    { destruct acc; [apply cell_add_valid|]; assumption. }
    rewrite Hs, IH by assumption.
    unfold total_from, valid. simpl. rewrite Hc. fold (valid col).
    destruct (valid col) eqn:Hv; destruct acc; reflexivity.
Qed.

Lemma last_valid_cumsum (col : list cell) :
  last_valid (cumsum col) = sum_cells (valid col).
Proof.
  unfold last_valid, cumsum. rewrite last_valid_cumsum_from by exact I.
  unfold total_from. destruct (valid col); reflexivity.
Qed.

(** The running sums of a column, read at the rows of a group, are the
    cumulative sum of the group. *)
Lemma running_sum_group (keys col : list cell) (g : cell) :
  np_take CNaN (group_positions keys g)
          (map (running_sum keys col) (seq 0 (length keys)))
  = cumsum (np_take CNaN (group_positions keys g) col).
Proof.
  apply (nth_ext _ _ CNaN CNaN).
  - now rewrite cumsum_length, !np_take_length.
  - intros r Hr. rewrite np_take_length in Hr.
    assert (Hin : In (nth r (group_positions keys g) 0) (group_positions keys g))
      by (now apply nth_In).
    apply group_positions_In in Hin as [Hlt _].
    rewrite np_take_nth by exact Hr.
    rewrite (nth_indep _ CNaN (running_sum keys col 0))
      by (rewrite length_map, length_seq; exact Hlt).
    rewrite (map_nth (running_sum keys col)), seq_nth by exact Hlt.
    symmetry. now apply group_cumsum_nth.
Qed.

Lemma filter_all {A : Type} (f : A → bool) (l : list A) :
  (∀ x, In x l → f x = true) → List.filter f l = l.
Proof.
  induction l as [|x l IH]; simpl; intros Hf; [reflexivity|].
  rewrite (Hf x) by auto. f_equal. apply IH. auto.
Qed.

(** When every row has a key, every row is kept. *)
Lemma kept_positions_all (keys : list cell) :
  forallb (fun c => negb (isna c)) keys = true →
  kept_positions keys = seq 0 (length keys).
Proof.
  intros Hall. rewrite forallb_forall in Hall.
  unfold kept_positions. apply filter_all.
  intros p Hp. apply in_seq in Hp. apply Hall, nth_In. lia.
Qed.

(* ================================================================= *)
(** ** create_roc_dict: the terminal table *)

Lemma take_opt_all (col : list cell) :
  take_opt col (map Some (seq 0 (length col))) = col.
Proof. unfold take_opt. rewrite map_map. apply map_nth_seq. Qed.

Lemma np_take_all {A : Type} (d : A) (l : list A) : np_take d (seq 0 (length l)) l = l.
Proof. apply map_nth_seq. Qed.

Lemma terminal_columns_assoc (data_cumsum : DataFrame) (ids : list cell) (n : string) :
  String.eqb n "id_traj" = false →
  assoc n (terminal_columns data_cumsum ids)
  = (fun c => map (fun g => last_valid (np_take CNaN (group_positions ids g) c))
                  (group_keys ids))
      <$> assoc n (columns data_cumsum).
Proof.
  intros Hne. unfold terminal_columns.
  rewrite (assoc_map_snd
             (fun c => map (fun g => last_valid (np_take CNaN (group_positions ids g) c))
                           (group_keys ids))).
  rewrite assoc_filter_ne, assoc_set_ne by assumption. reflexivity.
Qed.

Section RocDict.
Context `{Sklearn}.

(** With the two tables on the same rows and trajectory ids, what
    [create_roc_dict] does after the cumulative sums: look the clusters up,
    then loop over the labels on the terminal table. *)
Lemma create_roc_dict_steps (data_original data_score data_cumsum : DataFrame)
    (labels : list Z) (nb_tc : Z) (ids : list cell) :
  wf_frame data_score = true → NoDup (index data_score) →
  index data_original = index data_score →
  getattr data_original "id_traj" = Ok ids →
  getitem data_score "id_traj" = Ok ids →
  forallb (fun c => negb (isna c)) ids = true →
  create_cumsum_data data_score = Ok data_cumsum →
  create_roc_dict data_original data_score labels nb_tc
  = (traj_clust ← rmap (np_getitem labels) (group_keys ids);
     roc_loop {| group_index := group_keys ids;
                 group_columns := assoc_set "traj_clust" (map CInt traj_clust)
                                            (terminal_columns data_cumsum ids) |}
              (range 0 nb_tc) ∅).
Proof.
  intros Hwf Hnd Hidx Hattr Hitem Hall Hcum.
  pose proof (wf_getitem_length _ _ _ Hwf Hitem) as Hlen.
  destruct (create_cumsum_data_Ok _ _ Hwf Hnd Hcum)
    as (keys & Hkeys & Hcidx & _).
  rewrite Hitem in Hkeys. injection Hkeys as <-.
  rewrite kept_positions_all, Hlen, np_take_all in Hcidx by assumption.
  unfold create_roc_dict. rewrite Hcum. cbn [mbind result_bind].
  rewrite Hattr. cbn [mbind result_bind].
  unfold setitem_series, reindexer. rewrite Hcidx, Hidx.
  rewrite bool_decide_eq_true_2 by reflexivity. cbn [mbind result_bind].
  rewrite <- Hlen, take_opt_all.
  unfold groupby_last, getitem. cbn [columns index].
  rewrite assoc_set_eq. reflexivity.
Qed.

(** The loop over the labels: each label of the list gets the entry its
    iteration computes, and the other keys of the dictionary are left. *)
Lemma roc_loop_entries (data_gbit : GroupedFrame) (tcs : list Z) :
  ∀ acc roc_dic,
    List.NoDup tcs →
    roc_loop data_gbit tcs acc = Ok roc_dic →
    (∀ tc, ¬ In tc tcs → roc_dic !! tc = acc !! tc)
    ∧ ∀ tc, In tc tcs →
        ∃ traj_clust score_tc fpr tpr thresholds auc_v,
          ggetitem data_gbit "traj_clust" = Ok traj_clust
          ∧ ggetitem data_gbit ("score_" ++ str tc) = Ok score_tc
          ∧ roc_curve (map (fun c => cell_eq_int c tc) traj_clust)
                      (map cell_float score_tc) 1 = Ok (fpr, tpr, thresholds)
          ∧ auc fpr tpr = Ok auc_v
          ∧ roc_dic !! tc = Some (fpr, tpr, auc_v).
Proof.
  induction tcs as [|tc tcs IH]; simpl; intros acc roc_dic Hnd Hrun.
  - injection Hrun as <-. split; [reflexivity | intros ? []].
  - apply rbind_Ok in Hrun as (traj_clust & Htc & Hrun).
    apply rbind_Ok in Hrun as (score_tc & Hsc & Hrun).
    apply rbind_Ok in Hrun as ([[fpr tpr] thresholds] & Hroc & Hrun).
    apply rbind_Ok in Hrun as (auc_v & Hauc & Hrun).
    apply List.NoDup_cons_iff in Hnd as [Hnotin Hnd].
    destruct (IH _ _ Hnd Hrun) as [Hother Hentries]. split.
    + intros tc' Hnin. rewrite Hother by tauto.
      apply lookup_insert_ne. intros ->. tauto.
    + intros tc' [<- | Hin]; [|auto].
      exists traj_clust, score_tc, fpr, tpr, thresholds, auc_v.
      repeat split; try assumption.
      rewrite Hother by assumption. apply lookup_insert_eq.
Qed.

End RocDict.

(* ================================================================= *)
(** ** create_roc_dict: the claims *)

Lemma score_name_not_id (tc : Z) : String.eqb ("score_" ++ str tc) "id_traj" = false.
Proof. reflexivity. Qed.

Lemma score_name_not_clust (tc : Z) : String.eqb ("score_" ++ str tc) "traj_clust" = false.
Proof. reflexivity. Qed.

(** C9: on a score table that has the rows and the trajectory ids of the
    point table, [create_roc_dict] returns a dictionary whose keys are
    exactly the labels 0 .. nb_tc-1; the entry of label [tc] is
    [(fpr, tpr, auc(fpr, tpr))] where [fpr] and [tpr] come from [roc_curve]
    called, with [pos_label=1] (the value of [True]), on the indicators
    [labels[k] == tc] and the terminal cumulative [score_tc] values of the
    trajectories [k], taken in ascending order of [k]. *)
Theorem create_roc_dict_entries `{Sklearn}
    (data_original data_score : DataFrame) (labels : list Z) (nb_tc : Z)
    (ids : list cell) (roc_dic : gmap Z (list Q * list Q * Q)) :
  wf_frame data_score = true → NoDup (index data_score) →
  index data_original = index data_score →
  getattr data_original "id_traj" = Ok ids →
  getitem data_score "id_traj" = Ok ids →
  forallb (fun c => negb (isna c)) ids = true →
  create_roc_dict data_original data_score labels nb_tc = Ok roc_dic →
  (∀ tc, is_Some (roc_dic !! tc) ↔ (0 <= tc < nb_tc)%Z)
  ∧ ∃ clusters,
      rmap (np_getitem labels) (group_keys ids) = Ok clusters
      ∧ ∀ tc, (0 <= tc < nb_tc)%Z →
          ∃ col fpr tpr thresholds auc_v,
            getitem data_score ("score_" ++ str tc) = Ok col
            ∧ roc_curve (map (fun k => Z.eqb k tc) clusters)
                        (map (fun g => cell_float (trajectory_total ids col g))
                             (group_keys ids))
                        1 = Ok (fpr, tpr, thresholds)
            ∧ auc fpr tpr = Ok auc_v
            ∧ roc_dic !! tc = Some (fpr, tpr, auc_v).
Proof.
  intros Hwf Hnd Hidx Hattr Hitem Hall Hrun.
  assert (Hcum : ∃ dc, create_cumsum_data data_score = Ok dc).
  { unfold create_roc_dict in Hrun. apply rbind_Ok in Hrun as (dc & Hdc & _). eauto. }
  destruct Hcum as (dc & Hcum).
  rewrite (create_roc_dict_steps _ _ _ _ _ _ Hwf Hnd Hidx Hattr Hitem Hall Hcum) in Hrun.
  apply rbind_Ok in Hrun as (clusters & Hclusters & Hloop).
  apply roc_loop_entries in Hloop as [Hother Hentries];
    [|apply NoDup_ListNoDup, NoDup_seqZ].
  assert (Hrange : ∀ tc, In tc (range 0 nb_tc) ↔ (0 <= tc < nb_tc)%Z).
  { intros tc. unfold range. rewrite <- list_elem_of_In, elem_of_seqZ. lia. }
  split.
  - intros tc. rewrite <- Hrange. split.
    + intros Hsome.
      destruct (in_dec Z.eq_dec tc (range 0 nb_tc)) as [Hin|Hnin]; [exact Hin|].
      rewrite Hother, lookup_empty in Hsome by exact Hnin.
      destruct Hsome as [? [=]].
    + intros Hin. destruct (Hentries tc Hin) as (? & ? & ? & ? & ? & ? & _ & _ & _ & _ & ->).
      eauto.
  - exists clusters. split; [assumption|]. intros tc Htc.
    destruct (Hentries tc (proj2 (Hrange tc) Htc))
      as (traj_clust & score_tc & fpr & tpr & thresholds & auc_v
          & Htcl & Hsc & Hroc & Hauc & Hentry).
    unfold ggetitem in Htcl, Hsc. cbn [group_columns] in Htcl, Hsc.
    rewrite assoc_set_eq in Htcl. injection Htcl as <-.
    rewrite assoc_set_ne in Hsc by apply score_name_not_clust.
    rewrite terminal_columns_assoc in Hsc by apply score_name_not_id.
    destruct (assoc ("score_" ++ str tc) (columns dc)) as [rc|] eqn:Hrc;
      [|discriminate].
    simpl in Hsc. injection Hsc as <-.
    destruct (create_cumsum_data_Ok _ _ Hwf Hnd Hcum)
      as (keys & Hkeys & _ & _ & Hcols).
    rewrite Hitem in Hkeys. injection Hkeys as <-.
    destruct (Hcols ("score_" ++ str tc))%string as (col & Hcol & Hout).
    { eapply assoc_names. exact Hrc. }
    unfold getitem in Hout. rewrite Hrc in Hout. injection Hout as ->.
    rewrite kept_positions_all in Hroc by assumption.
    exists col, fpr, tpr, thresholds, auc_v.
    repeat split; try assumption.
    rewrite <- Hroc. f_equal; [f_equal|].
    + rewrite map_map. reflexivity.
    + rewrite map_map. apply map_ext. intros g.
      now rewrite running_sum_group, last_valid_cumsum.
Qed.

Lemma NoDup_seqZ_100_12 : NoDup (seqZ 100 12).
Proof. apply NoDup_seqZ. Qed.

Lemma create_roc_dict_entries_witness :
  ∃ roc_dic,
    @create_roc_dict toy ex_points ex_score_table ex_labels 2 = Ok roc_dic
    ∧ (∀ tc, is_Some (roc_dic !! tc) ↔ (0 <= tc < 2)%Z)
    ∧ roc_dic !! 0%Z = Some ([1; 1; 0; 0]%Q, [6; 6; 0; 0]%Q, 14%Q)
    ∧ roc_dic !! 1%Z = Some ([0; 0; 1; 1]%Q, [0; 0; 3; 6]%Q, 11%Q).
Proof.
  eexists. split; [vm_compute; reflexivity|].
  split; [|split; vm_compute; reflexivity].
  refine (proj1 (create_roc_dict_entries (H := toy) ex_points ex_score_table ex_labels 2
                   (map CInt [0; 1; 2; 3; 0; 1; 2; 3; 0; 1; 2; 3]%Z) _
                   eq_refl NoDup_seqZ_100_12 eq_refl eq_refl eq_refl eq_refl _)).
  vm_compute. reflexivity.
Defined.

(* ================================================================= *)
(** ** Trajectory ids as positions in [labels] *)

Lemma np_getitem_int (labels : list Z) (z : Z) :
  let n := Z.of_nat (length labels) in
  (- n <= z < n)%Z →
  np_getitem labels (CInt z) = Ok (nth (Z.to_nat (z mod n)) labels 0%Z).
Proof.
  intros n Hz. unfold np_getitem. fold n.
  destruct (Z.leb_spec 0 z) as [Hpos|Hneg]; simpl.
  - rewrite (proj2 (Z.ltb_lt z n)) by lia. now rewrite Z.mod_small by lia.
  - rewrite (proj2 (Z.leb_le (- n) z)), (proj2 (Z.ltb_lt z 0)) by lia. simpl.
    replace (z mod n)%Z with (n + z)%Z; [reflexivity|].
    apply (Z.mod_unique z n (-1)); lia.
Qed.

Lemma np_getitem_out (labels : list Z) (z : Z) :
  let n := Z.of_nat (length labels) in
  (z < - n ∨ n <= z)%Z → np_getitem labels (CInt z) = Raise IndexError.
Proof.
  intros n Hz. unfold np_getitem. fold n.
  destruct (Z.leb_spec 0 z), (Z.ltb_spec z n), (Z.leb_spec (- n) z), (Z.ltb_spec z 0);
    simpl; try reflexivity; lia.
Qed.

Lemma np_getitem_IndexError (labels : list Z) (k : cell) (e : exn) :
  np_getitem labels k = Raise e → e = IndexError.
Proof.
  unfold np_getitem. destruct k as [z| |]; try (intros [= <-]; reflexivity).
  destruct (_ && _); [discriminate|]. destruct (_ && _); [discriminate|].
  intros [= <-]. reflexivity.
Qed.

(** One index that fails makes the whole list comprehension fail. *)
Lemma rmap_np_getitem_raise (labels : list Z) (l : list cell) (g : cell) :
  In g l → np_getitem labels g = Raise IndexError →
  rmap (np_getitem labels) l = Raise IndexError.
Proof.
  intros Hin Hg. induction l as [|k l IH]; simpl; [destruct Hin|].
  destruct (np_getitem labels k) as [c|e] eqn:Hk; simpl.
  - rewrite IH; [reflexivity|]. destruct Hin as [-> | Hin]; [congruence | exact Hin].
  - now rewrite (np_getitem_IndexError _ _ _ Hk).
Qed.

Lemma rmap_Forall2 {A B : Type} (f : A → result B) (P : A → B → Prop) (l : list A) :
  (∀ a, In a l → ∃ b, f a = Ok b ∧ P a b) →
  ∃ bs, rmap f l = Ok bs ∧ Forall2 P l bs.
Proof.
  induction l as [|a l IH]; simpl; intros Hall.
  - exists []. split; [reflexivity | constructor].
  - destruct (Hall a (or_introl eq_refl)) as (b & -> & Hb).
    destruct IH as (bs & -> & Hbs); [auto|].
    exists (b :: bs). split; [reflexivity | now constructor].
Qed.

Lemma all_int_valid (zs : list Z) :
  forallb (fun c => negb (isna c)) (map CInt zs) = true.
Proof. apply forallb_forall. intros c Hc. apply in_map_iff in Hc as (z & <- & _). reflexivity. Qed.

Lemma key_eqb_int (a b : Z) : key_eqb (CInt a) (CInt b) = true → a = b.
Proof.
  unfold key_eqb. simpl. rewrite Qeq_bool_iff. apply inject_Z_injective.
Qed.

(** The class filter of [build_cross_clust_mixt_cv], row by row. *)
Lemma class_filter_nth (labels : list Z) (n_class : Z) (train : ndarray) (k : nat) :
  k < length train →
  nth k (np_isin (last_column train) (np_where_eq labels n_class)) false = true
  ↔ ∃ p, p < length labels ∧ nth p labels 0%Z = n_class
         ∧ float_eq_int (row_last (nth k train [])) (Z.of_nat p) = true.
Proof.
  intros Hk. unfold np_isin, last_column.
  rewrite (nth_indep _ false
             ((fun x => existsb (float_eq_int x) (np_where_eq labels n_class))
                (row_last [])))
    by (rewrite !length_map; exact Hk).
  rewrite (map_nth (fun x => existsb (float_eq_int x) (np_where_eq labels n_class))).
  rewrite (map_nth row_last). rewrite existsb_exists. unfold np_where_eq. split.
  - intros (v & Hv & Heq). apply in_map_iff in Hv as (p & <- & Hp).
    apply mask_positions_In in Hp as [Hplt Hnth]. rewrite length_map in Hplt.
    exists p. repeat split; try assumption.
    rewrite (nth_indep _ false ((fun l => Z.eqb l n_class) 0%Z)) in Hnth
      by (rewrite length_map; exact Hplt).
    rewrite (map_nth (fun l => Z.eqb l n_class)) in Hnth. now apply Z.eqb_eq.
  - intros (p & Hplt & Hlab & Heq). exists (Z.of_nat p). split; [|assumption].
    apply in_map. apply mask_positions_In. rewrite length_map. split; [assumption|].
    rewrite (nth_indep _ false ((fun l => Z.eqb l n_class) 0%Z))
      by (rewrite length_map; exact Hplt).
    rewrite (map_nth (fun l => Z.eqb l n_class)). now apply Z.eqb_eq.
Qed.

(** C10, as stated, fails: the trajectory id -1 is outside
    [[0, len(labels))] and the lookup [labels[-1]] succeeds: it is the last
    entry of [labels], and [create_roc_dict] returns its dictionary. *)
Lemma labels_lookup_negative_id :
  ¬ (0 <= -1 < Z.of_nat (length [0; 1]%Z))%Z
  ∧ getattr ex_neg_points "id_traj" = Ok (map CInt [-1; -1; 0; 0]%Z)
  ∧ np_getitem [0; 1]%Z (CInt (-1)) = Ok 1%Z
  ∧ ∃ roc_dic, @create_roc_dict toy ex_neg_points ex_neg_scores [0; 1]%Z 2 = Ok roc_dic
               ∧ roc_dic !! 0%Z = Some ([0; 1]%Q, [3; 7]%Q, 11%Q)
               ∧ roc_dic !! 1%Z = Some ([1; 0]%Q, [11; 15]%Q, 27%Q).
Proof.
  split; [simpl; lia|]. split; [reflexivity|]. split; [reflexivity|].
  eexists. split; [vm_compute; reflexivity|]. split; vm_compute; reflexivity.
Qed.

(* ================================================================= *)
(** ** Fold frames: the columns that the class loop writes *)

Lemma assoc_set_names {A : Type} (k : string) (v : A) (l : list (string * A)) :
  map fst (assoc_set k v l) = add_name (map fst l) k.
Proof.
  unfold add_name, has_name. induction l as [|[k' v'] l IH]; simpl; [reflexivity|].
  destruct (String.eqb k k') eqn:Hk; simpl.
  - apply String.eqb_eq in Hk as ->. reflexivity.
  - rewrite IH. destruct (existsb (String.eqb k) (map fst l)); reflexivity.
Qed.

Lemma assoc_set_In {A : Type} (k : string) (v : A) (l : list (string * A)) (x : string * A) :
  In x (assoc_set k v l) → x = (k, v) ∨ In x l.
Proof.
  induction l as [|[k' v'] l IH]; simpl.
  - intros [<- | []]. auto.
  - destruct (String.eqb k k'); simpl.
    + intros [<- | Hin]; auto.
    + intros [<- | Hin]; [auto|]. destruct (IH Hin); auto.
Qed.

Lemma setitem_scalar_wf (df : DataFrame) (n : string) (c : cell) :
  wf_frame df = true → wf_frame (setitem_scalar df n c) = true.
Proof.
  unfold wf_frame. rewrite !forallb_forall. intros Hwf x Hx. simpl in Hx |- *.
  apply assoc_set_In in Hx as [-> | Hx]; [|auto].
  simpl. rewrite length_replicate. apply Nat.eqb_refl.
Qed.

Lemma setitem_scalar_no_nan (df : DataFrame) (n : string) (c : cell) :
  no_nan df → (index df ≠ [] → isna c = false) → no_nan (setitem_scalar df n c).
Proof.
  intros Hdf Hc n' c' Hin x Hx. simpl in Hin.
  apply assoc_set_In in Hin as [[= -> ->] | Hin]; [|eauto].
  apply list_elem_of_In, elem_of_replicate in Hx as [-> Hlen].
  apply Hc. destruct (index df); [simpl in Hlen; lia | discriminate].
Qed.

Lemma apply_scores_index (cxs : list (Z * cell)) :
  ∀ df, index (apply_scores df cxs) = index df.
Proof.
  unfold apply_scores. induction cxs as [|cx cxs IH]; simpl; intros df; [reflexivity|].
  now rewrite IH.
Qed.

Lemma apply_scores_wf (cxs : list (Z * cell)) :
  ∀ df, wf_frame df = true → wf_frame (apply_scores df cxs) = true.
Proof.
  unfold apply_scores. induction cxs as [|cx cxs IH]; simpl; intros df Hwf; [assumption|].
  apply IH. now apply setitem_scalar_wf.
Qed.

Lemma apply_scores_no_nan (cxs : list (Z * cell)) :
  ∀ df, no_nan df →
        (index df ≠ [] → ∀ cx, In cx cxs → isna (snd cx) = false) →
        no_nan (apply_scores df cxs).
Proof.
  unfold apply_scores. induction cxs as [|cx cxs IH]; simpl; intros df Hdf Hc; [assumption|].
  apply IH.
  - apply setitem_scalar_no_nan; auto.
  - simpl. auto.
Qed.

Lemma apply_scores_names (cxs : list (Z * cell)) :
  ∀ df, names (apply_scores df cxs)
        = fold_left add_name (map (fun cx => score_name (fst cx)) cxs) (names df).
Proof.
  unfold apply_scores. induction cxs as [|cx cxs IH]; simpl; intros df; [reflexivity|].
  rewrite IH. unfold names at 1. simpl. now rewrite assoc_set_names.
Qed.

Lemma score_name_not_cv (c : Z) : String.eqb "cv" (score_name c) = false.
Proof. reflexivity. Qed.

Lemma apply_scores_cv (cxs : list (Z * cell)) :
  ∀ df, getitem (apply_scores df cxs) "cv" = getitem df "cv".
Proof.
  unfold apply_scores. induction cxs as [|cx cxs IH]; simpl; intros df; [reflexivity|].
  rewrite IH. unfold getitem. simpl.
  now rewrite assoc_set_ne by apply score_name_not_cv.
Qed.

Lemma add_name_In (ns : list string) (n m : string) :
  In m (add_name ns n) ↔ In m ns ∨ m = n.
Proof.
  unfold add_name, has_name. destruct (existsb (String.eqb n) ns) eqn:Hn.
  - apply existsb_exists in Hn as (x & Hx & Heq). apply String.eqb_eq in Heq as <-.
    split; [auto | intros [? | ->]; auto].
  - rewrite in_app_iff. simpl. split; intros [? | ?]; auto. destruct H as [<- | []]. auto.
Qed.

Lemma fold_add_name_In (l : list string) :
  ∀ ns m, In m (fold_left add_name l ns) ↔ In m ns ∨ In m l.
Proof.
  induction l as [|n l IH]; simpl; intros ns m; [tauto|].
  rewrite IH, add_name_In. split; intros H; intuition (subst; auto).
Qed.

(* ================================================================= *)
(** ** build_cross_clust_mixt_cv: the class loop and the fold loop *)

Section Build.
Context `{Sklearn}.

Lemma class_score_valid (test : ndarray) (x : cell) :
  class_score test x → test ≠ [] → isna x = false.
Proof.
  intros (gmm & l & Hl & ->) Htest.
  apply gmm_score_samples_shape in Hl.
  destruct l as [|q l]; [destruct test; [congruence | discriminate]|].
  reflexivity.
Qed.

Lemma score_Ok (gmm : fitted) (test : ndarray) (v : float) :
  score gmm test = Ok v → class_score test (float_cell v).
Proof.
  destruct gmm as [|g]; simpl; [discriminate|].
  unfold gmm_score. intros Hrun. apply rbind_Ok in Hrun as (l & Hl & [= <-]).
  exists g, l. auto.
Qed.

(** A run of the class loop that returns has assigned, for each class in
    turn, one broadcast score to the column of the class. *)
Lemma class_loop_scored (labels : list Z) (train test : ndarray) (classes : list Z) :
  ∀ gmms F s gmms' F' s',
    class_loop labels train test classes gmms F s = Ok (gmms', F', s') →
    ∃ cells,
      length cells = length classes
      ∧ Forall (class_score test) cells
      ∧ F' = apply_scores F (combine classes cells).
Proof.
  induction classes as [|c classes IH]; intros gmms F s gmms' F' s' Hrun.
  - apply (mret_Ok (gmms, F)) in Hrun as [[= <- <-] ->]. exists [].
    split; [reflexivity | split; [constructor | reflexivity]].
  - cbn [class_loop] in Hrun.
    apply mbind_Ok in Hrun as (coord_tc & s1 & _ & Hrun).
    apply mbind_Ok in Hrun as ([[nc bic] gmm] & s2 & _ & Hrun).
    apply mbind_Ok in Hrun as (scores & s3 & Hscore & Hrun).
    apply lift_Ok in Hscore as [Hscore ->].
    apply IH in Hrun as (cells & Hlen & Hcells & ->).
    exists (float_cell scores :: cells). simpl.
    split; [now rewrite Hlen | split; [|reflexivity]].
    constructor; [eapply score_Ok; eassumption | assumption].
Qed.

Lemma fold_loop_frames (data_original : DataFrame) (nb_traj_class : Z) (labels : list Z)
    (cv_list : list (list Z)) :
  ∀ i gmm_cv data_list s gmm_cv' data_list' s',
    fold_loop data_original nb_traj_class labels i cv_list gmm_cv data_list s
    = Ok (gmm_cv', data_list', s') →
    ∃ frames,
      data_list' = data_list ++ frames
      ∧ fold_frames data_original (range 0 nb_traj_class) i cv_list frames.
Proof.
  induction cv_list as [|cv cv_list IH];
    intros i gmm_cv data_list s gmm_cv' data_list' s' Hrun.
  - apply (mret_Ok (gmm_cv, data_list)) in Hrun as [[= <- <-] ->].
    exists []. split; [now rewrite app_nil_r | exact I].
  - cbn [fold_loop] in Hrun.
    apply mbind_Ok in Hrun as ([[train test] F0] & s1 & Hsplit & Hrun).
    apply lift_Ok in Hsplit as [Hsplit ->].
    apply mbind_Ok in Hrun as ([gmms F] & s2 & Hclass & Hrun).
    apply class_loop_scored in Hclass as (cells & Hlen & Hcells & ->).
    apply IH in Hrun as (frames & -> & Hframes).
    exists (apply_scores F0 (combine (range 0 nb_traj_class) cells) :: frames).
    split; [now rewrite <- app_assoc|]. split; [|assumption].
    exists train, test, F0, cells. auto.
Qed.

Lemma fold_frames_In (data_original : DataFrame) (classes : list Z)
    (cv_list : list (list Z)) :
  ∀ i frames F,
    fold_frames data_original classes i cv_list frames → In F frames →
    ∃ k cv, cv_list !! k = Some cv
            ∧ fold_frame data_original classes (i + Z.of_nat k)%Z cv F.
Proof.
  induction cv_list as [|cv cv_list IH]; intros i [|F0 frames] F Hfr Hin;
    simpl in Hfr; try contradiction.
  destruct Hfr as [HF0 Hfr]. destruct Hin as [<- | Hin].
  - exists 0, cv. split; [reflexivity|]. now rewrite Z.add_0_r.
  - destruct (IH _ _ _ Hfr Hin) as (k & cv' & Hk & HF).
    exists (S k), cv'. split; [exact Hk|].
    replace (i + Z.of_nat (S k))%Z with (i + 1 + Z.of_nat k)%Z by lia. exact HF.
Qed.

Lemma combine_names (classes : list Z) (cells : list cell) :
  length cells = length classes →
  map (fun cx : Z * cell => score_name (fst cx)) (combine classes cells)
  = map score_name classes.
Proof.
  revert cells. induction classes as [|c classes IH]; intros [|x cells]; simpl;
    try reflexivity; try discriminate.
  intros [= Hlen]. now rewrite IH.
Qed.

(** What is known of the frame of a fold. *)
Lemma fold_frame_facts (data_original : DataFrame) (classes : list Z)
    (i : Z) (cv : list Z) (F : DataFrame) (ids : list cell) :
  wf_frame data_original = true →
  getattr data_original "id_traj" = Ok ids →
  fold_frame data_original classes i cv F →
  index F = mask_select (isin ids cv) (index data_original)
  ∧ names F = fold_names classes
  ∧ wf_frame F = true
  ∧ no_nan F
  ∧ getitem F "cv" = Ok (replicate (length (index F)) (CInt i)).
Proof.
  intros Hwf Hid (train & test & F0 & cells & Hsplit & Hlen & Hcells & ->).
  destruct (train_test_split_frame _ _ _ _ _ _ Hwf Hsplit)
    as (ids' & Hid' & _ & Hcols & Hlen0).
  rewrite Hid in Hid'. injection Hid' as <-.
  apply train_test_split_Ok in Hsplit as (ids' & Hid' & _ & _ & HF0).
  rewrite Hid in Hid'. injection Hid' as <-.
  assert (Hidx0 : index F0 = mask_select (isin ids cv) (index data_original))
    by (rewrite HF0; reflexivity).
  rewrite apply_scores_index. repeat split.
  - exact Hidx0.
  - rewrite apply_scores_names, combine_names by assumption.
    unfold names. rewrite Hcols. reflexivity.
  - apply apply_scores_wf. unfold wf_frame. rewrite Hcols. simpl.
    now rewrite length_replicate, Nat.eqb_refl.
  - apply apply_scores_no_nan.
    + intros n c Hin x Hx. rewrite Hcols in Hin. destruct Hin as [[= <- <-] | []].
      apply list_elem_of_In, elem_of_replicate in Hx as [-> _]. reflexivity.
    + intros Hne [c x] Hcx. apply in_combine_r in Hcx. simpl.
      rewrite Forall_forall in Hcells. apply list_elem_of_In in Hcx.
      apply (class_score_valid test); [auto|].
      intros ->. simpl in Hlen0. destruct (index F0); [congruence | discriminate].
  - rewrite apply_scores_cv. unfold getitem. rewrite Hcols. reflexivity.
Qed.

End Build.

(* ================================================================= *)
(** ** Folds that partition the trajectory ids *)

Lemma cell_eq_int_inj (c : cell) (z1 z2 : Z) :
  cell_eq_int c z1 = true → cell_eq_int c z2 = true → z1 = z2.
Proof.
  destruct c as [x|q|]; simpl; try discriminate.
  - rewrite !Z.eqb_eq. congruence.
  - rewrite !Qeq_bool_iff. intros H1 H2. apply inject_Z_injective.
    now rewrite <- H1, <- H2.
Qed.

Lemma held_out_two (c : cell) (a b : list Z) :
  forallb (fun z => negb (existsb (Z.eqb z) b)) a = true →
  held_out c a = true → held_out c b = true → False.
Proof.
  unfold held_out. rewrite forallb_forall, !existsb_exists.
  intros Hdis (z1 & Hz1 & H1) (z2 & Hz2 & H2).
  assert (z1 = z2) as -> by (eapply cell_eq_int_inj; eassumption).
  specialize (Hdis z2 Hz1). apply negb_true_iff in Hdis.
  assert (existsb (Z.eqb z2) b = true); [|congruence].
  apply existsb_exists. exists z2. split; [assumption | apply Z.eqb_refl].
Qed.

Lemma held_out_two_sym (c : cell) (a b : list Z) :
  forallb (fun z => negb (existsb (Z.eqb z) b)) a = true →
  held_out c b = true → held_out c a = true → False.
Proof. intros. eapply held_out_two; eassumption. Qed.

(** With disjoint folds, a trajectory id is held out in one fold at most. *)
Lemma folds_disjoint_unique (cv_list : list (list Z)) (c : cell) :
  folds_disjoint cv_list = true →
  ∀ i j a b,
    cv_list !! i = Some a → cv_list !! j = Some b →
    held_out c a = true → held_out c b = true → i = j.
Proof.
  induction cv_list as [|cv cv_list IH]; simpl; intros Hdis i j a b Hi Hj Ha Hb;
    [discriminate|].
  apply andb_true_iff in Hdis as [Hhead Hrest]. rewrite forallb_forall in Hhead.
  destruct i as [|i], j as [|j]; simpl in Hi, Hj.
  - reflexivity.
  - injection Hi as <-. exfalso.
    apply (held_out_two c cv b); try assumption.
    apply Hhead. apply list_elem_of_In. eapply list_elem_of_lookup_2. exact Hj.
  - injection Hj as <-. exfalso.
    apply (held_out_two c cv a); try assumption.
    apply Hhead. apply list_elem_of_In. eapply list_elem_of_lookup_2. exact Hi.
  - f_equal. eapply IH; eassumption.
Qed.

(** With covering folds, the trajectory id of every row is held out in a fold. *)
Lemma folds_cover_row (ids : list cell) (cv_list : list (list Z)) (p : nat) :
  folds_cover ids cv_list = true → p < length ids →
  ∃ k cv, cv_list !! k = Some cv ∧ held_out (nth p ids CNaN) cv = true.
Proof.
  unfold folds_cover. rewrite forallb_forall. intros Hcover Hp.
  specialize (Hcover (nth p ids CNaN) (nth_In _ _ Hp)).
  apply existsb_exists in Hcover as (cv & Hcv & Hheld).
  apply list_elem_of_In, list_elem_of_lookup in Hcv as (k & Hk). eauto.
Qed.

(* ================================================================= *)
(** ** The stack of the fold frames, reindexed and joined *)

Lemma has_name_In (l : list string) (n : string) : has_name l n = true ↔ In n l.
Proof.
  unfold has_name. rewrite existsb_exists. split.
  - intros (x & Hx & Heq). now apply String.eqb_eq in Heq as ->.
  - intros Hin. exists n. split; [assumption | apply String.eqb_refl].
Qed.

Lemma union_names_same (N : list string) (frames : list DataFrame) :
  frames ≠ [] → (∀ F, In F frames → names F = N) → union_names frames = N.
Proof.
  assert (Hfix : ∀ fs, (∀ F, In F fs → names F = N) →
            fold_left (fun acc df =>
                         acc ++ List.filter (fun n => negb (has_name acc n)) (names df))
                      fs N = N).
  { induction fs as [|F fs IH]; simpl; intros Hall; [reflexivity|].
    rewrite (Hall F) by auto.
    rewrite filter_none, app_nil_r; [apply IH; auto|].
    intros n Hn. apply negb_false_iff. now apply has_name_In. }
  destruct frames as [|F frames]; [congruence|]. intros _ Hall.
  unfold union_names. simpl. rewrite (Hall F) by (left; reflexivity).
  rewrite filter_all by (intros; reflexivity). apply Hfix.
  intros F' HF'. apply Hall. now right.
Qed.

Lemma assoc_map_key {A : Type} (f : string → A) (N : list string) (n : string) :
  In n N → assoc n (map (fun k => (k, f k)) N) = Some (f n).
Proof.
  induction N as [|k N IH]; simpl; [intros []|].
  intros Hin. destruct (String.eqb n k) eqn:Hk.
  - now apply String.eqb_eq in Hk as ->.
  - destruct Hin as [-> | Hin]; [rewrite String.eqb_refl in Hk; discriminate | auto].
Qed.

Lemma assoc_app {A : Type} (n : string) (l1 l2 : list (string * A)) :
  assoc n (l1 ++ l2)
  = match assoc n l1 with
    | Some v => Some v
    | None => assoc n l2
    end.
Proof.
  induction l1 as [|[k v] l1 IH]; simpl; [reflexivity|].
  destruct (String.eqb n k); [reflexivity | exact IH].
Qed.

Lemma assoc_None {A : Type} (n : string) (l : list (string * A)) :
  has_name (map fst l) n = false → assoc n l = None.
Proof.
  unfold has_name. induction l as [|[k v] l IH]; simpl; [reflexivity|].
  destruct (String.eqb n k); simpl; [discriminate | exact IH].
Qed.

Lemma filter_seq_single (f : nat → bool) (n p : nat) :
  p < n → (∀ q, q < n → (f q = true ↔ q = p)) →
  List.filter f (seq 0 n) = [p].
Proof.
  intros Hp Hf.
  replace n with (p + (1 + (n - S p))) by lia.
  rewrite !seq_app, !List.filter_app. simpl.
  rewrite (proj2 (Hf p Hp) eq_refl).
  rewrite !filter_none; [reflexivity | |].
  - intros q Hq. apply in_seq in Hq. apply not_true_is_false.
    intros Hfq. apply Hf in Hfq; lia.
  - intros q Hq. apply in_seq in Hq. apply not_true_is_false.
    intros Hfq. apply Hf in Hfq; lia.
Qed.

Lemma positions_of_NoDup (idx : list Z) (p : nat) :
  NoDup idx → p < length idx → positions_of idx (nth p idx 0%Z) = [p].
Proof.
  intros Hnd Hp. unfold positions_of. apply filter_seq_single; [assumption|].
  intros q Hq. rewrite Z.eqb_eq. split; [|now intros ->].
  intros Heq. apply (proj1 (NoDup_nth idx 0%Z) (proj1 (NoDup_ListNoDup _) Hnd)); auto.
Qed.

(** Joining two frames on the same unique row labels pairs each row with
    itself. *)
Lemma join_pairs_same (idx : list Z) :
  NoDup idx → join_pairs idx idx = map (fun p => (p, Some p)) (seq 0 (length idx)).
Proof.
  intros Hnd. unfold join_pairs.
  assert (Hgen : ∀ l, (∀ p, In p l → p < length idx) →
            flat_map (fun pl =>
                        match positions_of idx (nth pl idx 0%Z) with
                        | [] => [(pl, None)]
                        | ps => map (fun pr => (pl, Some pr)) ps
                        end) l
            = map (fun p => (p, Some p)) l).
  { induction l as [|p l IH]; simpl; intros Hl; [reflexivity|].
    rewrite positions_of_NoDup by auto. simpl. f_equal. apply IH. auto. }
  apply Hgen. intros p Hp. apply in_seq in Hp. lia.
Qed.

Lemma mask_select_In_nth {A : Type} (d : A) (mask : list bool) (xs : list A) (p : nat) :
  length mask = length xs → p < length xs → nth p mask false = true →
  In (nth p xs d) (mask_select mask xs).
Proof.
  intros Hlen Hp Hm. rewrite (mask_select_take d) by assumption.
  unfold np_take. apply (in_map (fun q => nth q xs d)).
  apply mask_positions_In. split; [lia | assumption].
Qed.

Lemma mask_select_In_inv {A : Type} (d : A) (mask : list bool) (xs : list A) (x : A) :
  length mask = length xs → In x (mask_select mask xs) →
  ∃ p, p < length xs ∧ nth p mask false = true ∧ nth p xs d = x.
Proof.
  intros Hlen Hin. rewrite (mask_select_take d) in Hin by assumption.
  unfold np_take in Hin. apply in_map_iff in Hin as (p & Hp & Hin).
  apply mask_positions_In in Hin as [Hlt Hm]. exists p. split; [lia | auto].
Qed.

Lemma column_or_nan_length (n : string) (F : DataFrame) :
  wf_frame F = true → length (column_or_nan n F) = length (index F).
Proof.
  intros Hwf. unfold column_or_nan. destruct (assoc n (columns F)) eqn:Ha.
  - eapply wf_frame_In; eauto using assoc_In.
  - apply length_replicate.
Qed.

(** A row of the reindexed stack comes from a row of one frame with the
    same label. *)
Lemma stacked_cell (frames : list DataFrame) (idx : list Z) (ps : list (option nat))
    (name : string) (p : nat) :
  (∀ F, In F frames → wf_frame F = true) →
  reindexer (flat_map index frames) idx = Ok ps →
  p < length idx → In (nth p idx 0%Z) (flat_map index frames) →
  ∃ F r, In F frames ∧ r < length (index F)
         ∧ nth r (index F) 0%Z = nth p idx 0%Z
         ∧ nth p (take_opt (flat_map (column_or_nan name) frames) ps) CNaN
           = nth r (column_or_nan name F) CNaN.
Proof.
  intros Hwf Hps Hp Hin.
  apply reindexer_found in Hps as [_ Hfound].
  destruct (Hfound p Hp Hin) as (q & Hq & Hqlt & Hqlab).
  destruct (flat_map_nth2 index (column_or_nan name) 0%Z CNaN frames)
    with (q := q) as (F & r & HF & Hr & Hlab & Hval).
  { intros F HF. symmetry. apply column_or_nan_length. auto. }
  { exact Hqlt. }
  exists F, r. repeat split; try assumption.
  - congruence.
  - now rewrite take_opt_nth, Hq.
Qed.

Lemma nth_replicate {A : Type} (x d : A) (n r : nat) :
  r < n → nth r (replicate n x) d = x.
Proof.
  intros Hr.
  assert (Hin : In (nth r (replicate n x) d) (replicate n x))
    by (apply nth_In; now rewrite length_replicate).
  apply list_elem_of_In, elem_of_replicate in Hin as [-> _]. reflexivity.
Qed.

Lemma concat_Ok (frames : list DataFrame) (stacked : DataFrame) :
  concat frames = Ok stacked →
  frames ≠ []
  ∧ stacked = {| index := flat_map index frames;
                 columns := map (fun n => (n, flat_map (column_or_nan n) frames))
                                (union_names frames) |}.
Proof. destruct frames; simpl; [discriminate|]. intros [= <-]. split; [discriminate | reflexivity]. Qed.

Lemma existsb_false {A : Type} (f : A → bool) (l : list A) (x : A) :
  existsb f l = false → In x l → f x = false.
Proof.
  intros Hf Hin. apply not_true_is_false. intros Hx.
  assert (existsb f l = true) by (apply existsb_exists; eauto). congruence.
Qed.

Section ScoreTable.
Context `{Sklearn}.

(** C1: when the held-out lists of the folds are pairwise disjoint and
    together hold every trajectory id of [data_original] (a table with
    unique row labels), the table that [build_cross_clust_mixt_cv] returns
    has the rows of [data_original] in their order and its columns
    unchanged; every row was in the test set of exactly one fold, whose
    number is in its "cv" column; and in each column [score_c], for [c] in
    [0, nb_traj_class), every row has a value that is not missing. *)
Theorem build_cross_clust_mixt_cv_score_table
    (data_original : DataFrame) (cv_list : list (list Z)) (nb_traj_class : Z)
    (labels : list Z) (ids : list cell) (s s' : rng)
    (gmm_cv : list (gmap Z fitted)) (data : DataFrame) :
  wf_frame data_original = true → NoDup (index data_original) →
  getattr data_original "id_traj" = Ok ids →
  folds_disjoint cv_list = true → folds_cover ids cv_list = true →
  build_cross_clust_mixt_cv data_original cv_list nb_traj_class labels s
  = Ok (gmm_cv, data, s') →
  index data = index data_original
  ∧ (∀ name col, getitem data_original name = Ok col → getitem data name = Ok col)
  ∧ (∃ cv_col,
       getitem data "cv" = Ok cv_col
       ∧ length cv_col = length (index data_original)
       ∧ ∀ p, p < length (index data_original) →
           ∃ i cv_index_i,
             cv_list !! i = Some cv_index_i
             ∧ held_out (nth p ids CNaN) cv_index_i = true
             ∧ nth p cv_col CNaN = CInt (Z.of_nat i)
             ∧ ∀ j cv_index_j,
                 cv_list !! j = Some cv_index_j →
                 held_out (nth p ids CNaN) cv_index_j = true → j = i)
  ∧ ∀ c, (0 <= c < nb_traj_class)%Z →
      ∃ col,
        getitem data (score_name c) = Ok col
        ∧ length col = length (index data_original)
        ∧ ∀ p, p < length (index data_original) → isna (nth p col CNaN) = false.
Proof.
  intros Hwf Hnd Hid Hdis Hcov Hrun.
  set (idx := index data_original) in *.
  set (classes := range 0 nb_traj_class).
  set (N := fold_names classes).
  pose proof (wf_getattr_length _ _ _ Hwf Hid) as Hidlen. fold idx in Hidlen.
  unfold build_cross_clust_mixt_cv in Hrun.
  apply mbind_Ok in Hrun as ([gmm_cv0 data_list] & s1 & Hloop & Hrun).
  apply mbind_Ok in Hrun as (out & s2 & Hjoin & Hrun).
  apply (mret_Ok (gmm_cv0, out)) in Hrun as [[= <- <-] ->].
  apply lift_Ok in Hjoin as [Hjoin ->].
  apply fold_loop_frames in Hloop as (frames & -> & Hframes). simpl in Hjoin.
  fold classes in Hframes.
  apply rbind_Ok in Hjoin as (stacked & Hconcat & Hjoin).
  apply rbind_Ok in Hjoin as (aligned & Hreindex & Hjoin).
  apply concat_Ok in Hconcat as [Hne ->].
  (* the frames of the folds *)
  assert (Hfacts : ∀ F, In F frames →
            ∃ k cv, cv_list !! k = Some cv
                    ∧ index F = mask_select (isin ids cv) idx
                    ∧ names F = N ∧ wf_frame F = true ∧ no_nan F
                    ∧ getitem F "cv"
                      = Ok (replicate (length (index F)) (CInt (Z.of_nat k)))).
  { intros F HF. destruct (fold_frames_In _ _ _ _ _ _ Hframes HF) as (k & cv & Hk & Hfold).
    destruct (fold_frame_facts _ _ _ _ _ _ Hwf Hid Hfold) as (h1 & h2 & h3 & h4 & h5).
    rewrite Z.add_0_l in h5. exists k, cv. repeat split; assumption. }
  rewrite (union_names_same N) in Hreindex
    by (auto; intros F HF; destruct (Hfacts F HF) as (? & ? & ? & ? & ? & ?); tauto).
  unfold reindex in Hreindex. cbn [index columns] in Hreindex.
  apply rbind_Ok in Hreindex as (ps & Hps & [= <-]).
  pose proof (reindexer_found _ _ _ Hps) as [Hpslen _]. fold idx in Hpslen.
  unfold join in Hjoin. cbn [index columns] in Hjoin.
  destruct (existsb _ _) eqn:Hoverlap in Hjoin; [discriminate|].
  injection Hjoin as <-. fold idx. rewrite join_pairs_same by assumption.
  cbn [index columns].
  (* a frame of a fold holds every row whose id is held out in the fold *)
  assert (Hrow : ∀ p, p < length idx → In (nth p idx 0%Z) (flat_map index frames)).
  { intros p Hp.
    destruct (folds_cover_row ids cv_list p Hcov ltac:(lia)) as (k & cv & Hk & Hheld).
    assert (HF : ∃ F, In F frames ∧ index F = mask_select (isin ids cv) idx).
    { clear - Hframes Hk Hwf Hid. revert Hframes Hk. generalize 0%Z.
      revert k frames. induction cv_list as [|cv0 cvs IH]; intros k frames i Hfr Hk;
        [discriminate|].
      destruct frames as [|F frames]; [contradiction|]. destruct Hfr as [HF Hfr].
      destruct k as [|k]; simpl in Hk.
      - injection Hk as ->. exists F. split; [now left|].
        now destruct (fold_frame_facts _ _ _ _ _ _ Hwf Hid HF) as (? & _).
      - destruct (IH _ _ _ Hfr Hk) as (F' & HF' & Hidx'). exists F'. split; [now right | auto]. }
    destruct HF as (F & HF & HFidx). apply in_flat_map. exists F. split; [assumption|].
    rewrite HFidx. apply mask_select_In_nth.
    - rewrite isin_length. exact Hidlen.
    - exact Hp.
    - rewrite isin_nth by lia. exact Hheld. }
  (* the columns of the frames, in the table returned *)
  assert (Hcol : ∀ name, In name N →
            ∃ col, getitem
                     {| index := map (fun pp : nat * option nat => nth (fst pp) idx 0%Z)
                                     (map (fun p => (p, Some p)) (seq 0 (length idx)));
                        columns :=
                          map (fun nc => (fst nc,
                                          map (fun pp : nat * option nat =>
                                                 nth (fst pp) (snd nc) CNaN)
                                              (map (fun p => (p, Some p))
                                                   (seq 0 (length idx)))))
                              (columns data_original)
                          ++ map (fun nc => (fst nc,
                                             take_opt (snd nc)
                                               (map snd
                                                  (map (fun p => (p, Some p))
                                                       (seq 0 (length idx))))))
                                 (map (fun nc => (fst nc, take_opt (snd nc) ps))
                                      (map (fun n => (n, flat_map (column_or_nan n) frames))
                                           N)) |} name = Ok col
                   ∧ length col = length idx
                   ∧ ∀ p, p < length idx →
                       ∃ F r k cv,
                         In F frames ∧ cv_list !! k = Some cv
                         ∧ held_out (nth p ids CNaN) cv = true
                         ∧ r < length (index F)
                         ∧ no_nan F
                         ∧ getitem F "cv"
                           = Ok (replicate (length (index F)) (CInt (Z.of_nat k)))
                         ∧ names F = N
                         ∧ nth p col CNaN = nth r (column_or_nan name F) CNaN).
  { intros name Hname.
    exists (take_opt (flat_map (column_or_nan name) frames) ps). split; [|split].
    - unfold getitem. cbn [columns]. rewrite assoc_app.
      rewrite (assoc_map_snd
                 (fun c => map (fun pp : nat * option nat => nth (fst pp) c CNaN)
                               (map (fun p => (p, Some p)) (seq 0 (length idx))))).
      rewrite (assoc_None name (columns data_original)).
      2:{ apply (existsb_false _ _ name Hoverlap).
          unfold names. cbn [columns]. rewrite !map_map. simpl. rewrite map_id.
          exact Hname. }
      simpl.
      rewrite (assoc_map_snd
                 (fun c => take_opt c (map snd (map (fun p => (p, Some p))
                                                    (seq 0 (length idx)))))).
      rewrite (assoc_map_snd (fun c => take_opt c ps)).
      rewrite (assoc_map_key (fun n => flat_map (column_or_nan n) frames)) by exact Hname.
      simpl. f_equal. rewrite map_map. simpl.
      rewrite <- Hpslen, <- (take_opt_length (flat_map (column_or_nan name) frames) ps).
      apply take_opt_all.
    - now rewrite take_opt_length.
    - intros p Hp.
      destruct (stacked_cell frames idx ps name p) as (F & r & HF & Hr & Hlab & Hval);
        auto.
      { intros F HF. destruct (Hfacts F HF) as (? & ? & ? & ? & ? & ? & ?). tauto. }
      destruct (Hfacts F HF) as (k & cv & Hk & HFidx & HFnames & HFwf & HFnan & HFcv).
      exists F, r, k, cv. repeat split; try assumption.
      assert (Hin : In (nth p idx 0%Z) (index F)).
      { rewrite <- Hlab. now apply nth_In. }
      rewrite HFidx in Hin.
      apply (mask_select_In_inv 0%Z) in Hin as (p' & Hp' & Hm & Heq);
        [|rewrite isin_length; exact Hidlen].
      assert (p' = p) as ->.
      { apply (proj1 (NoDup_nth idx 0%Z) (proj1 (NoDup_ListNoDup _) Hnd)); auto. }
      rewrite isin_nth in Hm by lia. exact Hm. }
  split; [|split; [|split]].
  - rewrite map_map. simpl. apply map_nth_seq.
  - intros name col Hcol0. unfold getitem in Hcol0 |- *. cbn [columns].
    destruct (assoc name (columns data_original)) as [c|] eqn:Hc; [|discriminate].
    injection Hcol0 as ->. rewrite assoc_app.
    rewrite (assoc_map_snd
               (fun c => map (fun pp : nat * option nat => nth (fst pp) c CNaN)
                             (map (fun p => (p, Some p)) (seq 0 (length idx))))).
    rewrite Hc. simpl. f_equal. rewrite map_map. simpl.
    pose proof (wf_frame_In _ _ _ Hwf (assoc_In _ _ _ Hc)) as Hclen.
    fold idx in Hclen. rewrite <- Hclen. apply map_nth_seq.
  - destruct (Hcol "cv"%string) as (cv_col & Hget & Hlen & Hcells).
    { unfold N, fold_names. apply fold_add_name_In. left. now left. }
    exists cv_col. split; [assumption|]. split; [assumption|].
    intros p Hp.
    destruct (Hcells p Hp) as (F & r & k & cv & HF & Hk & Hheld & Hr & _ & HFcv & _ & Hval).
    exists k, cv. repeat split; try assumption.
    + rewrite Hval. unfold column_or_nan. unfold getitem in HFcv.
      destruct (assoc "cv" (columns F)); [|discriminate]. injection HFcv as ->.
      now apply nth_replicate.
    + intros j cv_j Hj Hheldj.
      eapply (folds_disjoint_unique cv_list); eassumption.
  - intros c Hc.
    destruct (Hcol (score_name c)) as (col & Hget & Hlen & Hcells).
    { unfold N, fold_names. apply fold_add_name_In. right. apply in_map.
      unfold classes, range. apply list_elem_of_In, elem_of_seqZ. lia. }
    exists col. split; [assumption|]. split; [assumption|].
    intros p Hp.
    destruct (Hcells p Hp) as (F & r & k & cv & HF & _ & _ & Hr & HFnan & _ & HFnames & Hval).
    rewrite Hval. unfold column_or_nan.
    destruct (assoc (score_name c) (columns F)) as [col'|] eqn:Hcol'.
    + apply (HFnan _ _ (assoc_In _ _ _ Hcol')). apply nth_In.
      destruct (Hfacts F HF) as (? & ? & ? & ? & ? & HFwf & ?).
      rewrite (wf_frame_In _ _ _ HFwf (assoc_In _ _ _ Hcol')). exact Hr.
    + exfalso. destruct (names_getitem F (score_name c)) as (c' & Hc').
      { rewrite HFnames. unfold N, fold_names. apply fold_add_name_In. right.
        apply in_map. unfold classes, range. apply list_elem_of_In, elem_of_seqZ. lia. }
      unfold getitem in Hc'. rewrite Hcol' in Hc'. discriminate.
Qed.

End ScoreTable.

Lemma build_cross_clust_mixt_cv_score_table_witness :
  ∃ gmm_cv data s',
    @build_cross_clust_mixt_cv toy ex_points ex_cv_list 2 ex_labels 0%nat
    = Ok (gmm_cv, data, s')
    ∧ index data = index ex_points
    ∧ (∀ name col, getitem ex_points name = Ok col → getitem data name = Ok col)
    ∧ (∃ cv_col,
         getitem data "cv" = Ok cv_col
         ∧ length cv_col = length (index ex_points)
         ∧ ∀ p, p < length (index ex_points) →
             ∃ i cv_index_i,
               ex_cv_list !! i = Some cv_index_i
               ∧ held_out
                   (nth p (map CInt [0; 1; 2; 3; 0; 1; 2; 3; 0; 1; 2; 3]%Z) CNaN)
                   cv_index_i = true
               ∧ nth p cv_col CNaN = CInt (Z.of_nat i)
               ∧ ∀ j cv_index_j,
                   ex_cv_list !! j = Some cv_index_j →
                   held_out
                     (nth p (map CInt [0; 1; 2; 3; 0; 1; 2; 3; 0; 1; 2; 3]%Z) CNaN)
                     cv_index_j = true → j = i)
    ∧ ∀ c, (0 <= c < 2)%Z →
        ∃ col,
          getitem data (score_name c) = Ok col
          ∧ length col = length (index ex_points)
          ∧ ∀ p, p < length (index ex_points) → isna (nth p col CNaN) = false.
Proof.
  do 3 eexists. split; [vm_compute; reflexivity|].
  refine (build_cross_clust_mixt_cv_score_table (H := toy)
            ex_points ex_cv_list 2 ex_labels
            (map CInt [0; 1; 2; 3; 0; 1; 2; 3; 0; 1; 2; 3]%Z) 0%nat _ _ _
            eq_refl NoDup_seqZ_100_12 eq_refl eq_refl eq_refl _).
  vm_compute. reflexivity.
Defined.

(* ================================================================= *)
(** ** What the class loop writes in a score column *)

Lemma combine_fst {A B : Type} (l : list A) :
  ∀ l' : list B, length l' = length l → map fst (combine l l') = l.
Proof.
  induction l as [|a l IH]; intros [|b l']; simpl; try reflexivity; try discriminate.
  intros [= Hlen]. now rewrite IH.
Qed.

Section Broadcast.
Context `{Sklearn}.

Lemma apply_scores_snoc (df : DataFrame) (cxs : list (Z * cell)) (cx : Z * cell) :
  apply_scores df (cxs ++ [cx])
  = setitem_scalar (apply_scores df cxs) (score_name (fst cx)) (snd cx).
Proof. unfold apply_scores. now rewrite fold_left_app. Qed.

(** After the assignments, the column of a class that was assigned holds
    one of the assigned values on every row. *)
Lemma apply_scores_getitem (df : DataFrame) (cxs : list (Z * cell)) (c : Z) :
  In c (map fst cxs) →
  ∃ x, In x (map snd cxs)
       ∧ getitem (apply_scores df cxs) (score_name c)
         = Ok (replicate (length (index df)) x).
Proof.
  induction cxs as [|[c' x'] cxs IH] using rev_ind; [intros []|].
  rewrite !map_app, apply_scores_snoc. simpl. intros Hin.
  destruct (String.eqb (score_name c) (score_name c')) eqn:Hname.
  - exists x'. split; [apply in_app_iff; right; now left|].
    apply String.eqb_eq in Hname. unfold getitem, setitem_scalar. cbn [columns index].
    rewrite Hname, assoc_set_eq, apply_scores_index. reflexivity.
  - apply in_app_iff in Hin as [Hin | [<- | []]].
    + destruct (IH Hin) as (x & Hx & Hget). exists x.
      split; [apply in_app_iff; now left|].
      unfold getitem, setitem_scalar in Hget |- *. cbn [columns index].
      now rewrite assoc_set_ne by exact Hname.
    + rewrite String.eqb_refl in Hname. discriminate.
Qed.

(** In the frame of a fold, the column of every class holds one and the
    same value on all the rows: the mean of the per-sample log-likelihoods
    of the test array under a fitted model. *)
Lemma class_loop_broadcast (labels : list Z) (train test : ndarray) (classes : list Z)
    (gmms gmms' : gmap Z fitted) (F F' : DataFrame) (s s' : rng) (c : Z) :
  class_loop labels train test classes gmms F s = Ok (gmms', F', s') →
  In c classes →
  ∃ gmm l,
    gmm_score_samples gmm test = Ok l
    ∧ getitem F' (score_name c)
      = Ok (replicate (length (index F)) (float_cell (mean l))).
Proof.
  intros Hrun Hc. apply class_loop_scored in Hrun as (cells & Hlen & Hcells & ->).
  destruct (apply_scores_getitem F (combine classes cells) c) as (x & Hx & Hget).
  { rewrite combine_fst by exact Hlen. exact Hc. }
  apply in_map_iff in Hx as ([c' x'] & <- & Hx). apply in_combine_r in Hx.
  rewrite Forall_forall in Hcells.
  destruct (Hcells x' (proj2 (list_elem_of_In _ _) Hx)) as (gmm & l & Hl & ->).
  exists gmm, l. auto.
Qed.

End Broadcast.

(** C4, at a concrete run: the six test points of fold 0 have the
    per-point log-likelihoods 1, 3, 5, 7, 9 and 11 under the model of either
    class; [gmm.score] returns their mean, 6 (written 36/6), and this one
    value is what the rows of fold 0 hold in [score_0] and [score_1], and
    likewise 7 (42/6) for the rows of fold 1. *)
Example build_cross_clust_mixt_cv_broadcasts_mean :
  ∃ train test F0 gmm_cv data s',
    train_test_split ex_points [0; 2]%Z 0 = Ok (train, test, F0)
    ∧ @gmm_score_samples toy 2%Z test = Ok [1; 3; 5; 7; 9; 11]%Q
    ∧ @gmm_score toy 2%Z test = Ok (Some (36 # 6)%Q)
    ∧ @build_cross_clust_mixt_cv toy ex_points ex_cv_list 2 ex_labels 0%nat
      = Ok (gmm_cv, data, s')
    ∧ gmm_cv !! 0 = Some (<[1%Z := Fitted (H := toy) 2%Z]>
                            (<[0%Z := Fitted (H := toy) 2%Z]> ∅))
    ∧ getitem data "cv"
      = Ok (map CInt [0; 1; 0; 1; 0; 1; 0; 1; 0; 1; 0; 1]%Z)
    ∧ getitem data "score_0"
      = Ok (map CFloat [36 # 6; 42 # 6; 36 # 6; 42 # 6; 36 # 6; 42 # 6;
                        36 # 6; 42 # 6; 36 # 6; 42 # 6; 36 # 6; 42 # 6]%Q)
    ∧ getitem data "score_1"
      = Ok (map CFloat [36 # 6; 42 # 6; 36 # 6; 42 # 6; 36 # 6; 42 # 6;
                        36 # 6; 42 # 6; 36 # 6; 42 # 6; 36 # 6; 42 # 6]%Q).
Proof.
  do 6 eexists. split; [vm_compute; reflexivity|].
  split; [vm_compute; reflexivity|]. split; [vm_compute; reflexivity|].
  split; [vm_compute; reflexivity|].
  repeat split; vm_compute; reflexivity.
Qed.

(* ================================================================= *)
(** * Further properties of the five functions *)
(* ================================================================= *)
(** ** train_test_split: missing columns, and the held-out list as a set *)

Lemma assoc_Some_names {A : Type} (n : string) (l : list (string * A)) :
  In n (map fst l) ↔ ∃ v, assoc n l = Some v.
Proof.
  split.
  - induction l as [|[k v] l IH]; simpl; [intros []|].
    intros Hin. destruct (String.eqb n k) eqn:Hk; [eauto|].
    destruct Hin as [<- | Hin]; [rewrite String.eqb_refl in Hk; discriminate | auto].
  - intros (v & Hv). eapply assoc_names; eassumption.
Qed.

Lemma train_test_split_by_columns (data_original : DataFrame) (cv_index_i : list Z) (i : Z) :
  match assoc "id_traj" (columns data_original),
        assoc "lons" (columns data_original),
        assoc "lats" (columns data_original) with
  | None, _, _ => train_test_split data_original cv_index_i i = Raise AttributeError
  | Some _, Some _, Some _ => ∃ out, train_test_split data_original cv_index_i i = Ok out
  | Some _, _, _ => train_test_split data_original cv_index_i i = Raise KeyError
  end.
Proof.
  unfold train_test_split, getattr.
  destruct (assoc "id_traj" (columns data_original)) as [ids|] eqn:Hids;
    [|reflexivity].
  cbn [mbind result_bind]. unfold values.
  rewrite !rmap_getitem_df_mask. cbn [rmap]. unfold getitem. rewrite Hids.
  destruct (assoc "lons" (columns data_original)) as [lons|];
    destruct (assoc "lats" (columns data_original)) as [lats|];
    cbn [mbind result_bind]; eauto.
Qed.

(** X1: [train_test_split] returns exactly when the table has the three
    columns "id_traj", "lons" and "lats"; without "id_traj" it raises
    AttributeError (the attribute access [data_original.id_traj]), and with
    "id_traj" but without "lons" or "lats" it raises KeyError. *)
Theorem train_test_split_missing_column
    (data_original : DataFrame) (cv_index_i : list Z) (i : Z) :
  ((∃ out, train_test_split data_original cv_index_i i = Ok out)
   ↔ In "id_traj"%string (names data_original)
     ∧ In "lons"%string (names data_original)
     ∧ In "lats"%string (names data_original))
  ∧ (train_test_split data_original cv_index_i i = Raise AttributeError
     ↔ ¬ In "id_traj"%string (names data_original))
  ∧ (train_test_split data_original cv_index_i i = Raise KeyError
     ↔ In "id_traj"%string (names data_original)
       ∧ ¬ (In "lons"%string (names data_original)
            ∧ In "lats"%string (names data_original))).
Proof.
  pose proof (train_test_split_by_columns data_original cv_index_i i) as Hrun.
  unfold names. rewrite !assoc_Some_names.
  assert (Hs : ∀ o : option (list cell), (∃ v, o = Some v) ↔ o ≠ None).
  { intros [v|]; split; try congruence; eauto. intros (? & [=]). }
  assert (Hr : ∀ e, (∃ out, Raise e = Ok out :> result (ndarray * ndarray * DataFrame))
                    ↔ False).
  { intros e. split; [intros (? & [=]) | intros []]. }
  rewrite !Hs.
  destruct (assoc "id_traj" (columns data_original)) as [ids|];
    destruct (assoc "lons" (columns data_original)) as [lons|];
    destruct (assoc "lats" (columns data_original)) as [lats|];
    try destruct Hrun as (out & Hrun); rewrite Hrun; rewrite ?Hr;
    (split; [|split]); split; intros Hyp;
    try discriminate; try tauto; eauto;
    try (exfalso; apply Hyp; discriminate);
    try (exfalso; apply (proj2 Hyp); split; discriminate);
    try (split; [discriminate | intros [Hn1 Hn2]; congruence]).
Qed.

Lemma isin_same_elements (col : list cell) (ids1 ids2 : list Z) :
  (∀ z, In z ids1 ↔ In z ids2) → isin col ids1 = isin col ids2.
Proof.
  intros Hsame. unfold isin. apply map_ext. intros c.
  apply Bool.eq_true_iff_eq. rewrite !existsb_exists.
  split; intros (z & Hz & Hc); exists z; split; auto; now apply Hsame.
Qed.

(** X2: [train_test_split] reads the held-out list as a set: two lists with
    the same trajectory ids, in any order and with any repetition, give the
    same train array, test array and test frame. *)
Theorem train_test_split_held_out_set
    (data_original : DataFrame) (cv1 cv2 : list Z) (i : Z) :
  (∀ z, In z cv1 ↔ In z cv2) →
  train_test_split data_original cv1 i = train_test_split data_original cv2 i.
Proof.
  intros Hsame. unfold train_test_split.
  destruct (getattr data_original "id_traj") as [ids|e]; [|reflexivity].
  cbn [mbind result_bind]. now rewrite (isin_same_elements ids cv1 cv2 Hsame).
Qed.

Lemma train_test_split_held_out_set_witness :
  train_test_split ex_points [0; 2]%Z 0 = train_test_split ex_points [2; 0; 2]%Z 0.
Proof.
  apply (train_test_split_held_out_set ex_points [0; 2]%Z [2; 0; 2]%Z 0).
  intros z. simpl. tauto.
Defined.

Lemma mask_select_none {A : Type} (mask : list bool) :
  (∀ b, In b mask → b = false) → ∀ xs : list A, mask_select mask xs = [].
Proof.
  induction mask as [|b mask IH]; intros Hall [|x xs]; simpl; try reflexivity.
  rewrite (Hall b) by (now left). apply IH. intros b' Hb'. apply Hall. now right.
Qed.

Lemma mask_select_every {A : Type} (mask : list bool) :
  (∀ b, In b mask → b = true) →
  ∀ xs : list A, length mask = length xs → mask_select mask xs = xs.
Proof.
  induction mask as [|b mask IH]; intros Hall [|x xs]; simpl; try reflexivity;
    try discriminate.
  intros [= Hlen]. rewrite (Hall b) by (now left). f_equal.
  apply IH; [|exact Hlen]. intros b' Hb'. apply Hall. now right.
Qed.

Lemma rows_of_length (n : nat) (cols : list (list cell)) : length (rows_of n cols) = n.
Proof. unfold rows_of. now rewrite length_map, length_seq. Qed.

(** X3: with an empty held-out list, [train_test_split] puts every row of
    the table in the train array: the test array and the test frame have no
    row at all. *)
Theorem train_test_split_nothing_held_out
    (data_original : DataFrame) (i : Z) (train test : ndarray) (data_ : DataFrame) :
  wf_frame data_original = true →
  train_test_split data_original [] i = Ok (train, test, data_) →
  values data_original ["lons"; "lats"; "id_traj"]%string = Ok train
  ∧ length train = length (index data_original)
  ∧ test = []
  ∧ data_ = {| index := []; columns := [("cv"%string, [])] |}.
Proof.
  intros Hwf Hrun.
  apply train_test_split_Ok in Hrun as (ids & Hid & Htrain & Htest & ->).
  pose proof (wf_getattr_length _ _ _ Hwf Hid) as Hlen.
  assert (Hnone : ∀ b, In b (isin ids []) → b = false).
  { intros b Hb. unfold isin in Hb. apply in_map_iff in Hb as (c & <- & _). reflexivity. }
  assert (Hall : ∀ b, In b (logical_not (isin ids [])) → b = true).
  { intros b Hb. unfold logical_not in Hb. apply in_map_iff in Hb as (b' & <- & Hb').
    now rewrite (Hnone b' Hb'). }
  rewrite values_df_mask in Htrain, Htest
    by (rewrite ?logical_not_length, ?isin_length; assumption).
  apply rbind_Ok in Htrain as (all3 & Hall3 & [= <-]).
  apply rbind_Ok in Htest as (all2 & Hall2 & [= <-]).
  assert (Hlen3 : length all3 = length (index data_original)).
  { unfold values in Hall3. apply rbind_Ok in Hall3 as (cols & _ & [= <-]).
    apply rows_of_length. }
  unfold mask_positions.
  rewrite (mask_select_none (isin ids [])) by assumption.
  rewrite (mask_select_none (isin ids [])) by assumption.
  rewrite (mask_select_every (logical_not (isin ids [])))
    by (rewrite ?length_seq; auto).
  rewrite logical_not_length, isin_length, Hlen, <- Hlen3.
  rewrite np_take_all.
  repeat split; try assumption; reflexivity.
Qed.

Lemma train_test_split_nothing_held_out_witness :
  ∃ train,
    values ex_points ["lons"; "lats"; "id_traj"]%string = Ok train
    ∧ length train = length (index ex_points)
    ∧ ([] : ndarray) = []
    ∧ {| index := []; columns := [("cv"%string, [])] |}
      = {| index := []; columns := [("cv"%string, [])] |}.
Proof.
  eexists.
  refine (train_test_split_nothing_held_out ex_points 7 _ [] _ eq_refl _).
  vm_compute. reflexivity.
Defined.

(* ================================================================= *)
(** ** nb_clust_with_bic_: failures of a fit, and the triple returned *)

Section BicRun.
Context `{Sklearn}.

Lemma bic_loop_raise coord_tc ncs :
  ∀ acc s e,
    fit_candidates coord_tc ncs s = Raise e →
    bic_loop coord_tc ncs acc s = Raise e.
Proof.
  induction ncs as [|nc ncs IH]; intros acc s e Hrun; [discriminate|].
  cbn [fit_candidates bic_loop] in Hrun |- *.
  unfold mbind, M_bind in Hrun |- *. fold (@M_bind H) in *.
  destruct (fit nc coord_tc s) as [[g s1]|e1]; [|now injection Hrun as ->].
  apply IH.
  destruct (fit_candidates coord_tc ncs s1) as [[rest s2]|e2];
    [discriminate | now injection Hrun as ->].
Qed.

(** A candidate of a run was fitted for its count, and its BIC is the BIC
    of its model on the coordinates. *)
Lemma fit_candidates_In coord_tc ncs :
  ∀ s tr s' nc q g,
    fit_candidates coord_tc ncs s = Ok (tr, s') → In (nc, q, g) tr →
    q = gmm_bic g coord_tc ∧ ∃ s1 s2, gmm_fit nc coord_tc s1 = Ok (g, s2).
Proof.
  induction ncs as [|nc0 ncs IH]; intros s tr s' nc q g Hrun Hin;
    cbn [fit_candidates] in Hrun.
  - apply (mret_Ok []) in Hrun as [-> _]. destruct Hin.
  - apply mbind_Ok in Hrun as (g0 & s1 & Hfit & Hrun).
    apply mbind_Ok in Hrun as (rest & s2 & Hrest & Hrun).
    apply (mret_Ok ((nc0, gmm_bic g0 coord_tc, g0) :: rest)) in Hrun as [-> ->].
    destruct Hin as [[= <- <- <-] | Hin]; [|eapply IH; eassumption].
    split; [reflexivity|]. exists s, s1. exact Hfit.
Qed.

(** X4: [nb_clust_with_bic_] catches nothing.  Its candidate counts are
    fitted one after the other on the random generator as the previous fit
    left it; when all these fits succeed the function returns, with the
    generator as the last fit left it, and when one of them raises, the
    function raises that same exception. *)
Theorem nb_clust_with_bic_propagates_failure
    (coord_tc : ndarray) (min_nc max_nc : Z) (s : rng) :
  match fit_candidates coord_tc
          (range min_nc (Z.min max_nc (Z.of_nat (length coord_tc)))) s with
  | Ok (tr, s') =>
      nb_clust_with_bic_ coord_tc min_nc max_nc s
      = Ok (fold_left min_by_bic (map entry tr) ((-1)%Z, BInf, NoModel), s')
  | Raise e => nb_clust_with_bic_ coord_tc min_nc max_nc s = Raise e
  end.
Proof.
  unfold nb_clust_with_bic_.
  destruct (fit_candidates coord_tc _ s) as [[tr s']|e] eqn:Hrun.
  - now apply bic_loop_total.
  - now apply bic_loop_raise.
Qed.

(** A run that returns a model: the model was fitted for the count
    returned, a candidate count, and the BIC returned is its BIC. *)
Lemma nb_clust_with_bic_fitted
    (coord_tc : ndarray) (min_nc max_nc : Z) (s s' : rng)
    (nc : Z) (bic : bicv) (g : GaussianMixture) :
  nb_clust_with_bic_ coord_tc min_nc max_nc s = Ok (nc, bic, Fitted g, s') →
  (min_nc <= nc < Z.min max_nc (Z.of_nat (length coord_tc)))%Z
  ∧ bic = BFin (gmm_bic g coord_tc)
  ∧ ∃ s1 s2, gmm_fit nc coord_tc s1 = Ok (g, s2).
Proof.
  intros Hrun.
  destruct (Z_le_gt_dec (Z.min max_nc (Z.of_nat (length coord_tc))) min_nc) as [Hle|Hgt].
  { unfold nb_clust_with_bic_ in Hrun. rewrite range_nil in Hrun by exact Hle.
    now apply (mret_Ok ((-1)%Z, BInf, NoModel)) in Hrun as [[=] _]. }
  apply nb_clust_with_bic_run in Hrun as (tr & Hfit & Hmap & Hr).
  unfold range in Hmap.
  destruct (nb_clust_with_bic_pick tr min_nc
              (Z.min max_nc (Z.of_nat (length coord_tc)) - min_nc)
              ltac:(lia) Hmap) as [Hin _].
  rewrite <- Hr in Hin. apply in_map_iff in Hin as ([[k q] g'] & Hc & Hin).
  unfold entry in Hc. simpl in Hc. injection Hc as -> <- <-.
  destruct (fit_candidates_In _ _ _ _ _ _ _ _ Hfit Hin) as (-> & s1 & s2 & Hg).
  split; [|split; [reflexivity | eauto]].
  assert (Hnc : nc ∈ seqZ min_nc (Z.min max_nc (Z.of_nat (length coord_tc)) - min_nc)).
  { rewrite <- Hmap. apply list_elem_of_In.
    apply (in_map (fun c => fst (fst c)) _ (nc, gmm_bic g' coord_tc, g')). exact Hin. }
  apply elem_of_seqZ in Hnc. lia.
Qed.

(** X5: the triple that [nb_clust_with_bic_] returns is consistent.  Either
    there was no candidate to fit and it is the sentinel [(-1, np.inf, [])],
    with the random generator untouched; or the model returned was fitted
    with the number of components returned, and the BIC returned is the BIC
    of that model on the coordinates given. *)
Theorem nb_clust_with_bic_triple
    (coord_tc : ndarray) (min_nc max_nc : Z) (s s' : rng)
    (nc : Z) (bic : bicv) (gmm : fitted) :
  nb_clust_with_bic_ coord_tc min_nc max_nc s = Ok (nc, bic, gmm, s') →
  ((Z.min max_nc (Z.of_nat (length coord_tc)) <= min_nc)%Z
   ∧ nc = (-1)%Z ∧ bic = BInf ∧ gmm = NoModel ∧ s' = s)
  ∨ ((min_nc < Z.min max_nc (Z.of_nat (length coord_tc)))%Z
     ∧ ∃ g s1 s2,
         gmm = Fitted g
         ∧ gmm_fit nc coord_tc s1 = Ok (g, s2)
         ∧ bic = BFin (gmm_bic g coord_tc)).
Proof.
  intros Hrun.
  destruct (Z_le_gt_dec (Z.min max_nc (Z.of_nat (length coord_tc))) min_nc) as [Hle|Hgt].
  - left. unfold nb_clust_with_bic_ in Hrun. rewrite range_nil in Hrun by exact Hle.
    apply (mret_Ok ((-1)%Z, BInf, NoModel)) in Hrun as [[= -> -> ->] ->]. auto.
  - right. split; [lia|]. destruct gmm as [|g].
    + exfalso. unfold nb_clust_with_bic_ in Hrun.
      apply bic_loop_fold in Hrun as (tr & _ & Hmap & Hr). unfold range in Hmap.
      destruct (nb_clust_with_bic_pick tr min_nc
                  (Z.min max_nc (Z.of_nat (length coord_tc)) - min_nc)
                  ltac:(lia) Hmap) as [Hin _].
      rewrite <- Hr in Hin. apply in_map_iff in Hin as (c & Hc & _). discriminate.
    + destruct (nb_clust_with_bic_fitted _ _ _ _ _ _ _ _ Hrun) as (_ & -> & s1 & s2 & Hg).
      exists g, s1, s2. auto.
Qed.

End BicRun.

Lemma nb_clust_with_bic_triple_witness :
  ((Z.min 20 (Z.of_nat (length [pt 1 1; pt 2 1; pt 3 2; pt 4 2; pt 5 3; pt 6 3])) <= 2)%Z
   ∧ 2%Z = (-1)%Z ∧ BFin 0 = BInf ∧ Fitted (H := toy) 2%Z = NoModel ∧ 4%nat = 0%nat)
  ∨ ((2 < Z.min 20 (Z.of_nat (length [pt 1 1; pt 2 1; pt 3 2; pt 4 2; pt 5 3; pt 6 3])))%Z
     ∧ ∃ g s1 s2,
         Fitted (H := toy) 2%Z = Fitted g
         ∧ @gmm_fit toy 2 [pt 1 1; pt 2 1; pt 3 2; pt 4 2; pt 5 3; pt 6 3] s1 = Ok (g, s2)
         ∧ BFin 0 = BFin (@gmm_bic toy g [pt 1 1; pt 2 1; pt 3 2; pt 4 2; pt 5 3; pt 6 3])).
Proof.
  apply (nb_clust_with_bic_triple (H := toy)
           [pt 1 1; pt 2 1; pt 3 2; pt 4 2; pt 5 3; pt 6 3] 2 20 0%nat 4%nat
           2%Z (BFin 0) (Fitted (H := toy) 2%Z)).
  reflexivity.
Defined.

(* ================================================================= *)
(** ** build_cross_clust_mixt_cv: the models and the training sets of a run *)

Section BuildRun.
Context `{Sklearn}.

Lemma score_Fitted (gmm : fitted) (test : ndarray) (v : float) :
  score gmm test = Ok v → ∃ g, gmm = Fitted g.
Proof. destruct gmm as [|g]; simpl; [discriminate | eauto]. Qed.

(** A run of the class loop that returns found at least three training
    points for each class, and stored a fitted model under each class. *)
Lemma class_loop_models (labels : list Z) (train test : ndarray) (classes : list Z) :
  ∀ gmms F s gmms' F' s',
    class_loop labels train test classes gmms F s = Ok (gmms', F', s') →
    (∀ c, In c classes →
          3 ≤ length (class_coords labels c train)
          ∧ ∃ g nc coord_tc s1 s2,
              gmms' !! c = Some (Fitted g)
              ∧ (2 <= nc < 20)%Z ∧ (nc < Z.of_nat (length coord_tc))%Z
              ∧ gmm_fit nc coord_tc s1 = Ok (g, s2))
    ∧ (∀ c, ¬ In c classes → gmms' !! c = gmms !! c).
Proof.
  induction classes as [|c classes IH]; intros gmms F s gmms' F' s' Hrun.
  - apply (mret_Ok (gmms, F)) in Hrun as [[= <- <-] ->].
    split; [intros ? [] | reflexivity].
  - cbn [class_loop] in Hrun.
    apply mbind_Ok in Hrun as (coord_tc & s1 & Hcoord & Hrun).
    apply mbind_Ok in Hrun as ([[nc bic] gmm] & s2 & Hnb & Hrun).
    apply mbind_Ok in Hrun as (scores & s3 & Hscore & Hrun).
    apply lift_Ok in Hscore as [Hscore ->].
    destruct (score_Fitted _ _ _ Hscore) as (g & ->).
    apply IH in Hrun as [Hin Hout].
    destruct (nb_clust_with_bic_fitted _ _ _ _ _ _ _ _ Hnb) as (Hnc & _ & s1' & s2' & Hg).
    assert (Hthree : 3 ≤ length coord_tc) by lia.
    assert (Hcoords : 3 ≤ length (class_coords labels c train)).
    { destruct (10000 <? Z.of_nat (length (class_coords labels c train)))%Z eqn:Hbig.
      - apply Z.ltb_lt in Hbig. lia.
      - apply (mret_Ok (class_coords labels c train)) in Hcoord as [-> _].
        exact Hthree. }
    split.
    + intros c' [<- | Hc']; [|auto].
      split; [exact Hcoords|].
      destruct (in_dec Z.eq_dec c classes) as [Hi|Hni]; [now apply Hin|].
      rewrite Hout by exact Hni. rewrite lookup_insert_eq.
      exists g, nc, coord_tc, s1', s2'. repeat split; try assumption; lia.
    + intros c' Hnin. rewrite Hout by (intros Hc'; apply Hnin; now right).
      apply lookup_insert_ne. intros ->. apply Hnin. now left.
Qed.

(** A run of the fold loop that returns, fold by fold. *)
Lemma fold_loop_models (data_original : DataFrame) (nb_traj_class : Z) (labels : list Z)
    (cv_list : list (list Z)) :
  ∀ i gmm_cv data_list s gmm_cv' data_list' s',
    fold_loop data_original nb_traj_class labels i cv_list gmm_cv data_list s
    = Ok (gmm_cv', data_list', s') →
    ∃ dicts,
      gmm_cv' = gmm_cv ++ dicts
      ∧ length dicts = length cv_list
      ∧ ∀ k cv, cv_list !! k = Some cv →
          ∃ train test F0 d,
            train_test_split data_original cv (i + Z.of_nat k) = Ok (train, test, F0)
            ∧ dicts !! k = Some d
            ∧ (∀ c, In c (range 0 nb_traj_class) →
                    3 ≤ length (class_coords labels c train)
                    ∧ ∃ g nc coord_tc s1 s2,
                        d !! c = Some (Fitted g)
                        ∧ (2 <= nc < 20)%Z ∧ (nc < Z.of_nat (length coord_tc))%Z
                        ∧ gmm_fit nc coord_tc s1 = Ok (g, s2))
            ∧ (∀ c, ¬ In c (range 0 nb_traj_class) → d !! c = None).
Proof.
  induction cv_list as [|cv0 cv_list IH];
    intros i gmm_cv data_list s gmm_cv' data_list' s' Hrun.
  - apply (mret_Ok (gmm_cv, data_list)) in Hrun as [[= <- <-] ->].
    exists []. split; [now rewrite app_nil_r|]. split; [reflexivity|].
    intros k cv Hk. discriminate.
  - cbn [fold_loop] in Hrun.
    apply mbind_Ok in Hrun as ([[train test] F0] & s1 & Hsplit & Hrun).
    apply lift_Ok in Hsplit as [Hsplit ->].
    apply mbind_Ok in Hrun as ([gmms F] & s2 & Hclass & Hrun).
    apply class_loop_models in Hclass as [Hin Hout].
    apply IH in Hrun as (dicts & -> & Hlen & Hfolds).
    exists (gmms :: dicts). split; [now rewrite <- app_assoc|].
    split; [simpl; now rewrite Hlen|].
    intros [|k] cv Hk; simpl in Hk.
    + injection Hk as <-. exists train, test, F0, gmms.
      rewrite Z.add_0_r. split; [exact Hsplit|]. split; [reflexivity|].
      split; [exact Hin|]. intros c Hc. now rewrite Hout.
    + destruct (Hfolds k cv Hk) as (train' & test' & F0' & d & Hsplit' & Hd & Hd1 & Hd2).
      exists train', test', F0', d.
      replace (i + Z.of_nat (S k))%Z with (i + 1 + Z.of_nat k)%Z by lia. auto.
Qed.

Lemma build_cross_clust_mixt_cv_folds (data_original : DataFrame)
    (cv_list : list (list Z)) (nb_traj_class : Z) (labels : list Z) (s s' : rng)
    (gmm_cv : list (gmap Z fitted)) (data : DataFrame) :
  build_cross_clust_mixt_cv data_original cv_list nb_traj_class labels s
  = Ok (gmm_cv, data, s') →
  ∃ data_list,
    fold_loop data_original nb_traj_class labels 0 cv_list [] [] s
    = Ok (gmm_cv, data_list, s').
Proof.
  unfold build_cross_clust_mixt_cv. intros Hrun.
  apply mbind_Ok in Hrun as ([gmm_cv0 data_list] & s1 & Hloop & Hrun).
  apply mbind_Ok in Hrun as (out & s2 & Hjoin & Hrun).
  apply (mret_Ok (gmm_cv0, out)) in Hrun as [[= <- <-] ->].
  apply lift_Ok in Hjoin as [_ ->]. eauto.
Qed.

Lemma range_In (lo hi c : Z) : In c (range lo hi) ↔ (lo <= c < hi)%Z.
Proof. unfold range. rewrite <- list_elem_of_In, elem_of_seqZ. lia. Qed.

(** X6: the list of models that [build_cross_clust_mixt_cv] returns has one
    dictionary per fold, and each dictionary holds a model under each class
    0 .. nb_traj_class-1 and nothing under any other key.  Each of these
    models was fitted with between 2 and 19 components, fewer than the
    points it was fitted on. *)
Theorem build_cross_clust_mixt_cv_models
    (data_original : DataFrame) (cv_list : list (list Z)) (nb_traj_class : Z)
    (labels : list Z) (s s' : rng)
    (gmm_cv : list (gmap Z fitted)) (data : DataFrame) :
  build_cross_clust_mixt_cv data_original cv_list nb_traj_class labels s
  = Ok (gmm_cv, data, s') →
  length gmm_cv = length cv_list
  ∧ ∀ k d, gmm_cv !! k = Some d →
      ∀ c, ((0 <= c < nb_traj_class)%Z →
            ∃ g nc coord_tc s1 s2,
              d !! c = Some (Fitted g)
              ∧ (2 <= nc < 20)%Z ∧ (nc < Z.of_nat (length coord_tc))%Z
              ∧ gmm_fit nc coord_tc s1 = Ok (g, s2))
           ∧ (¬ (0 <= c < nb_traj_class)%Z → d !! c = None).
Proof.
  intros Hrun. apply build_cross_clust_mixt_cv_folds in Hrun as (data_list & Hloop).
  apply fold_loop_models in Hloop as (dicts & Hcv & Hlen & Hfolds).
  simpl in Hcv. subst dicts. split; [exact Hlen|].
  intros k d Hk c.
  destruct (lookup_lt_is_Some_2 cv_list k) as (cv & Hcv).
  { rewrite <- Hlen. eapply lookup_lt_Some. exact Hk. }
  destruct (Hfolds k cv Hcv) as (train & test & F0 & d' & _ & Hd' & Hin & Hout).
  rewrite Hk in Hd'. injection Hd' as <-.
  rewrite <- (range_In 0 nb_traj_class c). split; [intros Hc; apply (Hin c Hc) | apply Hout].
Qed.

(** X7: [build_cross_clust_mixt_cv] returns only when, in every fold, every
    class 0 .. nb_traj_class-1 has at least three training points: with
    fewer, no mixture is fitted for the class and the run stops on
    [gmm.score]. *)
Theorem build_cross_clust_mixt_cv_three_points
    (data_original : DataFrame) (cv_list : list (list Z)) (nb_traj_class : Z)
    (labels : list Z) (s s' : rng)
    (gmm_cv : list (gmap Z fitted)) (data : DataFrame) :
  build_cross_clust_mixt_cv data_original cv_list nb_traj_class labels s
  = Ok (gmm_cv, data, s') →
  ∀ k cv_index_k, cv_list !! k = Some cv_index_k →
    ∃ train test data_,
      train_test_split data_original cv_index_k (Z.of_nat k) = Ok (train, test, data_)
      ∧ ∀ c, (0 <= c < nb_traj_class)%Z →
             3 ≤ length (class_coords labels c train).
Proof.
  intros Hrun k cv Hk.
  apply build_cross_clust_mixt_cv_folds in Hrun as (data_list & Hloop).
  apply fold_loop_models in Hloop as (dicts & _ & _ & Hfolds).
  destruct (Hfolds k cv Hk) as (train & test & F0 & d & Hsplit & _ & Hin & _).
  rewrite Z.add_0_l in Hsplit. exists train, test, F0. split; [exact Hsplit|].
  intros c Hc. apply Hin. now apply range_In.
Qed.

End BuildRun.

Lemma build_cross_clust_mixt_cv_models_witness :
  ∃ gmm_cv data s',
    @build_cross_clust_mixt_cv toy ex_points ex_cv_list 2 ex_labels 0%nat
    = Ok (gmm_cv, data, s')
    ∧ length gmm_cv = length ex_cv_list
    ∧ ∀ k d, gmm_cv !! k = Some d →
        ∀ c, ((0 <= c < 2)%Z →
              ∃ g nc coord_tc s1 s2,
                d !! c = Some (Fitted (H := toy) g)
                ∧ (2 <= nc < 20)%Z ∧ (nc < Z.of_nat (length coord_tc))%Z
                ∧ @gmm_fit toy nc coord_tc s1 = Ok (g, s2))
             ∧ (¬ (0 <= c < 2)%Z → d !! c = None).
Proof.
  assert (Hok : match @build_cross_clust_mixt_cv toy ex_points ex_cv_list 2 ex_labels 0%nat with
                | Ok _ => true
                | Raise _ => false
                end = true) by (vm_compute; reflexivity).
  destruct (@build_cross_clust_mixt_cv toy ex_points ex_cv_list 2 ex_labels 0%nat)
    as [[[gmm_cv data] s']|e] eqn:Hrun; [|discriminate Hok].
  exists gmm_cv, data, s'. split; [reflexivity|].
  exact (build_cross_clust_mixt_cv_models (H := toy)
           ex_points ex_cv_list 2 ex_labels 0%nat s' gmm_cv data Hrun).
Defined.

Lemma build_cross_clust_mixt_cv_three_points_witness :
  ∃ gmm_cv data s',
    @build_cross_clust_mixt_cv toy ex_points ex_cv_list 2 ex_labels 0%nat
    = Ok (gmm_cv, data, s')
    ∧ ∀ k cv_index_k, ex_cv_list !! k = Some cv_index_k →
        ∃ train test data_,
          train_test_split ex_points cv_index_k (Z.of_nat k) = Ok (train, test, data_)
          ∧ ∀ c, (0 <= c < 2)%Z → 3 ≤ length (class_coords ex_labels c train).
Proof.
  assert (Hok : match @build_cross_clust_mixt_cv toy ex_points ex_cv_list 2 ex_labels 0%nat with
                | Ok _ => true
                | Raise _ => false
                end = true) by (vm_compute; reflexivity).
  destruct (@build_cross_clust_mixt_cv toy ex_points ex_cv_list 2 ex_labels 0%nat)
    as [[[gmm_cv data] s']|e] eqn:Hrun; [|discriminate Hok].
  exists gmm_cv, data, s'. split; [reflexivity|].
  exact (build_cross_clust_mixt_cv_three_points (H := toy)
           ex_points ex_cv_list 2 ex_labels 0%nat s' gmm_cv data Hrun).
Defined.

(* ================================================================= *)
(** ** build_cross_clust_mixt_cv: the table returned, whatever the folds *)

Lemma str_inj (a b : Z) : str a = str b → a = b.
Proof.
  unfold str. intros Heq. apply DecimalZ.to_int_inj.
  assert (Hnn : ∀ z, Z.to_int z ≠ Decimal.Pos Decimal.Nil
                     ∧ Z.to_int z ≠ Decimal.Neg Decimal.Nil).
  { intros z. split; intros Hz; pose proof (DecimalZ.of_to z) as Ho; rewrite Hz in Ho;
      simpl in Ho; subst z; discriminate. }
  pose proof (NilZero.isi (Z.to_int a) (proj1 (Hnn a)) (proj2 (Hnn a))) as Ha.
  pose proof (NilZero.isi (Z.to_int b) (proj1 (Hnn b)) (proj2 (Hnn b))) as Hb.
  rewrite Heq, Hb in Ha. now injection Ha.
Qed.

Lemma score_name_inj (a b : Z) : score_name a = score_name b → a = b.
Proof. unfold score_name. simpl. intros [= Heq]. now apply str_inj. Qed.

Lemma fold_add_name_fresh (l : list string) :
  ∀ ns, List.NoDup l → (∀ n, In n l → ¬ In n ns) →
        fold_left add_name l ns = ns ++ l.
Proof.
  induction l as [|n l IH]; simpl; intros ns Hnd Hfresh; [now rewrite app_nil_r|].
  apply List.NoDup_cons_iff in Hnd as [Hn Hnd].
  assert (Hadd : add_name ns n = ns ++ [n]).
  { unfold add_name. destruct (has_name ns n) eqn:Hhas; [|reflexivity].
    apply has_name_In in Hhas. exfalso. apply (Hfresh n); auto. }
  rewrite Hadd, IH, <- app_assoc; [reflexivity | exact Hnd |].
  intros m Hm Hin. apply in_app_iff in Hin as [Hin | [<- | []]].
  - apply (Hfresh m); auto.
  - contradiction.
Qed.

(** The columns that the folds add: "cv", then one score column per class. *)
Lemma fold_names_range (nb_traj_class : Z) :
  fold_names (range 0 nb_traj_class)
  = "cv"%string :: map score_name (range 0 nb_traj_class).
Proof.
  unfold fold_names. rewrite fold_add_name_fresh; [reflexivity | |].
  - apply NoDup_ListNoDup. apply (NoDup_fmap_2_strong score_name).
    + intros x y _ _. apply score_name_inj.
    + apply NoDup_seqZ.
  - intros n Hn [<- | []]. apply in_map_iff in Hn as (c & Hc & _).
    pose proof (score_name_not_cv c) as Hne. rewrite <- Hc, String.eqb_refl in Hne.
    discriminate.
Qed.

Lemma fold_frame_names `{Sklearn} (data_original : DataFrame) (classes : list Z)
    (i : Z) (cv : list Z) (F : DataFrame) :
  fold_frame data_original classes i cv F → names F = fold_names classes.
Proof.
  intros (train & test & F0 & cells & Hsplit & Hlen & _ & ->).
  apply train_test_split_Ok in Hsplit as (ids & _ & _ & _ & ->).
  rewrite apply_scores_names, combine_names by assumption. reflexivity.
Qed.

Lemma fold_frames_lookup `{Sklearn} (data_original : DataFrame) (classes : list Z)
    (cv_list : list (list Z)) :
  ∀ i frames k cv,
    fold_frames data_original classes i cv_list frames →
    cv_list !! k = Some cv →
    ∃ F, frames !! k = Some F
         ∧ fold_frame data_original classes (i + Z.of_nat k)%Z cv F.
Proof.
  induction cv_list as [|cv0 cv_list IH]; intros i [|F0 frames] k cv Hfr Hk;
    simpl in Hfr; try contradiction; try discriminate.
  destruct Hfr as [HF0 Hfr]. destruct k as [|k]; simpl in Hk.
  - injection Hk as <-. exists F0. split; [reflexivity|]. now rewrite Z.add_0_r.
  - destruct (IH _ _ _ _ Hfr Hk) as (F & HF & Hfold). exists F. split; [exact HF|].
    replace (i + Z.of_nat (S k))%Z with (i + 1 + Z.of_nat k)%Z by lia. exact Hfold.
Qed.

(** A left join on the same unique row labels keeps the rows and puts the
    columns of the two frames side by side. *)
Lemma join_same_index (L R J : DataFrame) :
  NoDup (index L) → index R = index L →
  wf_frame L = true → wf_frame R = true →
  join L R = Ok J →
  index J = index L
  ∧ (∀ name col, getitem L name = Ok col → getitem J name = Ok col)
  ∧ (∀ name col, getitem R name = Ok col → getitem J name = Ok col).
Proof.
  intros Hnd Hidx HwfL HwfR Hjoin. unfold join in Hjoin.
  destruct (existsb _ _) eqn:Hoverlap in Hjoin; [discriminate|].
  injection Hjoin as <-. rewrite Hidx, join_pairs_same by assumption.
  cbn [index columns]. split; [|split].
  - rewrite map_map. simpl. apply map_nth_seq.
  - intros name col Hcol. unfold getitem in Hcol |- *. cbn [columns].
    destruct (assoc name (columns L)) as [c|] eqn:Hc; [|discriminate].
    injection Hcol as ->. rewrite assoc_app.
    rewrite (assoc_map_snd
               (fun c => map (fun pp : nat * option nat => nth (fst pp) c CNaN)
                             (map (fun p => (p, Some p)) (seq 0 (length (index L)))))).
    rewrite Hc. simpl. f_equal. rewrite map_map. simpl.
    rewrite <- (wf_frame_In _ _ _ HwfL (assoc_In _ _ _ Hc)). apply map_nth_seq.
  - intros name col Hcol. unfold getitem in Hcol |- *. cbn [columns].
    destruct (assoc name (columns R)) as [c|] eqn:Hc; [|discriminate].
    injection Hcol as ->. rewrite assoc_app.
    rewrite (assoc_map_snd
               (fun c => map (fun pp : nat * option nat => nth (fst pp) c CNaN)
                             (map (fun p => (p, Some p)) (seq 0 (length (index L)))))).
    rewrite (assoc_None name (columns L)).
    2:{ apply (existsb_false _ _ name Hoverlap). eapply assoc_names. exact Hc. }
    simpl.
    rewrite (assoc_map_snd
               (fun c => take_opt c (map snd (map (fun p => (p, Some p))
                                                  (seq 0 (length (index L))))))).
    rewrite Hc. simpl. f_equal. rewrite map_map. simpl.
    rewrite <- Hidx, <- (wf_frame_In _ _ _ HwfR (assoc_In _ _ _ Hc)).
    apply take_opt_all.
Qed.

Lemma join_names (L R J : DataFrame) :
  join L R = Ok J →
  names J = names L ++ names R
  ∧ ∀ n, In n (names R) → ¬ In n (names L).
Proof.
  unfold join. destruct (existsb _ _) eqn:Hoverlap; [discriminate|].
  intros [= <-]. split.
  - unfold names. cbn [columns]. rewrite map_app, !map_map. reflexivity.
  - intros n Hn HL. apply (existsb_false _ _ n Hoverlap) in Hn.
    apply has_name_In in HL. congruence.
Qed.

(** Where [reindex] does not find a label. *)
Lemma reindexer_not_found (idx target : list Z) (ps : list (option nat)) (j : nat) :
  reindexer idx target = Ok ps →
  j < length target → ¬ In (nth j target 0%Z) idx →
  nth j ps None = None.
Proof.
  unfold reindexer. case_bool_decide as Heq.
  - intros _ Hj Hnin. subst target. exfalso. apply Hnin. now apply nth_In.
  - case_bool_decide as Hnd; [|discriminate].
    intros [= <-] Hj Hnin.
    rewrite (nth_indep _ None (find_pos idx 0%Z)) by (rewrite length_map; exact Hj).
    rewrite (map_nth (find_pos idx)). now apply find_pos_not_In.
Qed.

(** An index that [reindex] accepts for a target without repeated labels
    has no repeated label. *)
Lemma reindexer_NoDup (idx target : list Z) (ps : list (option nat)) :
  reindexer idx target = Ok ps → NoDup target → NoDup idx.
Proof.
  unfold reindexer. case_bool_decide as Heq; [now subst target|].
  case_bool_decide as Hnd; [auto | discriminate].
Qed.

Lemma NoDup_flat_map_lookup {A B : Type} (f : A → list B) (l : list A) :
  NoDup (flat_map f l) →
  ∀ i j a b x, l !! i = Some a → l !! j = Some b →
               In x (f a) → In x (f b) → i = j.
Proof.
  induction l as [|a0 l IH]; simpl; intros Hnd i j a b x Hi Hj Ha Hb; [discriminate|].
  apply NoDup_app in Hnd as (_ & Hdis & Hnd).
  assert (Hin : ∀ k c, l !! k = Some c → In x (f c) → x ∈ flat_map f l).
  { intros k c Hk Hc. apply list_elem_of_In, in_flat_map. exists c.
    split; [|exact Hc]. apply list_elem_of_In. eapply list_elem_of_lookup_2. exact Hk. }
  destruct i as [|i], j as [|j]; simpl in Hi, Hj.
  - reflexivity.
  - injection Hi as <-. exfalso.
    apply (Hdis x); [now apply list_elem_of_In | eapply Hin; eassumption].
  - injection Hj as <-. exfalso.
    apply (Hdis x); [now apply list_elem_of_In | eapply Hin; eassumption].
  - f_equal. eapply IH; eassumption.
Qed.

(* ================================================================= *)
(** ** build_cross_clust_mixt_cv: what each class is fitted on and scored with *)

Lemma take_rows_In (idxs : list nat) (a rows : ndarray) :
  take_rows idxs a = Ok rows → ∀ row, In row rows → In row a.
Proof.
  unfold take_rows. revert rows.
  induction idxs as [|i idxs IH]; simpl; intros rows Hrun row Hin.
  - injection Hrun as <-. destruct Hin.
  - apply rbind_Ok in Hrun as (r & Hr & Hrun).
    apply rbind_Ok in Hrun as (rs & Hrs & [= <-]).
    destruct (a !! i) as [r'|] eqn:Hi; [|discriminate]. injection Hr as ->.
    destruct Hin as [<- | Hin]; [|eapply IH; eauto].
    apply list_elem_of_In. eapply list_elem_of_lookup_2. exact Hi.
Qed.

Section ClassRun.
Context `{Sklearn}.

(** A run of the class loop that returns, class by class: the model stored
    under the class was fitted on the training points of the class (on a
    sample of them when there are more than 10000), and the column of the
    class holds the mean log-likelihood of the test array under that same
    model. *)
Lemma class_loop_run (labels : list Z) (train test : ndarray) (classes : list Z) :
  ∀ gmms F s gmms' F' s',
    class_loop labels train test classes gmms F s = Ok (gmms', F', s') →
    index F' = index F
    ∧ (∀ c, In c classes →
         ∃ g nc coord_tc s1 s2 l,
           gmms' !! c = Some (Fitted g)
           ∧ gmm_fit nc coord_tc s1 = Ok (g, s2)
           ∧ (∀ row, In row coord_tc → In row (class_coords labels c train))
           ∧ ((Z.of_nat (length (class_coords labels c train)) <= 10000)%Z →
              coord_tc = class_coords labels c train)
           ∧ gmm_score_samples g test = Ok l
           ∧ getitem F' (score_name c)
             = Ok (replicate (length (index F)) (float_cell (mean l))))
    ∧ (∀ c, ¬ In c classes →
         gmms' !! c = gmms !! c
         ∧ getitem F' (score_name c) = getitem F (score_name c)).
Proof.
  induction classes as [|c classes IH]; intros gmms F s gmms' F' s' Hrun.
  - apply (mret_Ok (gmms, F)) in Hrun as [[= <- <-] ->].
    split; [reflexivity|]. split; [intros ? [] | auto].
  - cbn [class_loop] in Hrun.
    apply mbind_Ok in Hrun as (coord_tc & s1 & Hcoord & Hrun).
    apply mbind_Ok in Hrun as ([[nc bic] gmm] & s2 & Hnb & Hrun).
    apply mbind_Ok in Hrun as (scores & s3 & Hscore & Hrun).
    apply lift_Ok in Hscore as [Hscore ->].
    destruct (score_Fitted _ _ _ Hscore) as (g & ->).
    simpl in Hscore. unfold gmm_score in Hscore.
    apply rbind_Ok in Hscore as (l & Hl & [= <-]).
    destruct (nb_clust_with_bic_fitted _ _ _ _ _ _ _ _ Hnb) as (_ & _ & s1' & s2' & Hg).
    apply IH in Hrun as (Hidx & Hin & Hout). cbn [setitem_scalar index] in Hidx, Hin.
    assert (Hsub : (∀ row, In row coord_tc → In row (class_coords labels c train))
                   ∧ ((Z.of_nat (length (class_coords labels c train)) <= 10000)%Z →
                      coord_tc = class_coords labels c train)).
    { destruct (10000 <? Z.of_nat (length (class_coords labels c train)))%Z eqn:Hbig.
      - apply Z.ltb_lt in Hbig.
        apply mbind_Ok in Hcoord as (idxs & s0 & _ & Hcoord).
        apply lift_Ok in Hcoord as [Hcoord _].
        split; [now apply (take_rows_In idxs) | lia].
      - apply (mret_Ok (class_coords labels c train)) in Hcoord as [-> _]. auto. }
    destruct Hsub as [Hsub Hsame].
    split; [exact Hidx|]. split.
    + intros c' [<- | Hc']; [|auto].
      destruct (in_dec Z.eq_dec c classes) as [Hi|Hni]; [auto|].
      destruct (Hout c Hni) as [Hd HF].
      exists g, nc, coord_tc, s1', s2', l.
      split; [rewrite Hd; apply lookup_insert_eq|].
      split; [exact Hg|]. split; [exact Hsub|]. split; [exact Hsame|].
      split; [exact Hl|].
      rewrite HF. unfold getitem, score_name. cbn [setitem_scalar columns index].
      now rewrite assoc_set_eq.
    + intros c' Hnin.
      assert (Hne : c ≠ c') by (intros ->; apply Hnin; now left).
      destruct (Hout c') as [Hd HF]; [intros Hc'; apply Hnin; now right|].
      split.
      * rewrite Hd. now apply lookup_insert_ne.
      * rewrite HF. unfold getitem. cbn [setitem_scalar columns].
        rewrite assoc_set_ne; [reflexivity|].
        apply not_true_is_false. intros Heq. apply String.eqb_eq in Heq.
        apply (score_name_inj c' c) in Heq. congruence.
Qed.

(** A run of the fold loop that returns, fold by fold. *)
Lemma fold_loop_run (data_original : DataFrame) (nb_traj_class : Z) (labels : list Z)
    (cv_list : list (list Z)) :
  ∀ i gmm_cv data_list s gmm_cv' data_list' s',
    fold_loop data_original nb_traj_class labels i cv_list gmm_cv data_list s
    = Ok (gmm_cv', data_list', s') →
    ∃ dicts frames,
      gmm_cv' = gmm_cv ++ dicts
      ∧ data_list' = data_list ++ frames
      ∧ ∀ k cv, cv_list !! k = Some cv →
          ∃ train test F0 d F,
            train_test_split data_original cv (i + Z.of_nat k) = Ok (train, test, F0)
            ∧ dicts !! k = Some d
            ∧ frames !! k = Some F
            ∧ index F = index F0
            ∧ ∀ c, In c (range 0 nb_traj_class) →
                ∃ g nc coord_tc s1 s2 l,
                  d !! c = Some (Fitted g)
                  ∧ gmm_fit nc coord_tc s1 = Ok (g, s2)
                  ∧ (∀ row, In row coord_tc → In row (class_coords labels c train))
                  ∧ ((Z.of_nat (length (class_coords labels c train)) <= 10000)%Z →
                     coord_tc = class_coords labels c train)
                  ∧ gmm_score_samples g test = Ok l
                  ∧ getitem F (score_name c)
                    = Ok (replicate (length (index F0)) (float_cell (mean l))).
Proof.
  induction cv_list as [|cv0 cv_list IH];
    intros i gmm_cv data_list s gmm_cv' data_list' s' Hrun.
  - apply (mret_Ok (gmm_cv, data_list)) in Hrun as [[= <- <-] ->].
    exists [], []. rewrite !app_nil_r. split; [reflexivity|]. split; [reflexivity|].
    intros k cv Hk. discriminate.
  - cbn [fold_loop] in Hrun.
    apply mbind_Ok in Hrun as ([[train test] F0] & s1 & Hsplit & Hrun).
    apply lift_Ok in Hsplit as [Hsplit ->].
    apply mbind_Ok in Hrun as ([gmms F] & s2 & Hclass & Hrun).
    apply class_loop_run in Hclass as (Hidx & Hin & _).
    apply IH in Hrun as (dicts & frames & -> & -> & Hfolds).
    exists (gmms :: dicts), (F :: frames).
    split; [now rewrite <- app_assoc|]. split; [now rewrite <- app_assoc|].
    intros [|k] cv Hk; simpl in Hk.
    + injection Hk as <-. exists train, test, F0, gmms, F.
      rewrite Z.add_0_r. split; [exact Hsplit|]. split; [reflexivity|].
      split; [reflexivity|]. split; [exact Hidx | exact Hin].
    + destruct (Hfolds k cv Hk) as (train' & test' & F0' & d & F' & Hsplit' & Hrest).
      exists train', test', F0', d, F'.
      replace (i + Z.of_nat (S k))%Z with (i + 1 + Z.of_nat k)%Z by lia. auto.
Qed.

End ClassRun.

Section BuildTable.
Context `{Sklearn}.

(** A run that returns: the frames of the folds, stacked, aligned on the
    rows of [data_original] and joined to it. *)
Lemma build_cross_clust_mixt_cv_Ok
    (data_original : DataFrame) (cv_list : list (list Z)) (nb_traj_class : Z)
    (labels : list Z) (s s' : rng)
    (gmm_cv : list (gmap Z fitted)) (data : DataFrame) :
  build_cross_clust_mixt_cv data_original cv_list nb_traj_class labels s
  = Ok (gmm_cv, data, s') →
  ∃ frames ps,
    fold_loop data_original nb_traj_class labels 0 cv_list [] [] s
    = Ok (gmm_cv, frames, s')
    ∧ fold_frames data_original (range 0 nb_traj_class) 0 cv_list frames
    ∧ frames ≠ []
    ∧ reindexer (flat_map index frames) (index data_original) = Ok ps
    ∧ join data_original
           {| index := index data_original;
              columns :=
                map (fun n => (n, take_opt (flat_map (column_or_nan n) frames) ps))
                    (fold_names (range 0 nb_traj_class)) |}
      = Ok data.
Proof.
  unfold build_cross_clust_mixt_cv. intros Hrun.
  apply mbind_Ok in Hrun as ([gmm_cv0 data_list] & s1 & Hloop & Hrun).
  apply mbind_Ok in Hrun as (out & s2 & Hjoin & Hrun).
  apply (mret_Ok (gmm_cv0, out)) in Hrun as [[= <- <-] ->].
  apply lift_Ok in Hjoin as [Hjoin ->].
  pose proof Hloop as Hframes.
  apply fold_loop_frames in Hframes as (frames & -> & Hframes).
  simpl in Hjoin, Hloop.
  apply rbind_Ok in Hjoin as (stacked & Hconcat & Hjoin).
  apply rbind_Ok in Hjoin as (aligned & Hreindex & Hjoin).
  apply concat_Ok in Hconcat as [Hne ->].
  rewrite (union_names_same (fold_names (range 0 nb_traj_class))) in Hreindex.
  2:{ exact Hne. }
  2:{ intros F HF. destruct (fold_frames_In _ _ _ _ _ _ Hframes HF) as (k & cv & _ & Hfold).
      eapply fold_frame_names. exact Hfold. }
  unfold reindex in Hreindex. cbn [index columns] in Hreindex.
  apply rbind_Ok in Hreindex as (ps & Hps & [= <-]).
  rewrite map_map in Hjoin. cbn [fst snd] in Hjoin.
  exists frames, ps. auto.
Qed.

(** X8: the table that [build_cross_clust_mixt_cv] returns has the columns
    of [data_original], in their order, followed by "cv" and then one score
    column per class, [score_0] to [score_(nb_traj_class-1)].  The run
    returns only when none of these names is a column of [data_original]
    already, and only when there is at least one fold. *)
Theorem build_cross_clust_mixt_cv_columns
    (data_original : DataFrame) (cv_list : list (list Z)) (nb_traj_class : Z)
    (labels : list Z) (s s' : rng)
    (gmm_cv : list (gmap Z fitted)) (data : DataFrame) :
  build_cross_clust_mixt_cv data_original cv_list nb_traj_class labels s
  = Ok (gmm_cv, data, s') →
  names data
  = names data_original ++ "cv"%string :: map score_name (range 0 nb_traj_class)
  ∧ ¬ In "cv"%string (names data_original)
  ∧ (∀ c, (0 <= c < nb_traj_class)%Z → ¬ In (score_name c) (names data_original))
  ∧ cv_list ≠ [].
Proof.
  intros Hrun.
  apply build_cross_clust_mixt_cv_Ok in Hrun as (frames & ps & _ & Hframes & Hne & _ & Hjoin).
  apply join_names in Hjoin as [Hnames Hfresh].
  assert (Hright : ∀ (f : string → list cell) (N : list string),
            names {| index := index data_original;
                     columns := map (fun n => (n, f n)) N |} = N).
  { intros f N. unfold names. cbn [columns]. rewrite map_map. apply map_id. }
  rewrite Hright, fold_names_range in Hnames, Hfresh.
  split; [exact Hnames|]. split; [|split].
  - apply Hfresh. now left.
  - intros c Hc. apply Hfresh. right. apply in_map. now apply range_In.
  - intros ->. destruct frames; [congruence | contradiction].
Qed.

(** With an empty list of folds, [build_cross_clust_mixt_cv] raises
    ValueError, whatever the other arguments: [pd.concat] has nothing to
    concatenate. *)
Remark build_cross_clust_mixt_cv_no_fold
    (data_original : DataFrame) (nb_traj_class : Z) (labels : list Z) (s : rng) :
  build_cross_clust_mixt_cv data_original [] nb_traj_class labels s = Raise ValueError.
Proof. reflexivity. Qed.

(** The table of a run that returns, for a table with unique row labels. *)
Lemma build_cross_clust_mixt_cv_table
    (data_original : DataFrame) (cv_list : list (list Z)) (nb_traj_class : Z)
    (labels : list Z) (ids : list cell) (s s' : rng)
    (gmm_cv : list (gmap Z fitted)) (data : DataFrame) :
  wf_frame data_original = true → NoDup (index data_original) →
  getattr data_original "id_traj" = Ok ids →
  build_cross_clust_mixt_cv data_original cv_list nb_traj_class labels s
  = Ok (gmm_cv, data, s') →
  ∃ frames ps,
    fold_loop data_original nb_traj_class labels 0 cv_list [] [] s
    = Ok (gmm_cv, frames, s')
    ∧ fold_frames data_original (range 0 nb_traj_class) 0 cv_list frames
    ∧ reindexer (flat_map index frames) (index data_original) = Ok ps
    ∧ index data = index data_original
    ∧ (∀ name col, getitem data_original name = Ok col → getitem data name = Ok col)
    ∧ ∀ name, In name (fold_names (range 0 nb_traj_class)) →
        getitem data name = Ok (take_opt (flat_map (column_or_nan name) frames) ps).
Proof.
  intros Hwf Hnd Hid Hrun.
  apply build_cross_clust_mixt_cv_Ok in Hrun
    as (frames & ps & Hloop & Hframes & Hne & Hps & Hjoin).
  pose proof (reindexer_found _ _ _ Hps) as [Hpslen _].
  apply join_same_index in Hjoin as (Hidx & Hleft & Hright); try assumption;
    try reflexivity.
  - exists frames, ps. repeat split; try assumption.
    intros name Hname. apply Hright. unfold getitem. cbn [columns].
    now rewrite (assoc_map_key (fun n => take_opt (flat_map (column_or_nan n) frames) ps)).
  - unfold wf_frame. apply forallb_forall. intros [n c] Hin. cbn [columns index] in Hin |- *.
    apply in_map_iff in Hin as (n' & [= <- <-] & _). simpl.
    rewrite take_opt_length, Hpslen. apply Nat.eqb_refl.
Qed.

(** X9: for a table with unique row labels, the table returned has the
    rows of [data_original] in their order and its columns unchanged,
    whatever the folds; a row whose trajectory id is in no held-out list has
    a missing value (NaN) under "cv" and under every score column. *)
Theorem build_cross_clust_mixt_cv_uncovered_rows
    (data_original : DataFrame) (cv_list : list (list Z)) (nb_traj_class : Z)
    (labels : list Z) (ids : list cell) (s s' : rng)
    (gmm_cv : list (gmap Z fitted)) (data : DataFrame) :
  wf_frame data_original = true → NoDup (index data_original) →
  getattr data_original "id_traj" = Ok ids →
  build_cross_clust_mixt_cv data_original cv_list nb_traj_class labels s
  = Ok (gmm_cv, data, s') →
  index data = index data_original
  ∧ (∀ name col, getitem data_original name = Ok col → getitem data name = Ok col)
  ∧ ∀ p, p < length (index data_original) →
      (∀ cv_index_i, In cv_index_i cv_list → held_out (nth p ids CNaN) cv_index_i = false) →
      ∀ name, name = "cv"%string ∨ (∃ c, (0 <= c < nb_traj_class)%Z ∧ name = score_name c) →
        ∃ col, getitem data name = Ok col ∧ nth p col CNaN = CNaN.
Proof.
  intros Hwf Hnd Hid Hrun.
  destruct (build_cross_clust_mixt_cv_table _ _ _ _ _ _ _ _ _ Hwf Hnd Hid Hrun)
    as (frames & ps & _ & Hframes & Hps & Hidx & Hleft & Hright).
  split; [exact Hidx|]. split; [exact Hleft|].
  intros p Hp Hnone name Hname.
  pose proof (wf_getattr_length _ _ _ Hwf Hid) as Hidlen.
  exists (take_opt (flat_map (column_or_nan name) frames) ps). split.
  - apply Hright. rewrite fold_names_range.
    destruct Hname as [-> | (c & Hc & ->)]; [now left | right].
    apply in_map. now apply range_In.
  - rewrite take_opt_nth. rewrite (reindexer_not_found _ _ _ p Hps Hp); [reflexivity|].
    intros Hin. apply in_flat_map in Hin as (F & HF & Hin).
    destruct (fold_frames_In _ _ _ _ _ _ Hframes HF) as (k & cv & Hk & Hfold).
    destruct (fold_frame_facts _ _ _ _ _ _ Hwf Hid Hfold) as (HFidx & _).
    rewrite HFidx in Hin.
    apply (mask_select_In_inv 0%Z) in Hin as (p' & Hp' & Hm & Heq);
      [|rewrite isin_length; exact Hidlen].
    assert (p' = p) as ->.
    { apply (proj1 (NoDup_nth (index data_original) 0%Z)
               (proj1 (NoDup_ListNoDup _) Hnd)); auto. }
    rewrite isin_nth in Hm by lia.
    assert (Hno : held_out (nth p ids CNaN) cv = false).
    { apply Hnone. apply list_elem_of_In. eapply list_elem_of_lookup_2. exact Hk. }
    unfold held_out in Hno. congruence.
Qed.

(** X10: for a table with unique row labels, [build_cross_clust_mixt_cv]
    returns only when no row is held out in two folds: a trajectory id of
    the table that is in two held-out lists puts its rows twice in the
    stack of the fold frames, which [reindex] refuses. *)
Theorem build_cross_clust_mixt_cv_held_out_once
    (data_original : DataFrame) (cv_list : list (list Z)) (nb_traj_class : Z)
    (labels : list Z) (ids : list cell) (s s' : rng)
    (gmm_cv : list (gmap Z fitted)) (data : DataFrame) :
  wf_frame data_original = true → NoDup (index data_original) →
  getattr data_original "id_traj" = Ok ids →
  build_cross_clust_mixt_cv data_original cv_list nb_traj_class labels s
  = Ok (gmm_cv, data, s') →
  ∀ p i j cv_index_i cv_index_j,
    p < length (index data_original) →
    cv_list !! i = Some cv_index_i → cv_list !! j = Some cv_index_j →
    held_out (nth p ids CNaN) cv_index_i = true →
    held_out (nth p ids CNaN) cv_index_j = true →
    i = j.
Proof.
  intros Hwf Hnd Hid Hrun p i j cvi cvj Hp Hi Hj Hheldi Hheldj.
  destruct (build_cross_clust_mixt_cv_table _ _ _ _ _ _ _ _ _ Hwf Hnd Hid Hrun)
    as (frames & ps & _ & Hframes & Hps & _).
  pose proof (wf_getattr_length _ _ _ Hwf Hid) as Hidlen.
  pose proof (reindexer_NoDup _ _ _ Hps Hnd) as Hstack.
  assert (Hrow : ∀ k cv, cv_list !! k = Some cv →
            held_out (nth p ids CNaN) cv = true →
            ∃ F, frames !! k = Some F
                 ∧ In (nth p (index data_original) 0%Z) (index F)).
  { intros k cv Hk Hheld.
    destruct (fold_frames_lookup _ _ _ _ _ _ _ Hframes Hk) as (F & HF & Hfold).
    destruct (fold_frame_facts _ _ _ _ _ _ Hwf Hid Hfold) as (HFidx & _).
    exists F. split; [exact HF|]. rewrite HFidx. apply mask_select_In_nth.
    - rewrite isin_length. exact Hidlen.
    - exact Hp.
    - rewrite isin_nth by lia. exact Hheld. }
  destruct (Hrow i cvi Hi Hheldi) as (Fi & HFi & Hini).
  destruct (Hrow j cvj Hj Hheldj) as (Fj & HFj & Hinj).
  eapply (NoDup_flat_map_lookup index frames Hstack); eassumption.
Qed.

(** X11: for a table with unique row labels, the rows held out in fold [k]
    all hold the same values in the columns that the run adds: the number
    [k] under "cv" and, under [score_c], the one float that [gmm.score]
    returned for the test array of the fold, the mean of its per-point
    log-likelihoods under the model of class [c], which is the model that
    the dictionary of fold [k] in [gmm_cv] holds under [c]. *)
Theorem build_cross_clust_mixt_cv_one_score_per_fold
    (data_original : DataFrame) (cv_list : list (list Z)) (nb_traj_class : Z)
    (labels : list Z) (ids : list cell) (s s' : rng)
    (gmm_cv : list (gmap Z fitted)) (data : DataFrame)
    (k : nat) (cv_index_k : list Z) :
  wf_frame data_original = true → NoDup (index data_original) →
  getattr data_original "id_traj" = Ok ids →
  build_cross_clust_mixt_cv data_original cv_list nb_traj_class labels s
  = Ok (gmm_cv, data, s') →
  cv_list !! k = Some cv_index_k →
  ∃ train test data_ gmm_per_traj_clust,
    train_test_split data_original cv_index_k (Z.of_nat k) = Ok (train, test, data_)
    ∧ gmm_cv !! k = Some gmm_per_traj_clust
    ∧ (∃ cv_col,
         getitem data "cv" = Ok cv_col
         ∧ ∀ p, p < length (index data_original) →
             held_out (nth p ids CNaN) cv_index_k = true →
             cell_float (nth p cv_col CNaN) = Some (inject_Z (Z.of_nat k)))
    ∧ ∀ c, (0 <= c < nb_traj_class)%Z →
        ∃ col gmm l,
          getitem data (score_name c) = Ok col
          ∧ gmm_per_traj_clust !! c = Some (Fitted gmm)
          ∧ gmm_score_samples gmm test = Ok l
          ∧ ∀ p, p < length (index data_original) →
              held_out (nth p ids CNaN) cv_index_k = true →
              nth p col CNaN = float_cell (mean l).
Proof.
  intros Hwf Hnd Hid Hrun Hk.
  destruct (build_cross_clust_mixt_cv_table _ _ _ _ _ _ _ _ _ Hwf Hnd Hid Hrun)
    as (frames & ps & Hloop & Hframes & Hps & _ & _ & Hright).
  pose proof (wf_getattr_length _ _ _ Hwf Hid) as Hidlen.
  pose proof (reindexer_NoDup _ _ _ Hps Hnd) as Hstack.
  destruct (fold_frames_lookup _ _ _ _ _ _ _ Hframes Hk) as (Fk & HFk & Hfold).
  rewrite Z.add_0_l in Hfold.
  destruct (fold_frame_facts _ _ _ _ _ _ Hwf Hid Hfold)
    as (HFidx & HFnames & HFwf & _ & HFcv).
  apply fold_loop_run in Hloop as (dicts & frames' & Hdicts & Hfr & Hfolds).
  simpl in Hdicts, Hfr. subst dicts frames'.
  destruct (Hfolds k cv_index_k Hk)
    as (train & test & F0 & d & F & Hsplit & Hd & HF & HFF0 & Hclasses).
  rewrite Z.add_0_l in Hsplit. rewrite HFk in HF. injection HF as <-.
  assert (Hwfs : ∀ F, In F frames → wf_frame F = true).
  { intros F HF. destruct (fold_frames_In _ _ _ _ _ _ Hframes HF) as (k' & cv' & _ & Hfold').
    now destruct (fold_frame_facts _ _ _ _ _ _ Hwf Hid Hfold') as (_ & _ & ? & _). }
  (* a row held out in fold k is a row of the frame of fold k *)
  assert (Hcell : ∀ name p, p < length (index data_original) →
            held_out (nth p ids CNaN) cv_index_k = true →
            ∃ r, r < length (index Fk)
                 ∧ nth p (take_opt (flat_map (column_or_nan name) frames) ps) CNaN
                   = nth r (column_or_nan name Fk) CNaN).
  { intros name p Hp Hheld.
    assert (Hin : In (nth p (index data_original) 0%Z) (index Fk)).
    { rewrite HFidx. apply mask_select_In_nth.
      - rewrite isin_length. exact Hidlen.
      - exact Hp.
      - rewrite isin_nth by lia. exact Hheld. }
    destruct (stacked_cell frames (index data_original) ps name p Hwfs Hps Hp)
      as (F & r & HF & Hr & Hlab & Hval).
    { apply in_flat_map. exists Fk. split; [|exact Hin].
      apply list_elem_of_In. eapply list_elem_of_lookup_2. exact HFk. }
    apply list_elem_of_In, list_elem_of_lookup in HF as (k' & HF).
    assert (k' = k) as ->.
    { apply (NoDup_flat_map_lookup index frames Hstack k' k F Fk
               (nth p (index data_original) 0%Z) HF HFk); [|exact Hin].
      rewrite <- Hlab. now apply nth_In. }
    rewrite HFk in HF. injection HF as <-. eauto. }
  exists train, test, F0, d. split; [exact Hsplit|]. split; [exact Hd|]. split.
  - exists (take_opt (flat_map (column_or_nan "cv") frames) ps). split.
    + apply Hright. rewrite fold_names_range. now left.
    + intros p Hp Hheld. destruct (Hcell "cv"%string p Hp Hheld) as (r & Hr & ->).
      unfold column_or_nan. unfold getitem in HFcv.
      destruct (assoc "cv" (columns Fk)); [|discriminate]. injection HFcv as ->.
      now rewrite nth_replicate.
  - intros c Hc.
    destruct (Hclasses c) as (g & nc & coord_tc & s1 & s2 & l & Hg & _ & _ & _ & Hl & Hget);
      [now apply range_In|].
    exists (take_opt (flat_map (column_or_nan (score_name c)) frames) ps), g, l.
    split; [|split; [exact Hg | split; [exact Hl|]]].
    + apply Hright. rewrite fold_names_range. right. apply in_map. now apply range_In.
    + intros p Hp Hheld.
      destruct (Hcell (score_name c) p Hp Hheld) as (r & Hr & ->).
      unfold column_or_nan. unfold getitem in Hget.
      destruct (assoc (score_name c) (columns Fk)); [|discriminate].
      injection Hget as ->. apply nth_replicate. now rewrite <- HFF0.
Qed.

End BuildTable.

Lemma build_cross_clust_mixt_cv_columns_witness :
  ∃ gmm_cv data s',
    @build_cross_clust_mixt_cv toy ex_points ex_cv_list 2 ex_labels 0%nat
    = Ok (gmm_cv, data, s')
    ∧ names data
      = names ex_points ++ "cv"%string :: map score_name (range 0 2)
    ∧ ¬ In "cv"%string (names ex_points)
    ∧ (∀ c, (0 <= c < 2)%Z → ¬ In (score_name c) (names ex_points))
    ∧ ex_cv_list ≠ [].
Proof.
  assert (Hok : match @build_cross_clust_mixt_cv toy ex_points ex_cv_list 2 ex_labels 0%nat with
                | Ok _ => true
                | Raise _ => false
                end = true) by (vm_compute; reflexivity).
  destruct (@build_cross_clust_mixt_cv toy ex_points ex_cv_list 2 ex_labels 0%nat)
    as [[[gmm_cv data] s']|e] eqn:Hrun; [|discriminate Hok].
  exists gmm_cv, data, s'. split; [reflexivity|].
  exact (build_cross_clust_mixt_cv_columns (H := toy)
           ex_points ex_cv_list 2 ex_labels 0%nat s' gmm_cv data Hrun).
Defined.

Lemma build_cross_clust_mixt_cv_uncovered_rows_witness :
  ∃ gmm_cv data s',
    @build_cross_clust_mixt_cv toy ex_points [[0; 2]]%Z 2 ex_labels 0%nat
    = Ok (gmm_cv, data, s')
    ∧ match getitem data "cv" with
      | Ok col => map cell_float col
      | Raise _ => []
      end
      = [Some 0%Q; None; Some 0%Q; None; Some 0%Q; None;
         Some 0%Q; None; Some 0%Q; None; Some 0%Q; None]
    ∧ index data = index ex_points
    ∧ (∀ name col, getitem ex_points name = Ok col → getitem data name = Ok col)
    ∧ ∀ p, p < length (index ex_points) →
        (∀ cv_index_i, In cv_index_i [[0; 2]]%Z →
           held_out (nth p (map CInt [0; 1; 2; 3; 0; 1; 2; 3; 0; 1; 2; 3]%Z) CNaN)
                    cv_index_i = false) →
        ∀ name, name = "cv"%string ∨ (∃ c, (0 <= c < 2)%Z ∧ name = score_name c) →
          ∃ col, getitem data name = Ok col ∧ nth p col CNaN = CNaN.
Proof.
  assert (Hcv : match @build_cross_clust_mixt_cv toy ex_points [[0; 2]]%Z 2 ex_labels 0%nat with
                | Ok (_, data, _) =>
                    match getitem data "cv" with
                    | Ok col => map cell_float col
                    | Raise _ => []
                    end
                | Raise _ => []
                end
                = [Some 0%Q; None; Some 0%Q; None; Some 0%Q; None;
                   Some 0%Q; None; Some 0%Q; None; Some 0%Q; None])
    by (vm_compute; reflexivity).
  destruct (@build_cross_clust_mixt_cv toy ex_points [[0; 2]]%Z 2 ex_labels 0%nat)
    as [[[gmm_cv data] s']|e] eqn:Hrun; [|discriminate Hcv].
  exists gmm_cv, data, s'. split; [reflexivity|]. split; [exact Hcv|].
  exact (build_cross_clust_mixt_cv_uncovered_rows (H := toy)
           ex_points [[0; 2]]%Z 2 ex_labels
           (map CInt [0; 1; 2; 3; 0; 1; 2; 3; 0; 1; 2; 3]%Z) 0%nat s' gmm_cv data
           eq_refl NoDup_seqZ_100_12 eq_refl Hrun).
Defined.

Lemma build_cross_clust_mixt_cv_held_out_once_witness :
  ∃ gmm_cv data s',
    @build_cross_clust_mixt_cv toy ex_points ex_cv_list 2 ex_labels 0%nat
    = Ok (gmm_cv, data, s')
    ∧ ∀ p i j cv_index_i cv_index_j,
        p < length (index ex_points) →
        ex_cv_list !! i = Some cv_index_i → ex_cv_list !! j = Some cv_index_j →
        held_out (nth p (map CInt [0; 1; 2; 3; 0; 1; 2; 3; 0; 1; 2; 3]%Z) CNaN)
                 cv_index_i = true →
        held_out (nth p (map CInt [0; 1; 2; 3; 0; 1; 2; 3; 0; 1; 2; 3]%Z) CNaN)
                 cv_index_j = true →
        i = j.
Proof.
  assert (Hok : match @build_cross_clust_mixt_cv toy ex_points ex_cv_list 2 ex_labels 0%nat with
                | Ok _ => true
                | Raise _ => false
                end = true) by (vm_compute; reflexivity).
  destruct (@build_cross_clust_mixt_cv toy ex_points ex_cv_list 2 ex_labels 0%nat)
    as [[[gmm_cv data] s']|e] eqn:Hrun; [|discriminate Hok].
  exists gmm_cv, data, s'. split; [reflexivity|].
  exact (build_cross_clust_mixt_cv_held_out_once (H := toy)
           ex_points ex_cv_list 2 ex_labels
           (map CInt [0; 1; 2; 3; 0; 1; 2; 3; 0; 1; 2; 3]%Z) 0%nat s' gmm_cv data
           eq_refl NoDup_seqZ_100_12 eq_refl Hrun).
Defined.

Lemma build_cross_clust_mixt_cv_one_score_per_fold_witness :
  ∃ gmm_cv data s',
    @build_cross_clust_mixt_cv toy ex_points ex_cv_list 2 ex_labels 0%nat
    = Ok (gmm_cv, data, s')
    ∧ ∃ train test data_ gmm_per_traj_clust,
        train_test_split ex_points [1; 3]%Z (Z.of_nat 1) = Ok (train, test, data_)
        ∧ gmm_cv !! 1 = Some gmm_per_traj_clust
        ∧ (∃ cv_col,
             getitem data "cv" = Ok cv_col
             ∧ ∀ p, p < length (index ex_points) →
                 held_out (nth p (map CInt [0; 1; 2; 3; 0; 1; 2; 3; 0; 1; 2; 3]%Z) CNaN)
                          [1; 3]%Z = true →
                 cell_float (nth p cv_col CNaN) = Some (inject_Z (Z.of_nat 1)))
        ∧ ∀ c, (0 <= c < 2)%Z →
            ∃ col gmm l,
              getitem data (score_name c) = Ok col
              ∧ gmm_per_traj_clust !! c = Some (Fitted (H := toy) gmm)
              ∧ @gmm_score_samples toy gmm test = Ok l
              ∧ ∀ p, p < length (index ex_points) →
                  held_out (nth p (map CInt [0; 1; 2; 3; 0; 1; 2; 3; 0; 1; 2; 3]%Z) CNaN)
                           [1; 3]%Z = true →
                  nth p col CNaN = float_cell (mean l).
Proof.
  assert (Hok : match @build_cross_clust_mixt_cv toy ex_points ex_cv_list 2 ex_labels 0%nat with
                | Ok _ => true
                | Raise _ => false
                end = true) by (vm_compute; reflexivity).
  destruct (@build_cross_clust_mixt_cv toy ex_points ex_cv_list 2 ex_labels 0%nat)
    as [[[gmm_cv data] s']|e] eqn:Hrun; [|discriminate Hok].
  exists gmm_cv, data, s'. split; [reflexivity|].
  exact (build_cross_clust_mixt_cv_one_score_per_fold (H := toy)
           ex_points ex_cv_list 2 ex_labels
           (map CInt [0; 1; 2; 3; 0; 1; 2; 3; 0; 1; 2; 3]%Z) 0%nat s' gmm_cv data
           1 [1; 3]%Z eq_refl NoDup_seqZ_100_12 eq_refl Hrun eq_refl).
Defined.

(* ================================================================= *)
(** ** create_cumsum_data: when it returns, and what a trajectory depends on *)

Lemma rmap_total {A B : Type} (f : A → result B) (l : list A) :
  (∀ a, In a l → ∃ b, f a = Ok b) → ∃ bs, rmap f l = Ok bs.
Proof.
  intros Hall.
  destruct (rmap_Forall2 f (fun _ _ => True) l) as (bs & Hbs & _); [|eauto].
  intros a Ha. destruct (Hall a Ha) as (b & Hb). eauto.
Qed.

Lemma flat_map_In_filter {A B : Type} (f : A → list B) (h : A → bool) (l : list A) (x : B) :
  In x (flat_map f (List.filter h l)) → In x (flat_map f l).
Proof.
  rewrite !in_flat_map. intros (a & Ha & Hx). apply filter_In in Ha as [Ha _]. eauto.
Qed.

Lemma NoDup_flat_map_filter {A B : Type} (f : A → list B) (h : A → bool) (l : list A) :
  NoDup (flat_map f l) → NoDup (flat_map f (List.filter h l)).
Proof.
  induction l as [|a l IH]; simpl; intros Hnd; [constructor|].
  apply NoDup_app in Hnd as (Ha & Hdis & Hnd).
  destruct (h a); simpl; [|auto].
  apply NoDup_app. split; [exact Ha|]. split; [|auto].
  intros x Hx Hin. apply (Hdis x Hx).
  apply list_elem_of_In. eapply flat_map_In_filter. apply list_elem_of_In. exact Hin.
Qed.

Lemma group_positions_NoDup (keys : list cell) (g : cell) :
  NoDup (group_positions keys g).
Proof.
  apply NoDup_ListNoDup. unfold group_positions.
  apply List.NoDup_filter, seq_NoDup.
Qed.

(** The groups of distinct keys share no row. *)
Lemma distinct_groups_NoDup (keys l : list cell) :
  NoDup (flat_map (group_positions keys) (distinct_keys l)).
Proof.
  induction l as [|c l IH]; simpl; [constructor|].
  destruct (isna c); [exact IH|]. simpl.
  apply NoDup_app. split; [apply group_positions_NoDup|].
  split; [|now apply NoDup_flat_map_filter].
  intros p Hp Hin. apply list_elem_of_In in Hp, Hin.
  apply in_flat_map in Hin as (d & Hd & Hpd).
  apply filter_In in Hd as [_ Hcd]. apply negb_true_iff in Hcd.
  apply group_positions_In in Hp as [_ Hcp], Hpd as [_ Hdp].
  rewrite (key_eqb_trans c _ d Hcp (key_eqb_sym _ _ Hdp)) in Hcd. discriminate.
Qed.

Lemma group_rows_NoDup (keys : list cell) :
  NoDup (flat_map (group_positions keys) (group_keys keys)).
Proof.
  unfold group_keys.
  rewrite (Permutation_flat_map (group_positions keys)
             (sort_keys_perm (distinct_keys keys))).
  apply distinct_groups_NoDup.
Qed.

Lemma flat_map_np_take {A : Type} (d : A) (xs : list A) (groups : list (list nat)) :
  flat_map (fun ps => np_take d ps xs) groups = np_take d (List.concat groups) xs.
Proof.
  induction groups as [|ps groups IH]; simpl; [reflexivity|].
  rewrite IH. unfold np_take. now rewrite map_app.
Qed.

(** The stack of the groups of a table with unique row labels has no
    repeated label. *)
Lemma stacked_index_NoDup (keys : list cell) (idx : list Z) :
  length keys = length idx → NoDup idx →
  NoDup (flat_map (fun ps => np_take 0%Z ps idx)
                  (map (group_positions keys) (group_keys keys))).
Proof.
  intros Hlen Hnd. rewrite flat_map_np_take, <- flat_map_concat_map.
  unfold np_take. apply NoDup_fmap_2_strong; [|apply group_rows_NoDup].
  intros p q Hp Hq Heq. apply list_elem_of_In in Hp, Hq.
  apply in_flat_map in Hp as (g & _ & Hp), Hq as (g' & _ & Hq).
  apply group_positions_In in Hp as [Hp _], Hq as [Hq _].
  apply (proj1 (NoDup_nth idx 0%Z) (proj1 (NoDup_ListNoDup _) Hnd)); auto; lia.
Qed.

Lemma reindexer_total (idx target : list Z) :
  NoDup idx → ∃ ps, reindexer idx target = Ok ps.
Proof.
  intros Hnd. unfold reindexer. case_bool_decide; [eauto|].
  rewrite bool_decide_eq_true_2 by exact Hnd. eauto.
Qed.

(** On a table with unique row labels and a [by] column, the grouped
    cumulative sum of columns of the table returns. *)
Lemma groupby_apply_cumsum_total (data : DataFrame) (by_ : string) (cols : list string)
    (keys : list cell) :
  wf_frame data = true → NoDup (index data) →
  getitem data by_ = Ok keys →
  (∀ n, In n cols → In n (names data)) →
  ∃ out, groupby_apply_cumsum data by_ cols = Ok out.
Proof.
  intros Hwf Hnd Hkeys Hcols. unfold groupby_apply_cumsum. rewrite Hkeys.
  cbn [mbind result_bind].
  destruct (rmap_total (fun n => c ← getitem data n; Ok (n, c)) cols) as (selected & ->).
  { intros n Hn. destruct (names_getitem data n (Hcols n Hn)) as (c & ->).
    simpl. eauto. }
  cbn [mbind result_bind]. unfold reindex. cbn [index columns].
  destruct (reindexer_total
              (flat_map (fun ps => np_take 0%Z ps (index data))
                        (map (group_positions keys) (group_keys keys)))
              (np_take 0%Z (kept_positions keys) (index data))) as (ps & ->).
  { apply stacked_index_NoDup; [|exact Hnd]. eapply wf_getitem_length; eassumption. }
  simpl. eauto.
Qed.

Lemma create_cumsum_data_total (data : DataFrame) (keys : list cell) :
  wf_frame data = true → NoDup (index data) →
  getitem data "id_traj" = Ok keys →
  ∃ out, create_cumsum_data data = Ok out.
Proof.
  intros Hwf Hnd Hkeys. unfold create_cumsum_data.
  destruct (groupby_apply_cumsum_total data "id_traj"
              (List.filter (String.prefix "score_") (names data)) keys Hwf Hnd Hkeys)
    as (out & ->).
  { intros n Hn. apply filter_In in Hn. tauto. }
  simpl. eauto.
Qed.

(** X12: on a table with unique row labels and at least one score column,
    [create_cumsum_data] returns exactly when the table has an "id_traj"
    column, whatever the ids and the scores are, missing ones included;
    without that column it raises KeyError. *)
Theorem create_cumsum_data_returns (data : DataFrame) :
  wf_frame data = true → NoDup (index data) →
  (∃ name, In name (names data) ∧ String.prefix "score_" name = true) →
  ((∃ out, create_cumsum_data data = Ok out) ↔ In "id_traj"%string (names data))
  ∧ (¬ In "id_traj"%string (names data) → create_cumsum_data data = Raise KeyError).
Proof.
  intros Hwf Hnd _. split; [split|].
  - intros (out & Hout). unfold create_cumsum_data in Hout.
    apply rbind_Ok in Hout as (out' & Hout & _). unfold groupby_apply_cumsum in Hout.
    apply rbind_Ok in Hout as (keys & Hkeys & _). unfold getitem in Hkeys.
    destruct (assoc "id_traj" (columns data)) as [c|] eqn:Hc; [|discriminate].
    eapply assoc_names. exact Hc.
  - intros Hin. destruct (names_getitem data "id_traj" Hin) as (keys & Hkeys).
    eapply create_cumsum_data_total; eassumption.
  - intros Hnin. unfold create_cumsum_data, groupby_apply_cumsum, getitem.
    destruct (assoc "id_traj" (columns data)) as [c|] eqn:Hc; [|reflexivity].
    exfalso. apply Hnin. eapply assoc_names. exact Hc.
Qed.

Lemma create_cumsum_data_returns_witness :
  ((∃ out, create_cumsum_data ex_scores = Ok out) ↔ In "id_traj"%string (names ex_scores))
  ∧ (¬ In "id_traj"%string (names ex_scores) → create_cumsum_data ex_scores = Raise KeyError).
Proof.
  apply (create_cumsum_data_returns ex_scores).
  - reflexivity.
  - exact NoDup_seqZ_10_6.
  - exists "score_0"%string. split; [simpl; tauto | reflexivity].
Defined.

Lemma running_sum_local (keys col1 col2 : list cell) (g : cell) (p : nat) :
  p < length keys → key_eqb g (nth p keys CNaN) = true →
  (∀ p', p' < length keys → key_eqb g (nth p' keys CNaN) = true →
         nth p' col1 CNaN = nth p' col2 CNaN) →
  running_sum keys col1 p = running_sum keys col2 p.
Proof.
  intros Hp Hg Hsame. unfold running_sum. rewrite (Hsame p Hp Hg).
  destruct (isna (nth p col2 CNaN)); [reflexivity|].
  do 2 f_equal. unfold np_take. apply map_ext_in. intros p' Hp'.
  unfold same_traj_upto in Hp'. apply filter_In in Hp' as [Hlt Heq].
  apply in_seq in Hlt. apply Hsame; [lia|].
  eapply key_eqb_trans; eassumption.
Qed.

(** X13: the cumulative scores of a trajectory depend on the scores of that
    trajectory alone.  For two score tables with the same trajectory ids
    (and unique row labels) whose column [name] agrees on the rows of one
    trajectory, the cumulative column [name] that [create_cumsum_data]
    returns is the same on these rows, whatever the other rows hold. *)
Theorem create_cumsum_data_per_trajectory
    (data1 data2 out1 out2 : DataFrame) (keys col1 col2 : list cell)
    (name : string) (g : cell) :
  wf_frame data1 = true → NoDup (index data1) →
  wf_frame data2 = true → NoDup (index data2) →
  getitem data1 "id_traj" = Ok keys → getitem data2 "id_traj" = Ok keys →
  String.prefix "score_" name = true →
  getitem data1 name = Ok col1 → getitem data2 name = Ok col2 →
  (∀ p, p < length keys → key_eqb g (nth p keys CNaN) = true →
        nth p col1 CNaN = nth p col2 CNaN) →
  create_cumsum_data data1 = Ok out1 → create_cumsum_data data2 = Ok out2 →
  ∃ cum1 cum2,
    getitem out1 name = Ok cum1 ∧ getitem out2 name = Ok cum2
    ∧ length cum1 = length (kept_positions keys)
    ∧ length cum2 = length (kept_positions keys)
    ∧ ∀ j, j < length (kept_positions keys) →
        key_eqb g (nth (nth j (kept_positions keys) 0) keys CNaN) = true →
        nth j cum1 CNaN = nth j cum2 CNaN.
Proof.
  intros Hwf1 Hnd1 Hwf2 Hnd2 Hk1 Hk2 Hpre Hc1 Hc2 Hsame Hrun1 Hrun2.
  destruct (create_cumsum_data_Ok _ _ Hwf1 Hnd1 Hrun1) as (k1 & Hk1' & _ & Hn1 & Hcols1).
  destruct (create_cumsum_data_Ok _ _ Hwf2 Hnd2 Hrun2) as (k2 & Hk2' & _ & Hn2 & Hcols2).
  rewrite Hk1 in Hk1'. injection Hk1' as <-. rewrite Hk2 in Hk2'. injection Hk2' as <-.
  assert (Hin : ∀ data col, getitem data name = Ok col →
            In name (List.filter (String.prefix "score_") (names data))).
  { intros data col Hcol. apply filter_In. split; [|exact Hpre].
    unfold getitem in Hcol. destruct (assoc name (columns data)) eqn:Ha; [|discriminate].
    eapply assoc_names. exact Ha. }
  destruct (Hcols1 name) as (c1 & Hc1' & Hout1); [rewrite Hn1; eapply Hin; eassumption|].
  destruct (Hcols2 name) as (c2 & Hc2' & Hout2); [rewrite Hn2; eapply Hin; eassumption|].
  rewrite Hc1 in Hc1'. injection Hc1' as <-. rewrite Hc2 in Hc2'. injection Hc2' as <-.
  exists (map (running_sum keys col1) (kept_positions keys)),
         (map (running_sum keys col2) (kept_positions keys)).
  split; [exact Hout1|]. split; [exact Hout2|].
  split; [apply length_map|]. split; [apply length_map|].
  intros j Hj Hg.
  rewrite (nth_indep (map (running_sum keys col1) _) CNaN (running_sum keys col1 0)),
          (map_nth (running_sum keys col1)) by (rewrite length_map; exact Hj).
  rewrite (nth_indep (map (running_sum keys col2) _) CNaN (running_sum keys col2 0)),
          (map_nth (running_sum keys col2)) by (rewrite length_map; exact Hj).
  apply (running_sum_local keys col1 col2 g); [|exact Hg | exact Hsame].
  assert (Hp : In (nth j (kept_positions keys) 0) (kept_positions keys))
    by (now apply nth_In).
  apply kept_positions_In in Hp. tauto.
Qed.

Lemma create_cumsum_data_per_trajectory_witness :
  ∃ out2,
    create_cumsum_data ex_scores_other = Ok out2
    ∧ ∃ cum1 cum2,
        getitem ex_scores_cumsum "score_0" = Ok cum1 ∧ getitem out2 "score_0" = Ok cum2
        ∧ length cum1 = length (kept_positions (map CInt [0; 1; 0; 1; 0; 1]%Z))
        ∧ length cum2 = length (kept_positions (map CInt [0; 1; 0; 1; 0; 1]%Z))
        ∧ ∀ j, j < length (kept_positions (map CInt [0; 1; 0; 1; 0; 1]%Z)) →
            key_eqb (CInt 0)
                    (nth (nth j (kept_positions (map CInt [0; 1; 0; 1; 0; 1]%Z)) 0)
                         (map CInt [0; 1; 0; 1; 0; 1]%Z) CNaN) = true →
            nth j cum1 CNaN = nth j cum2 CNaN.
Proof.
  eexists. split; [vm_compute; reflexivity|].
  refine (create_cumsum_data_per_trajectory
            ex_scores ex_scores_other ex_scores_cumsum _
            (map CInt [0; 1; 0; 1; 0; 1]%Z)
            [CFloat 1; CFloat 10; CFloat 2; CNaN; CFloat 3; CFloat 30]
            [CFloat 1; CFloat 99; CFloat 2; CFloat 5; CFloat 3; CFloat 7]
            "score_0" (CInt 0)
            eq_refl NoDup_seqZ_10_6 eq_refl NoDup_seqZ_10_6
            eq_refl eq_refl eq_refl eq_refl eq_refl _ _ eq_refl).
  - intros p Hp Hg.
    do 6 (destruct p as [|p]; [try reflexivity; vm_compute in Hg; discriminate Hg|]).
    simpl in Hp. lia.
  - vm_compute. reflexivity.
Defined.

(* ================================================================= *)
(** ** create_roc_dict: trajectory ids stored as floats *)

Lemma float_eq_int_inj (x : float) (a b : Z) :
  float_eq_int x a = true → float_eq_int x b = true → a = b.
Proof.
  destruct x as [q|]; simpl; [|discriminate].
  rewrite !Qeq_bool_iff. intros Ha Hb. apply inject_Z_injective.
  now rewrite <- Ha, <- Hb.
Qed.

(** X15: when the trajectory ids are stored as floats, whole numbers or
    not, [create_roc_dict] raises IndexError: the keys of the terminal table
    are floats, and [labels[k]] takes integers only. *)
Theorem create_roc_dict_float_ids `{Sklearn}
    (data_original data_score : DataFrame) (labels : list Z) (nb_tc : Z)
    (qs : list Q) :
  wf_frame data_score = true → NoDup (index data_score) →
  index data_original = index data_score →
  getattr data_original "id_traj" = Ok (map CFloat qs) →
  getitem data_score "id_traj" = Ok (map CFloat qs) →
  qs ≠ [] →
  create_roc_dict data_original data_score labels nb_tc = Raise IndexError.
Proof.
  intros Hwf Hnd Hidx Hattr Hitem Hne.
  destruct (create_cumsum_data_total _ _ Hwf Hnd Hitem) as (dc & Hcum).
  assert (Hall : forallb (fun c => negb (isna c)) (map CFloat qs) = true).
  { apply forallb_forall. intros c Hc. apply in_map_iff in Hc as (q & <- & _).
    reflexivity. }
  rewrite (create_roc_dict_steps _ _ _ labels nb_tc _ Hwf Hnd Hidx Hattr Hitem Hall Hcum).
  destruct qs as [|q qs]; [congruence|].
  destruct (group_keys_cover (map CFloat (q :: qs)) (CFloat q)) as (g & Hg & _);
    [now left | reflexivity |].
  pose proof (group_keys_In _ _ Hg) as [Hgin _].
  apply in_map_iff in Hgin as (q' & <- & _).
  rewrite (rmap_np_getitem_raise labels _ (CFloat q') Hg); reflexivity.
Qed.

Lemma create_roc_dict_float_ids_witness :
  @create_roc_dict toy ex_float_ids ex_float_ids [0; 1]%Z 1 = Raise IndexError.
Proof.
  apply (create_roc_dict_float_ids (H := toy) ex_float_ids ex_float_ids [0; 1]%Z 1
           [0; 0; 1; 1]%Q).
  - reflexivity.
  - apply NoDup_seqZ.
  - reflexivity.
  - reflexivity.
  - reflexivity.
  - discriminate.
Defined.

(* ================================================================= *)
(** ** create_roc_dict: the rows of the terminal table *)

Lemma key_leb_total (a b : cell) : key_leb a b = false → key_leb b a = true.
Proof.
  unfold key_leb. destruct (cell_float a) as [x|], (cell_float b) as [y|];
    try discriminate; try reflexivity.
  intros Hxy. apply Qle_bool_iff.
  destruct (Qlt_le_dec y x) as [Hlt|Hle]; [now apply Qlt_le_weak|].
  apply Qle_bool_iff in Hle. congruence.
Qed.

Lemma key_leb_trans (a b c : cell) :
  isna b = false → key_leb a b = true → key_leb b c = true → key_leb a c = true.
Proof.
  unfold key_leb. intros Hb.
  destruct (cell_float a) as [x|], (cell_float b) as [y|] eqn:Hy, (cell_float c) as [z|];
    try reflexivity.
  - rewrite !Qle_bool_iff. apply Qle_trans.
  - destruct b; discriminate.
Qed.

Lemma insert_key_sorted (k : cell) (l : list cell) :
  isna k = false → (∀ x, In x l → isna x = false) →
  Sorted.StronglySorted (fun a b => key_leb a b = true) l →
  Sorted.StronglySorted (fun a b => key_leb a b = true) (insert_key k l).
Proof.
  intros Hk. induction l as [|x l IH]; simpl; intros Hl Hs.
  - constructor; [constructor | constructor].
  - inversion Hs as [|? ? Hs' Hx]; subst.
    destruct (key_leb k x) eqn:Hkx.
    + constructor; [exact Hs|]. constructor; [exact Hkx|].
      rewrite List.Forall_forall in Hx |- *. intros y Hy.
      apply (key_leb_trans k x y); auto.
    + constructor; [apply IH; auto|].
      rewrite List.Forall_forall in Hx |- *. intros y Hy.
      apply (Permutation_in _ (insert_key_perm k l)) in Hy as [<- | Hy]; [|auto].
      now apply key_leb_total.
Qed.

Lemma sort_keys_sorted (l : list cell) :
  (∀ x, In x l → isna x = false) →
  Sorted.StronglySorted (fun a b => key_leb a b = true) (sort_keys l).
Proof.
  induction l as [|x l IH]; simpl; intros Hl; [constructor|].
  apply insert_key_sorted; auto.
  intros y Hy. apply (Permutation_in _ (sort_keys_perm l)) in Hy. auto.
Qed.

Lemma StronglySorted_lookup {A : Type} (R : A → A → Prop) (l : list A) :
  Sorted.StronglySorted R l →
  ∀ i j a b, l !! i = Some a → l !! j = Some b → i < j → R a b.
Proof.
  induction 1 as [|x l Hs IH Hx]; intros i j a b Hi Hj Hlt; [discriminate|].
  destruct j as [|j]; [lia|]. simpl in Hj. destruct i as [|i]; simpl in Hi.
  - injection Hi as <-. rewrite List.Forall_forall in Hx. apply Hx.
    apply list_elem_of_In. eapply list_elem_of_lookup_2. exact Hj.
  - apply (IH i j); auto. lia.
Qed.

(** Two group keys at different places are different trajectories. *)
Lemma group_keys_distinct (keys : list cell) (i j : nat) (a b : cell) :
  group_keys keys !! i = Some a → group_keys keys !! j = Some b →
  key_eqb a b = true → i = j.
Proof.
  intros Hi Hj Hab.
  assert (Ha : In a (group_keys keys))
    by (apply list_elem_of_In; eapply list_elem_of_lookup_2; exact Hi).
  apply group_keys_In in Ha as [Ha Hna].
  apply (In_nth _ _ CNaN) in Ha as (p & Hp & Hnth).
  apply (NoDup_flat_map_lookup (group_positions keys) (group_keys keys)
           (group_rows_NoDup keys) i j a b p Hi Hj).
  - apply group_positions_In. split; [exact Hp|]. rewrite Hnth. now apply key_eqb_refl.
  - apply group_positions_In. split; [exact Hp|]. rewrite Hnth. now apply key_eqb_sym.
Qed.

(** X16: the terminal table of [create_roc_dict], which
    [groupby("id_traj").last()] builds, has one row per trajectory: its keys
    are trajectory ids of the table, every id that is not missing is one of
    them, and they come in strictly ascending order, so no trajectory has
    two rows. *)
Theorem groupby_last_one_row_per_trajectory
    (df : DataFrame) (by_ : string) (keys : list cell) (G : GroupedFrame) :
  getitem df by_ = Ok keys →
  groupby_last df by_ = Ok G →
  (∀ g, In g (group_index G) → In g keys ∧ isna g = false)
  ∧ (∀ c, In c keys → isna c = false →
          ∃ g, In g (group_index G) ∧ key_eqb g c = true)
  ∧ (∀ i j a b, group_index G !! i = Some a → group_index G !! j = Some b → i < j →
                ∃ x y, cell_float a = Some x ∧ cell_float b = Some y ∧ (x < y)%Q)
  ∧ ∀ name col, ggetitem G name = Ok col → length col = length (group_index G).
Proof.
  intros Hkeys Hrun. unfold groupby_last in Hrun. rewrite Hkeys in Hrun.
  cbn [mbind result_bind] in Hrun. injection Hrun as <-. cbn [group_index group_columns].
  split; [apply group_keys_In|]. split; [apply group_keys_cover|]. split.
  - intros i j a b Hi Hj Hlt.
    assert (Hle : key_leb a b = true).
    { apply (StronglySorted_lookup (fun a b => key_leb a b = true) (group_keys keys))
        with (i := i) (j := j); try assumption.
      apply sort_keys_sorted. intros x Hx. now apply distinct_keys_In in Hx. }
    assert (Hne : key_eqb a b = false).
    { apply not_true_is_false. intros Hab.
      pose proof (group_keys_distinct keys i j a b Hi Hj Hab). lia. }
    assert (Ha : isna a = false).
    { eapply group_keys_In, list_elem_of_In, list_elem_of_lookup_2. exact Hi. }
    assert (Hb : isna b = false).
    { eapply group_keys_In, list_elem_of_In, list_elem_of_lookup_2. exact Hj. }
    unfold key_leb in Hle. unfold key_eqb in Hne.
    destruct (cell_float a) as [x|] eqn:Hx; [|destruct a; discriminate].
    destruct (cell_float b) as [y|] eqn:Hy; [|destruct b; discriminate].
    exists x, y. split; [reflexivity|]. split; [reflexivity|].
    apply Qle_bool_iff in Hle. apply Qeq_bool_neq in Hne.
    apply Qle_lt_or_eq in Hle as [Hlt' | Heq]; [exact Hlt' | contradiction].
  - intros name col Hcol. unfold ggetitem in Hcol. cbn [group_columns] in Hcol.
    destruct (assoc name _) as [c|] eqn:Hc in Hcol; [|discriminate].
    injection Hcol as <-. apply assoc_In in Hc.
    apply in_map_iff in Hc as ([n c0] & [= _ <-] & _). apply length_map.
Qed.

Lemma groupby_last_one_row_per_trajectory_witness :
  ∃ G,
    groupby_last ex_score_table "id_traj" = Ok G
    ∧ group_index G = map CInt [0; 1; 2; 3]%Z
    ∧ ∀ i j a b, group_index G !! i = Some a → group_index G !! j = Some b → i < j →
                 ∃ x y, cell_float a = Some x ∧ cell_float b = Some y ∧ (x < y)%Q.
Proof.
  eexists. split; [vm_compute; reflexivity|]. split; [reflexivity|].
  refine (proj1 (proj2 (proj2 (groupby_last_one_row_per_trajectory
                                 ex_score_table "id_traj"
                                 (map CInt [0; 1; 2; 3; 0; 1; 2; 3; 0; 1; 2; 3]%Z) _
                                 eq_refl eq_refl)))).
Defined.

(* ================================================================= *)
(** ** The class filter of build_cross_clust_mixt_cv *)

Lemma mask_select_seq_sorted (mask : list bool) :
  ∀ lo, Sorted.StronglySorted lt (mask_select mask (seq lo (length mask))).
Proof.
  induction mask as [|b mask IH]; simpl; intros lo; [constructor|].
  destruct b; [|apply IH]. constructor; [apply IH|].
  rewrite List.Forall_forall. intros p Hp. apply mask_select_seq_In in Hp. lia.
Qed.

(** The training points of a class: the rows of the training array, in
    their order and without their last column, whose trajectory id is a
    position of [labels] that holds the class. *)
Lemma class_coords_rows (labels : list Z) (n_class : Z) (train : ndarray) :
  ∃ rows,
    class_coords labels n_class train = map (fun k => removelast (nth k train [])) rows
    ∧ (∀ i j a b, rows !! i = Some a → rows !! j = Some b → i < j → a < b)
    ∧ ∀ k, In k rows
           ↔ k < length train
             ∧ ∃ p, p < length labels ∧ nth p labels 0%Z = n_class
                    ∧ float_eq_int (row_last (nth k train [])) (Z.of_nat p) = true.
Proof.
  assert (Hlen : length (np_isin (last_column train) (np_where_eq labels n_class))
                 = length train)
    by (unfold np_isin, last_column; now rewrite !length_map).
  exists (mask_positions (np_isin (last_column train) (np_where_eq labels n_class))).
  split; [|split].
  - unfold class_coords, but_last_column.
    rewrite (mask_select_take []) by exact Hlen.
    unfold np_take. now rewrite map_map.
  - apply (StronglySorted_lookup lt). apply mask_select_seq_sorted.
  - intros k. rewrite mask_positions_In, Hlen. split.
    + intros [Hk Hm]. split; [exact Hk|]. now apply class_filter_nth.
    + intros [Hk Hp]. split; [exact Hk|]. now apply class_filter_nth.
Qed.

Lemma class_coords_cons (labels : list Z) (c : Z) (row : list float) (train : ndarray) :
  class_coords labels c (row :: train)
  = (if existsb (float_eq_int (row_last row)) (np_where_eq labels c)
     then [removelast row] else [])
    ++ class_coords labels c train.
Proof.
  unfold class_coords, but_last_column. simpl.
  destruct (existsb (float_eq_int (row_last row)) (np_where_eq labels c)); reflexivity.
Qed.

Lemma np_where_eq_In (labels : list Z) (c v : Z) :
  In v (np_where_eq labels c) →
  ∃ p, v = Z.of_nat p ∧ p < length labels ∧ nth p labels 0%Z = c.
Proof.
  unfold np_where_eq. intros Hv. apply in_map_iff in Hv as (p & <- & Hp).
  apply mask_positions_In in Hp as [Hplt Hnth]. rewrite length_map in Hplt.
  exists p. split; [reflexivity|]. split; [exact Hplt|].
  rewrite (nth_indep _ false ((fun l => Z.eqb l c) 0%Z)) in Hnth
    by (rewrite length_map; exact Hplt).
  rewrite (map_nth (fun l => Z.eqb l c)) in Hnth. now apply Z.eqb_eq.
Qed.

(** A trajectory id is a position of [labels] for one class at most. *)
Lemma class_of_row_unique (labels : list Z) (x : float) (c1 c2 : Z) :
  existsb (float_eq_int x) (np_where_eq labels c1) = true →
  existsb (float_eq_int x) (np_where_eq labels c2) = true →
  c1 = c2.
Proof.
  rewrite !existsb_exists. intros (v1 & Hv1 & H1) (v2 & Hv2 & H2).
  pose proof (float_eq_int_inj _ _ _ H1 H2) as Heq. subst v2.
  apply np_where_eq_In in Hv1 as (p1 & -> & _ & <-).
  apply np_where_eq_In in Hv2 as (p2 & Hp & _ & <-).
  apply Nat2Z.inj in Hp. now subst p2.
Qed.

Lemma list_sum_map_add {A : Type} (f g : A → nat) (l : list A) :
  list_sum (map (fun a => f a + g a) l) = list_sum (map f l) + list_sum (map g l).
Proof. induction l as [|a l IH]; simpl; [reflexivity | rewrite IH; lia]. Qed.

Lemma indicator_sum_le_1 {A : Type} (f : A → bool) (l : list A) :
  NoDup l →
  (∀ a b, In a l → In b l → f a = true → f b = true → a = b) →
  list_sum (map (fun a => if f a then 1 else 0) l) ≤ 1.
Proof.
  induction l as [|a l IH]; simpl; intros Hnd Hone; [lia|].
  apply NoDup_cons in Hnd as [Hnotin Hnd].
  destruct (f a) eqn:Hfa.
  - assert (Hzero : list_sum (map (fun a => if f a then 1 else 0) l) = 0).
    { clear IH. induction l as [|b l IHl]; simpl; [reflexivity|].
      destruct (f b) eqn:Hfb.
      - exfalso. apply Hnotin. rewrite (Hone a b); auto; [now left | simpl; auto].
      - apply IHl.
        + intros Hin. apply Hnotin. now right.
        + now apply NoDup_cons in Hnd as [_ Hnd].
        + intros x y Hx Hy. apply Hone; simpl in *; tauto. }
    lia.
  - apply IH; [exact Hnd|]. intros x y Hx Hy. apply Hone; now right.
Qed.

(** X14: no training point is used for two classes.  The training sets
    that the class filter of [build_cross_clust_mixt_cv] builds for
    distinct classes come from disjoint sets of rows of the training array,
    so that together they have no more points than the training array. *)
Theorem class_coords_one_class
    (labels : list Z) (train : ndarray) (classes : list Z) :
  NoDup classes →
  list_sum (map (fun c => length (class_coords labels c train)) classes) ≤ length train
  ∧ ∀ c1 c2, c1 ≠ c2 →
      ∃ rows1 rows2,
        class_coords labels c1 train = map (fun k => removelast (nth k train [])) rows1
        ∧ class_coords labels c2 train = map (fun k => removelast (nth k train [])) rows2
        ∧ (∀ k, In k rows1 → k < length train)
        ∧ (∀ k, In k rows2 → k < length train)
        ∧ (∀ i j a b, rows1 !! i = Some a → rows1 !! j = Some b → i < j → a < b)
        ∧ (∀ i j a b, rows2 !! i = Some a → rows2 !! j = Some b → i < j → a < b)
        ∧ ∀ k, ¬ (In k rows1 ∧ In k rows2).
Proof.
  intros Hnd. split.
  - induction train as [|row train IH]; simpl.
    + induction classes as [|c classes IHc]; simpl; [lia|].
      apply NoDup_cons in Hnd as [_ Hnd]. now apply IHc.
    + rewrite (map_ext _ (fun c =>
                 (if existsb (float_eq_int (row_last row)) (np_where_eq labels c)
                  then 1 else 0)
                 + length (class_coords labels c train))).
      2:{ intros c. rewrite class_coords_cons, length_app.
          now destruct (existsb _ _). }
      rewrite list_sum_map_add.
      pose proof (indicator_sum_le_1
                    (fun c => existsb (float_eq_int (row_last row)) (np_where_eq labels c))
                    classes Hnd) as Hone.
      simpl in Hone.
      assert (list_sum
                (map (fun c => if existsb (float_eq_int (row_last row))
                                          (np_where_eq labels c)
                               then 1 else 0) classes) ≤ 1).
      { apply Hone. intros a b _ _. apply class_of_row_unique. }
      lia.
  - intros c1 c2 Hne.
    destruct (class_coords_rows labels c1 train) as (rows1 & Heq1 & Hasc1 & Hin1).
    destruct (class_coords_rows labels c2 train) as (rows2 & Heq2 & Hasc2 & Hin2).
    exists rows1, rows2. split; [exact Heq1|]. split; [exact Heq2|].
    split; [intros k Hk; now apply Hin1 in Hk|].
    split; [intros k Hk; now apply Hin2 in Hk|].
    split; [exact Hasc1|]. split; [exact Hasc2|].
    intros k [Hk1 Hk2].
    apply Hin1 in Hk1 as (_ & p1 & _ & Hl1 & Hp1).
    apply Hin2 in Hk2 as (_ & p2 & _ & Hl2 & Hp2).
    pose proof (float_eq_int_inj _ _ _ Hp1 Hp2) as Heq.
    apply Nat2Z.inj in Heq. subst p2. congruence.
Qed.

Lemma class_coords_one_class_witness :
  list_sum (map (fun c => length (class_coords ex_labels c
                                    [[Some 2%Q; Some 0%Q; Some 1%Q];
                                     [Some 4%Q; Some 1%Q; Some 3%Q];
                                     [Some 6%Q; Some 0%Q; Some 7%Q]]))
                (range 0 2))
  ≤ 3.
Proof.
  exact (proj1 (class_coords_one_class ex_labels
                  [[Some 2%Q; Some 0%Q; Some 1%Q];
                   [Some 4%Q; Some 1%Q; Some 3%Q];
                   [Some 6%Q; Some 0%Q; Some 7%Q]]
                  (range 0 2) (NoDup_seqZ 0 (2 - 0)))).
Defined.

(** C10 (amended): trajectory ids are used as positions in the array
    [labels].  The class filter of [build_cross_clust_mixt_cv]
    ([class_coords], lines 115-116) keeps a training point exactly when its
    [id_traj] is a position [p] of [labels] with [labels[p]] equal to the
    class: the training set of a class is made of these rows, in their
    order, and an id that is no position is in the training set of no class
    and raises nothing.  In a run that returns, the model that the
    dictionary of a fold holds under a class was fitted on points of that
    training set, on all of them when there are at most 10000.  In
    [create_roc_dict] the cluster column of the terminal table is
    [labels[k]] for each trajectory id [k], where a negative [k] from
    [-len(labels)] on counts from the end of [labels]
    ([labels[len(labels) + k]]); the lookup fails with IndexError, with no
    defensive handling, when some id [k] has [k >= len(labels)] or
    [k < -len(labels)]. *)
Theorem labels_indexed_by_trajectory_id `{Sklearn}
    (data_original data_score data_cumsum : DataFrame)
    (labels : list Z) (nb_tc : Z) (zs : list Z) :
  wf_frame data_score = true → NoDup (index data_score) →
  index data_original = index data_score →
  getattr data_original "id_traj" = Ok (map CInt zs) →
  getitem data_score "id_traj" = Ok (map CInt zs) →
  create_cumsum_data data_score = Ok data_cumsum →
  let n := Z.of_nat (length labels) in
  (∀ n_class train,
     ∃ rows,
       class_coords labels n_class train
       = map (fun k => removelast (nth k train [])) rows
       ∧ (∀ i j a b, rows !! i = Some a → rows !! j = Some b → i < j → a < b)
       ∧ ∀ k, In k rows
              ↔ k < length train
                ∧ ∃ p, p < length labels ∧ nth p labels 0%Z = n_class
                       ∧ float_eq_int (row_last (nth k train [])) (Z.of_nat p) = true)
  ∧ (∀ points cv_list nb_traj_class s s' gmm_cv data k cv_index_k n_class,
       build_cross_clust_mixt_cv points cv_list nb_traj_class labels s
       = Ok (gmm_cv, data, s') →
       cv_list !! k = Some cv_index_k → (0 <= n_class < nb_traj_class)%Z →
       ∃ train test data_ gmm_per_traj_clust gmm nc coord_tc s1 s2,
         train_test_split points cv_index_k (Z.of_nat k) = Ok (train, test, data_)
         ∧ gmm_cv !! k = Some gmm_per_traj_clust
         ∧ gmm_per_traj_clust !! n_class = Some (Fitted gmm)
         ∧ gmm_fit nc coord_tc s1 = Ok (gmm, s2)
         ∧ (∀ row, In row coord_tc → In row (class_coords labels n_class train))
         ∧ ((Z.of_nat (length (class_coords labels n_class train)) <= 10000)%Z →
            coord_tc = class_coords labels n_class train))
  ∧ ((∃ z, In z zs ∧ (z < - n ∨ n <= z)%Z) →
     create_roc_dict data_original data_score labels nb_tc = Raise IndexError)
  ∧ ((∀ z, In z zs → (- n <= z < n)%Z) →
     ∃ clusters,
       Forall2 (fun k c => ∃ z, k = CInt z ∧ c = nth (Z.to_nat (z mod n)) labels 0%Z)
               (group_keys (map CInt zs)) clusters
       ∧ create_roc_dict data_original data_score labels nb_tc
         = roc_loop {| group_index := group_keys (map CInt zs);
                       group_columns :=
                         assoc_set "traj_clust" (map CInt clusters)
                                   (terminal_columns data_cumsum (map CInt zs)) |}
                    (range 0 nb_tc) ∅).
Proof.
  intros Hwf Hnd Hidx Hattr Hitem Hcum n.
  pose proof (create_roc_dict_steps _ _ _ labels nb_tc _ Hwf Hnd Hidx Hattr Hitem
                (all_int_valid zs) Hcum) as Hsteps.
  split; [intros; apply class_coords_rows|]. split; [|split].
  - intros points cv_list nb_traj_class s s' gmm_cv data k cv c Hrun Hk Hc.
    apply build_cross_clust_mixt_cv_folds in Hrun as (data_list & Hloop).
    apply fold_loop_run in Hloop as (dicts & frames & Hdicts & _ & Hfolds).
    simpl in Hdicts. subst dicts.
    destruct (Hfolds k cv Hk) as (train & test & F0 & d & F & Hsplit & Hd & _ & _ & Hclasses).
    rewrite Z.add_0_l in Hsplit.
    destruct (Hclasses c) as (g & nc & coord_tc & s1 & s2 & l & Hg & Hfit & Hsub & Hsame & _);
      [now apply range_In|].
    exists train, test, F0, d, g, nc, coord_tc, s1, s2. auto 10.
  - intros (z & Hz & Hout). rewrite Hsteps.
    destruct (group_keys_cover (map CInt zs) (CInt z)) as (g & Hg & Hgz);
      [now apply in_map | reflexivity |].
    pose proof (group_keys_In _ _ Hg) as [Hgin _].
    apply in_map_iff in Hgin as (z' & <- & _).
    apply key_eqb_int in Hgz as ->.
    rewrite (rmap_np_getitem_raise labels _ (CInt z) Hg); [reflexivity|].
    now apply np_getitem_out.
  - intros Hin.
    destruct (rmap_Forall2 (np_getitem labels)
                (fun k c => ∃ z, k = CInt z ∧ c = nth (Z.to_nat (z mod n)) labels 0%Z)
                (group_keys (map CInt zs))) as (clusters & Hclusters & Hall).
    { intros g Hg. apply group_keys_In in Hg as [Hg _].
      apply in_map_iff in Hg as (z & <- & Hz).
      exists (nth (Z.to_nat (z mod n)) labels 0%Z). split; [|eauto].
      apply np_getitem_int. now apply Hin. }
    exists clusters. split; [assumption|]. rewrite Hsteps, Hclusters. reflexivity.
Qed.

Lemma labels_indexed_by_trajectory_id_witness :
  (∃ rows,
     class_coords ex_labels 0
       [[Some 2%Q; Some 0%Q; Some 1%Q]; [Some 4%Q; Some 1%Q; Some 3%Q];
        [Some 6%Q; Some 0%Q; Some 7%Q]]
     = map (fun k => removelast (nth k [[Some 2%Q; Some 0%Q; Some 1%Q];
                                        [Some 4%Q; Some 1%Q; Some 3%Q];
                                        [Some 6%Q; Some 0%Q; Some 7%Q]] []))
           rows
     ∧ class_coords ex_labels 0
         [[Some 2%Q; Some 0%Q; Some 1%Q]; [Some 4%Q; Some 1%Q; Some 3%Q];
          [Some 6%Q; Some 0%Q; Some 7%Q]]
       = [[Some 2%Q; Some 0%Q]])
  ∧ ∃ clusters,
      Forall2 (fun k c => ∃ z, k = CInt z
                               ∧ c = nth (Z.to_nat (z mod Z.of_nat (length ex_labels)))
                                         ex_labels 0%Z)
              (group_keys (map CInt [0; 1; 2; 3; 0; 1; 2; 3; 0; 1; 2; 3]%Z)) clusters
      ∧ @create_roc_dict toy ex_points ex_score_table ex_labels 2
        = @roc_loop toy
            {| group_index := group_keys (map CInt [0; 1; 2; 3; 0; 1; 2; 3; 0; 1; 2; 3]%Z);
               group_columns :=
                 assoc_set "traj_clust" (map CInt clusters)
                   (terminal_columns ex_score_cumsum
                      (map CInt [0; 1; 2; 3; 0; 1; 2; 3; 0; 1; 2; 3]%Z)) |}
            (range 0 2) ∅.
Proof.
  pose proof (labels_indexed_by_trajectory_id (H := toy)
                ex_points ex_score_table ex_score_cumsum ex_labels 2
                [0; 1; 2; 3; 0; 1; 2; 3; 0; 1; 2; 3]%Z
                eq_refl NoDup_seqZ_100_12 eq_refl eq_refl eq_refl eq_refl)
    as (Hfilter & _ & _ & Hlookup).
  split.
  - destruct (Hfilter 0%Z [[Some 2%Q; Some 0%Q; Some 1%Q]; [Some 4%Q; Some 1%Q; Some 3%Q];
                           [Some 6%Q; Some 0%Q; Some 7%Q]]) as (rows & Hrows & _).
    exists rows. split; [exact Hrows | reflexivity].
  - apply Hlookup. intros z Hz. simpl in Hz. simpl. lia.
Defined.
